(** * Embedding and similarity-graph pipelines of notion-knowledge-graph

    A shallow embedding of the scripts
      - scripts/vector_store.py        (pages  -> BGE-M3 -> Qdrant)
      - scripts/code_embedder.py       (Swift  -> BGE-M3 -> Qdrant)
      - scripts/graph_builder.py       (pages  -> Neo4j nodes)
      - scripts/similarity_edges.py    (Qdrant -> Neo4j SIMILAR_TO, pages)
      - scripts/code_graph_builder.py  (Qdrant -> Neo4j nodes + SIMILAR_TO, code)
      - scripts/notion_exporter.py     (Notion blocks -> text, links, titles)

    The two external stores are modelled as in-memory values that are
    threaded through the functions: a Qdrant instance is a finite map from
    collection names to collections, a collection a finite map from point
    ids to points; a Neo4j database is a list of nodes and a list of
    relationships between node positions.  Calls that can fail for reasons
    outside the program (the embedding model, a Qdrant upsert, a Qdrant
    query) take their outcome from an oracle indexed by the number of the
    call, so that every run of the real program is a run of the model under
    some oracle.  A Python exception that leaves a function is the outcome
    [Raised]. *)

From Stdlib Require Import ZArith QArith String Ascii List Bool Lia.
From stdpp Require Import gmap strings list.
Import ListNotations.

Set Warnings "-abstract-large-number".

Local Open Scope string_scope.
Local Open Scope Z_scope.

(** ** Python values used by the scripts *)

(** A Python [float] is modelled by the rational number it denotes;
    comparisons of floats are comparisons of these numbers. *)
Definition Vec : Type := list Q.

(** [a < b] on floats. *)
Definition Qltb (a b : Q) : bool :=
  (Qnum a * Zpos (Qden b) <? Qnum b * Zpos (Qden a))%Z.

(** Nearest integer, ties to the even one. *)
Definition round_half_even (q : Q) : Z :=
  let n := Qnum q in
  let d := Zpos (Qden q) in
  let f := (n / d)%Z in
  let r := (n mod d)%Z in
  match (2 * r ?= d)%Z with
  | Lt => f
  | Gt => (f + 1)%Z
  | Eq => if Z.even f then f else (f + 1)%Z
  end.

(** Python's [round(x, 3)]. *)
Definition round3 (q : Q) : Q :=
  Qmake (round_half_even (Qmult q (Qmake 1000 1))) 1000.

(** Truthiness of a [str]: [not s] holds for the empty string only. *)
Definition str_truthy (s : string) : bool :=
  match s with EmptyString => false | _ => true end.

(** [dict.get(key, default)] on a field that may be absent. *)
Definition get {A : Type} (field : option A) (dflt : A) : A :=
  match field with Some v => v | None => dflt end.

(** How a call ends: it returns, or an exception leaves it. *)
Inductive Outcome : Type := Returned | Raised.

(** How a [while True] loop ends within a number of turns: it is still
    running, an exception has left it, or it has returned a value. *)
Inductive Loop (A : Type) : Type :=
| Running
| Failed
| Done (a : A).
Arguments Running {A}.
Arguments Failed {A}.
Arguments Done {A} _.

(** ** The graph store

    A statement that the store refuses (a CREATE against a uniqueness
    constraint) raises where [session.run] is called; every other
    statement goes through. *)

Module Neo4j.

Inductive Label : Type := Page | CodeFile | ModuleLabel | DateLabel.

Inductive RelType : Type :=
  SIMILAR_TO | CHILD_OF | LINKS_TO | BELONGS_TO | CREATED_ON.

#[export] Instance Label_eq_dec : EqDecision Label.
Proof. solve_decision. Defined.

#[export] Instance RelType_eq_dec : EqDecision RelType.
Proof. solve_decision. Defined.

(** Properties written by [create_page_nodes]. *)
Record PageProps : Type := mkPageProps {
  pp_title : string;
  pp_url : string;
  pp_wordCount : Z;
  pp_blockCount : Z;
  pp_createdAt : string;
  pp_updatedAt : string;
  pp_parentId : string;
  pp_parentType : string
}.

(** Properties written by [create_code_nodes]. *)
Record CodeProps : Type := mkCodeProps {
  cp_name : string;
  cp_module : string;
  cp_subpath : string;
  cp_lines : Z;
  cp_imports : list string;
  cp_classes : list string;
  cp_structs : list string;
  cp_protocols : list string
}.

Inductive Props : Type :=
| NoProps
| OfPage (p : PageProps)
| OfCode (c : CodeProps).

(** A node: its label, the property it is looked up by ([id] of a Page,
    [path] of a CodeFile) and its other properties. *)
Record Node : Type := mkNode {
  node_label : Label;
  node_key : string;
  node_props : Props
}.

(** A relationship between the nodes at two positions of the node list. *)
Record Rel : Type := mkRel {
  rel_type : RelType;
  rel_src : nat;
  rel_dst : nat;
  rel_score : option Q
}.

(** [unique_on] lists the labels whose key is under a uniqueness
    constraint. *)
Record Graph : Type := mkGraph {
  nodes : list Node;
  rels : list Rel;
  unique_on : list Label
}.

(** Whether the uniqueness constraint on the key of a label is in place. *)
Definition unique (g : Graph) (l : Label) : bool :=
  existsb (fun l' => bool_decide (l' = l)) (unique_on g).

Definition is_node (l : Label) (k : string) (n : Node) : bool :=
  bool_decide (node_label n = l) && String.eqb (node_key n) k.

(** Positions of the nodes matched by [MATCH (x:l {key: k})]. *)
Fixpoint match_from (l : Label) (k : string) (i : nat) (ns : list Node)
  : list nat :=
  match ns with
  | [] => []
  | n :: ns' =>
      if is_node l k n then i :: match_from l k (S i) ns'
      else match_from l k (S i) ns'
  end.

Definition match_nodes (l : Label) (k : string) (g : Graph) : list nat :=
  match_from l k 0 (nodes g).

(** [MATCH ()-[r:t]->() DELETE r]. *)
Definition delete_rels (t : RelType) (g : Graph) : Graph :=
  mkGraph (nodes g)
          (List.filter (fun r => negb (bool_decide (rel_type r = t))) (rels g))
          (unique_on g).

(** [MATCH (n) DETACH DELETE n]. *)
Definition detach_delete_all (g : Graph) : Graph :=
  mkGraph [] [] (unique_on g).

Definition is_rel (t : RelType) (i j : nat) (r : Rel) : bool :=
  bool_decide (rel_type r = t) && Nat.eqb (rel_src r) i && Nat.eqb (rel_dst r) j.

Definition set_score (t : RelType) (i j : nat) (s : Q) (r : Rel) : Rel :=
  if is_rel t i j r then mkRel (rel_type r) (rel_src r) (rel_dst r) (Some s)
  else r.

(** [MERGE (a)-[r:t]->(b) SET r.score = s] for bound [a], [b]: the
    relationships of that type between the two nodes get the score; when
    there is none, one is created. *)
Definition merge_rel (t : RelType) (s : Q) (rs : list Rel) (row : nat * nat)
  : list Rel :=
  let '(i, j) := row in
  if existsb (is_rel t i j) rs then List.map (set_score t i j s) rs
  else rs ++ [mkRel t i j (Some s)].

(** [MATCH (a:l {key: k1}) MATCH (b:l {key: k2})
     MERGE (a)-[r:t]->(b) SET r.score = s RETURN count(r)]:
    one row per pair of matched nodes; the count is the number of rows. *)
Definition merge_rel_between (l : Label) (t : RelType) (k1 k2 : string)
           (s : Q) (g : Graph) : Graph * nat :=
  let rows := list_prod (match_nodes l k1 g) (match_nodes l k2 g) in
  (mkGraph (nodes g) (fold_left (merge_rel t s) rows (rels g)) (unique_on g),
   length rows).

(** [CREATE (x:l {key: k, ...})]: refused when the uniqueness constraint
    of the label is in place and a node with that key exists. *)
Definition create_node (l : Label) (k : string) (p : Props) (g : Graph)
  : option Graph :=
  if unique g l && negb (bool_decide (match_nodes l k g = []))
  then None
  else Some (mkGraph (nodes g ++ [mkNode l k p]) (rels g) (unique_on g)).

Definition set_props (l : Label) (k : string) (p : Props) (n : Node) : Node :=
  if is_node l k n then mkNode (node_label n) (node_key n) p else n.

(** [MERGE (x:l {key: k}) SET x.a = ..., ...]: every matched node gets the
    properties; when there is none, one is created. *)
Definition merge_node (l : Label) (k : string) (p : Props) (g : Graph)
  : Graph :=
  if bool_decide (match_nodes l k g = [])
  then mkGraph (nodes g ++ [mkNode l k p]) (rels g) (unique_on g)
  else mkGraph (List.map (set_props l k p) (nodes g)) (rels g) (unique_on g).

(** The keys of the nodes of a label, in node order. *)
Definition keys_of (l : Label) (g : Graph) : list string :=
  List.map node_key
           (List.filter (fun n => bool_decide (node_label n = l)) (nodes g)).

(** [CREATE CONSTRAINT ... IF NOT EXISTS FOR (x:l) REQUIRE x.key IS UNIQUE]:
    refused when the existing nodes already break it. *)
Definition create_constraint (l : Label) (g : Graph) : option Graph :=
  if bool_decide (NoDup (keys_of l g))
  then Some (mkGraph (nodes g) (rels g)
                     (if unique g l then unique_on g else l :: unique_on g))
  else None.

(** The key of the node at a position. *)
Definition key_at (g : Graph) (i : nat) : option string :=
  node_key <$> (nodes g !! i).

(** Number of nodes carrying a key. *)
Definition count_nodes (l : Label) (k : string) (g : Graph) : nat :=
  length (match_nodes l k g).

(** [MATCH (a:l {key: k1}) MATCH (b:l {key: k2})
     CREATE (a)-[:t]->(b) RETURN count( * )]: one new relationship per
    pair of matched nodes; the count is the number of pairs. *)
Definition create_rel_between (l : Label) (t : RelType) (k1 k2 : string)
           (g : Graph) : Graph * nat :=
  let rows := list_prod (match_nodes l k1 g) (match_nodes l k2 g) in
  (mkGraph (nodes g)
           (rels g ++ List.map (fun row => mkRel t (fst row) (snd row) None) rows)
           (unique_on g),
   length rows).

(** [MERGE (x:l {key: k})] with no SET: a node is created when none
    carries the key, and nothing changes otherwise. *)
Definition merge_node_plain (l : Label) (k : string) (g : Graph) : Graph :=
  if bool_decide (match_nodes l k g = [])
  then mkGraph (nodes g ++ [mkNode l k NoProps]) (rels g) (unique_on g)
  else g.

(** [MERGE (a)-[:t]->(b)] with no SET, for bound [a], [b]. *)
Definition merge_plain_rel (t : RelType) (rs : list Rel) (row : nat * nat)
  : list Rel :=
  let '(i, j) := row in
  if existsb (is_rel t i j) rs then rs else rs ++ [mkRel t i j None].

(** An integer that the driver can send as a parameter: Bolt carries
    integers of 64 bits, and [session.run] raises OverflowError for any
    other. *)
Definition int64 (z : Z) : bool := (- 2 ^ 63 <=? z) && (z <? 2 ^ 63).

(** [MATCH (a:l1 {key: k1}) MATCH (b:l2 {key: k2})
     MERGE (a)-[:t]->(b) RETURN count( * )]. *)
Definition merge_plain_rel_between (l1 : Label) (k1 : string) (l2 : Label)
           (k2 : string) (t : RelType) (g : Graph) : Graph * nat :=
  let rows := list_prod (match_nodes l1 k1 g) (match_nodes l2 k2 g) in
  (mkGraph (nodes g) (fold_left (merge_plain_rel t) rows (rels g)) (unique_on g),
   length rows).

End Neo4j.

(** ** The vector index *)

Module Qdrant.

(** Payload written by [vector_store.process_pages]; a reader uses
    [payload.get], so every key may be absent. *)
Record PagePayload : Type := mkPagePayload {
  notion_id : option string;
  title : option string;
  created_time : option string;
  last_edited_time : option string;
  url : option string;
  word_count : option Z;
  block_count : option Z;
  parent_id : option string;
  content_preview : option string;
  tags : option (list string)
}.

(** Payload written by [code_embedder.process_files]. *)
Record CodePayload : Type := mkCodePayload {
  file_name : option string;
  module : option string;
  subpath : option string;
  relative_path : option string;
  lines : option Z;
  imports : option (list string);
  classes : option (list string);
  structs : option (list string);
  protocols : option (list string);
  code_preview : option string
}.

(** [PointStruct], also the records returned by [scroll]. *)
Record PointStruct (P : Type) : Type := mkPoint {
  id : string;
  vector : Vec;
  payload : P
}.
Arguments mkPoint {P} _ _ _.
Arguments id {P} _.
Arguments vector {P} _.
Arguments payload {P} _.

(** A hit of [query_points]. *)
Record ScoredPoint (P : Type) : Type := mkHit {
  hit_id : string;
  score : Q;
  hit_payload : P
}.
Arguments mkHit {P} _ _ _.
Arguments hit_id {P} _.
Arguments score {P} _.
Arguments hit_payload {P} _.

Inductive PayloadSchemaType : Type := INTEGER | KEYWORD.

Inductive Distance : Type := COSINE | EUCLID | DOT.

Record VectorParams : Type := mkVectorParams {
  size : Z;
  distance : Distance
}.

(** A collection: its vector configuration, its points by id, and its
    payload indexes. *)
Record Collection (P : Type) : Type := mkCollection {
  vectors_config : VectorParams;
  points : gmap string (PointStruct P);
  payload_indexes : list (string * PayloadSchemaType)
}.
Arguments mkCollection {P} _ _ _.
Arguments vectors_config {P} _.
Arguments points {P} _.
Arguments payload_indexes {P} _.

(** [get_collections]: the names of the collections. *)
Definition exists_collection {P} (name : string)
           (db : gmap string (Collection P)) : bool :=
  bool_decide (is_Some (db !! name)).

Definition delete_collection {P} (name : string)
           (db : gmap string (Collection P)) : gmap string (Collection P) :=
  delete name db.

(** [create_collection] is refused when the name is taken. *)
Definition create_collection {P} (name : string) (cfg : VectorParams)
           (db : gmap string (Collection P))
  : option (gmap string (Collection P)) :=
  match db !! name with
  | Some _ => None
  | None => Some (<[name := mkCollection cfg ∅ []]> db)
  end.

(** [create_payload_index] is refused when the collection is missing. *)
Definition create_payload_index {P} (name field : string)
           (schema : PayloadSchemaType) (db : gmap string (Collection P))
  : option (gmap string (Collection P)) :=
  match db !! name with
  | Some c =>
      Some (<[name := mkCollection (vectors_config c) (points c)
                                   (payload_indexes c ++ [(field, schema)])]> db)
  | None => None
  end.

(** The stored effect of a successful [upsert]: insert or overwrite by
    point id, in the order of the batch. *)
Definition upsert_points {P} (pts : list (PointStruct P))
           (m : gmap string (PointStruct P)) : gmap string (PointStruct P) :=
  fold_left (fun acc p => <[id p := p]> acc) pts m.

Definition upsert {P} (name : string) (pts : list (PointStruct P))
           (db : gmap string (Collection P))
  : option (gmap string (Collection P)) :=
  match db !! name with
  | Some c =>
      Some (<[name := mkCollection (vectors_config c)
                                   (upsert_points pts (points c))
                                   (payload_indexes c)]> db)
  | None => None
  end.

(** The points of a collection; none when the collection is missing. *)
Definition stored {P} (name : string) (db : gmap string (Collection P))
  : gmap string (PointStruct P) :=
  match db !! name with
  | Some c => points c
  | None => ∅
  end.

End Qdrant.

(** Counters of both similarity resolvers: [stats = {"created": 0, "skipped": 0}]. *)
Record EdgeStats : Type := mkEdgeStats {
  created : nat;
  skipped : nat
}.

(** What a similarity resolver asks of the two stores, in order. *)
Inductive ResolverCall : Type :=
| QueryPoints (query : Vec) (limit : nat)
| DeleteSimilar
| MergeSimilar (id1 id2 : string) (s : Q).

(** State of a resolution pass: the graph, the counters, the number of
    [query_points] calls made so far, and the calls made. *)
Record Pass : Type := mkPass {
  graph : Neo4j.Graph;
  stats : EdgeStats;
  queries : nat;
  calls : list ResolverCall
}.

(** The edges sent to the graph store, in order. *)
Fixpoint emitted (cs : list ResolverCall) : list (string * string * Q) :=
  match cs with
  | [] => []
  | MergeSimilar a b s :: cs' => (a, b, s) :: emitted cs'
  | _ :: cs' => emitted cs'
  end.

(** The queries sent to the vector index, in order. *)
Fixpoint queried (cs : list ResolverCall) : list (Vec * nat) :=
  match cs with
  | [] => []
  | QueryPoints v n :: cs' => (v, n) :: queried cs'
  | _ :: cs' => queried cs'
  end.

(** ** scripts/similarity_edges.py *)

Module similarity_edges.

Import Neo4j Qdrant.

Definition TOP_K : nat := 5.

Section Resolver.

(** [SIMILARITY_THRESHOLD], read from the environment (default 0.75). *)
Variable SIMILARITY_THRESHOLD : Q.

(** Outcome of the [n]-th call of [qdrant.query_points]: the hits, or
    [None] when the call raises. *)
Variable query_points : nat -> Vec -> nat -> option (list (ScoredPoint PagePayload)).

(** Body of [for hit in results.points].  The MERGE statement sits in
    a [try] whose handler does nothing; the statement is never refused
    by the store as modelled here, so that the handler is not entered. *)
Definition for_hit (notion_id : string) (st : Pass)
           (hit : ScoredPoint PagePayload) : Pass :=
  let similar_id := get (Qdrant.notion_id (hit_payload hit)) "" in
  if String.eqb similar_id notion_id then st
  else if Qltb (score hit) SIMILARITY_THRESHOLD then
    mkPass (graph st)
           (mkEdgeStats (created (stats st)) (S (skipped (stats st))))
           (queries st) (calls st)
  else
    let s := round3 (score hit) in
    let '(g, n) :=
      merge_rel_between Page SIMILAR_TO notion_id similar_id s (graph st) in
    mkPass g
           (mkEdgeStats (if (0 <? n)%nat then S (created (stats st))
                         else created (stats st))
                        (skipped (stats st)))
           (queries st)
           (calls st ++ [MergeSimilar notion_id similar_id s]).

(** Body of [for point in all_points]. *)
Definition for_point (st : Pass) (point : PointStruct PagePayload)
  : Pass * Outcome :=
  let notion_id := get (Qdrant.notion_id (payload point)) "" in
  if negb (str_truthy notion_id) then (st, Returned)
  else
    let st1 := mkPass (graph st) (stats st) (S (queries st))
                      (calls st ++ [QueryPoints (vector point) (TOP_K + 1)]) in
    match query_points (queries st) (vector point) (TOP_K + 1) with
    | None => (st1, Raised)
    | Some hits => (fold_left (for_hit notion_id) hits st1, Returned)
    end.

Fixpoint for_points (st : Pass) (all_points : list (PointStruct PagePayload))
  : Pass * Outcome :=
  match all_points with
  | [] => (st, Returned)
  | point :: rest =>
      match for_point st point with
      | (st', Raised) => (st', Raised)
      | (st', Returned) => for_points st' rest
      end
  end.

(** [create_similarity_edges], from the points fetched by its scroll
    loop: clear the SIMILAR_TO relationships, then resolve every point. *)
Definition create_similarity_edges (g : Graph)
           (all_points : list (PointStruct PagePayload)) : Pass * Outcome :=
  for_points (mkPass (delete_rels SIMILAR_TO g) (mkEdgeStats 0 0) 0
                     [DeleteSimilar])
             all_points.

End Resolver.

Section Scroll.

(** [qdrant.scroll(limit=100, offset=offset, ...)]: a page of points
    and the offset of the next page, or [None] when the call raises. *)
Variable scroll :
  option string -> nat -> option (list (PointStruct PagePayload) * option string).

(** The [while True] loop that fills [all_points], run for at most
    [turns] turns. *)
Fixpoint fetch_points (turns : nat) (offset : option string)
         (all_points : list (PointStruct PagePayload))
  : Loop (list (PointStruct PagePayload)) :=
  match turns with
  | O => Running
  | S turns' =>
      match scroll offset 100%nat with
      | None => Failed
      | Some (points, offset') =>
          let all_points' := (all_points ++ points)%list in
          match offset' with
          | None => Done all_points'
          | Some _ => fetch_points turns' offset' all_points'
          end
      end
  end.

End Scroll.

End similarity_edges.

(** ** scripts/code_graph_builder.py: the similarity resolver *)

Module code_graph_builder.

Import Neo4j Qdrant.

Definition SIMILARITY_THRESHOLD : Q := Qmake 75 100.
Definition TOP_K_SIMILAR : nat := 10.

(** [stats = {"created": 0, "errors": 0, "modules": set()}]. *)
Record CodeNodeStats : Type := mkCodeNodeStats {
  nodes_created : nat;
  nodes_errors : nat;
  modules : gset string
}.

(** The properties set by the MERGE statement of [create_code_nodes]. *)
Definition code_props (p : CodePayload) (module : string) : CodeProps :=
  mkCodeProps (get (file_name p) "") module (get (subpath p) "")
              (get (lines p) 0) (get (imports p) []) (get (classes p) [])
              (get (structs p) []) (get (protocols p) []).

(** Body of [for point in points] in [create_code_nodes].  The one
    integer among the parameters, [lines], is read from a payload of the
    vector index, which holds integers of 64 bits: the driver can send
    it. *)
Definition for_code_node (st : Graph * CodeNodeStats)
           (point : PointStruct CodePayload) : Graph * CodeNodeStats :=
  let '(g, s) := st in
  let p := payload point in
  let module := get (Qdrant.module p) "Unknown" in
  (merge_node CodeFile (get (relative_path p) "")
              (OfCode (code_props p module)) g,
   mkCodeNodeStats (S (nodes_created s)) (nodes_errors s)
                   ({[module]} ∪ modules s)).

Definition create_code_nodes (g : Graph)
           (points : list (PointStruct CodePayload)) : Graph * CodeNodeStats :=
  fold_left for_code_node points (g, mkCodeNodeStats 0 0 ∅).

Section Resolver.

(** Outcome of the [n]-th call of [client.query_points]. *)
Variable query_points : nat -> Vec -> nat -> option (list (ScoredPoint CodePayload)).

(** Body of [for hit in results.points]. *)
Definition for_hit (point_id source_path : string) (st : Pass)
           (hit : ScoredPoint CodePayload) : Pass :=
  if String.eqb (hit_id hit) point_id then st
  else if Qltb (score hit) SIMILARITY_THRESHOLD then
    mkPass (graph st)
           (mkEdgeStats (created (stats st)) (S (skipped (stats st))))
           (queries st) (calls st)
  else
    let target_path := get (relative_path (hit_payload hit)) "" in
    if String.ltb source_path target_path then
      let '(g, n) :=
        merge_rel_between CodeFile SIMILAR_TO source_path target_path
                          (score hit) (graph st) in
      mkPass g
             (mkEdgeStats (if (0 <? n)%nat then S (created (stats st))
                           else created (stats st))
                          (skipped (stats st)))
             (queries st)
             (calls st ++ [MergeSimilar source_path target_path (score hit)])
    else st.

(** Body of [for point in points]: the [try] block, and the handler that
    only prints. *)
Definition for_point (st : Pass) (point : PointStruct CodePayload) : Pass :=
  let st1 := mkPass (graph st) (stats st) (S (queries st))
                    (calls st ++ [QueryPoints (vector point) (TOP_K_SIMILAR + 1)]) in
  match query_points (queries st) (vector point) (TOP_K_SIMILAR + 1) with
  | None => st1
  | Some hits =>
      let source_path := get (relative_path (payload point)) "" in
      fold_left (for_hit (id point) source_path) hits st1
  end.

Definition create_similarity_edges (g : Graph)
           (points : list (PointStruct CodePayload)) : Pass :=
  fold_left for_point points (mkPass g (mkEdgeStats 0 0) 0 []).

End Resolver.

Definition CODE_COLLECTION : string := "kidsnote_ios".

(** [init_qdrant]: the client, or [None] for the ValueError raised when
    the collection is missing. *)
Definition init_qdrant (db : gmap string (Collection CodePayload))
  : option (gmap string (Collection CodePayload)) :=
  if negb (exists_collection CODE_COLLECTION db) then None else Some db.

Section Scroll.

(** [client.scroll(limit=100, offset=offset, ...)]. *)
Variable scroll :
  option string -> nat -> option (list (PointStruct CodePayload) * option string).

(** The [while True] loop of [get_all_code_points], run for at most
    [turns] turns. *)
Fixpoint get_all_code_points_from (turns : nat) (offset : option string)
         (points : list (PointStruct CodePayload))
  : Loop (list (PointStruct CodePayload)) :=
  match turns with
  | O => Running
  | S turns' =>
      match scroll offset 100%nat with
      | None => Failed
      | Some ([], _) => Done points
      | Some (batch, next_offset) =>
          let points' := (points ++ batch)%list in
          match next_offset with
          | None => Done points'
          | Some _ => get_all_code_points_from turns' next_offset points'
          end
      end
  end.

Definition get_all_code_points (turns : nat)
  : Loop (list (PointStruct CodePayload)) :=
  get_all_code_points_from turns None [].

End Scroll.

(** [create_module_nodes]: one MERGE per module of the set, each counted. *)
Definition create_module_nodes (g : Graph) (modules : gset string)
  : Graph * nat :=
  fold_left (fun st module => (merge_node_plain ModuleLabel module (fst st),
                               S (snd st)))
            (elements modules) (g, 0%nat).

(** Body of [for point in points] in [create_belongs_to_relationships]. *)
Definition for_belongs_to (st : Graph * nat) (point : PointStruct CodePayload)
  : Graph * nat :=
  let p := payload point in
  let path := get (relative_path p) "" in
  let module := get (Qdrant.module p) "Unknown" in
  let '(g, n) :=
    merge_plain_rel_between CodeFile path ModuleLabel module BELONGS_TO
                            (fst st) in
  (g, if (0 <? n)%nat then S (snd st) else snd st).

Definition create_belongs_to_relationships (g : Graph)
           (points : list (PointStruct CodePayload)) : Graph * nat :=
  fold_left for_belongs_to points (g, 0%nat).

End code_graph_builder.

(** ** data/pages.json *)

Module pages_json.

(** [page["parent"]] of pages.json. *)
Record Parent : Type := mkParent {
  parent_type : option string;
  parent_page_id : option string;
  parent_database_id : option string
}.

(** A page of pages.json; every key but those read with [page[...]] may
    be absent, and [id] is absent in a malformed record only. *)
Record PageRecord : Type := mkPageRecord {
  page_id : option string;
  page_title : option string;
  page_content : option string;
  page_url : option string;
  page_word_count : option Z;
  page_block_count : option Z;
  page_created_time : option string;
  page_last_edited_time : option string;
  page_parent : option Parent;
  page_links : option (list string);
  page_tags : option (list string)
}.

(** [page.get("parent", {})]. *)
Definition parent_of (page : PageRecord) : Parent :=
  get (page_parent page) (mkParent None None None).

End pages_json.

(** ** scripts/graph_builder.py *)

Module graph_builder.

Import Neo4j pages_json.

(** [a or b] on strings. *)
Definition str_or (a b : string) : string := if str_truthy a then a else b.

(** [stats = {"created": 0, "errors": 0}]. *)
Record NodeStats : Type := mkNodeStats {
  nodes_created : nat;
  nodes_errors : nat
}.

(** The parameters of the CREATE statement other than [id]. *)
Definition page_props (page : PageRecord) : PageProps :=
  mkPageProps (get (page_title page) "Untitled")
              (get (page_url page) "")
              (get (page_word_count page) 0)
              (get (page_block_count page) 0)
              (get (page_created_time page) "")
              (get (page_last_edited_time page) "")
              (str_or (get (parent_page_id (parent_of page)) "")
                      (get (parent_database_id (parent_of page)) ""))
              (get (parent_type (parent_of page)) "").

(** Whether the driver can send the parameters of the CREATE statement
    of a page: [wordCount] and [blockCount] are the integers among them,
    and pages.json may hold any integer. *)
Definition sendable (page : PageRecord) : bool :=
  int64 (get (page_word_count page) 0)
  && int64 (get (page_block_count page) 0).

(** Body of [for page in pages]: the [try] block creates the node and
    counts it; a missing [id] (KeyError), an integer that the driver
    cannot send (OverflowError) or a refused CREATE is counted as an
    error, and the page gets no node. *)
Definition for_page (st : Graph * NodeStats) (page : PageRecord)
  : Graph * NodeStats :=
  let '(g, s) := st in
  match page_id page with
  | None => (g, mkNodeStats (nodes_created s) (S (nodes_errors s)))
  | Some i =>
      if sendable page then
        match create_node Page i (OfPage (page_props page)) g with
        | Some g' => (g', mkNodeStats (S (nodes_created s)) (nodes_errors s))
        | None => (g, mkNodeStats (nodes_created s) (S (nodes_errors s)))
        end
      else (g, mkNodeStats (nodes_created s) (S (nodes_errors s)))
  end.

Definition create_page_nodes (g : Graph) (pages : list PageRecord)
  : Graph * NodeStats :=
  fold_left for_page pages (g, mkNodeStats 0 0).

(** [clear_database]. *)
Definition clear_database (g : Graph) : Graph := detach_delete_all g.

(** [create_constraints], as far as nodes are concerned: the uniqueness
    constraint on [Page.id]; a refusal is printed and otherwise ignored. *)
Definition create_constraints (g : Graph) : Graph :=
  match create_constraint Page g with
  | Some g' => g'
  | None => g
  end.

(** [stats = {"child_of": 0, "links_to": 0, "errors": 0}]. *)
Record RelStats : Type := mkRelStats {
  child_of : nat;
  links_to : nat;
  rel_errors : nat
}.

(** [page_ids = {page["id"] for page in pages}]; [None] for the KeyError
    of a page without [id]. *)
Definition page_ids (pages : list PageRecord) : option (gset string) :=
  list_to_set <$> mapM page_id pages.

(** The CHILD_OF statement of a page, when its parent is a page of the
    export. *)
Definition link_parent (ids : gset string) (i : string) (page : PageRecord)
           (st : Graph * RelStats) : Graph * RelStats :=
  let parent_id := get (parent_page_id (parent_of page)) "" in
  if str_truthy parent_id && bool_decide (parent_id ∈ ids) then
    let '(g, n) := create_rel_between Page CHILD_OF i parent_id (fst st) in
    (g, mkRelStats (if (0 <? n)%nat then S (child_of (snd st))
                    else child_of (snd st))
                   (links_to (snd st)) (rel_errors (snd st)))
  else st.

(** Body of [for link_id in page.get("links", [])]. *)
Definition for_link (ids : gset string) (i : string)
           (st : Graph * RelStats) (link_id : string) : Graph * RelStats :=
  if bool_decide (link_id ∈ ids) then
    let '(g, n) := create_rel_between Page LINKS_TO i link_id (fst st) in
    (g, mkRelStats (child_of (snd st))
                   (if (0 <? n)%nat then S (links_to (snd st))
                    else links_to (snd st))
                   (rel_errors (snd st)))
  else st.

(** Body of [for page in pages] in [create_relationships].  [page["id"]]
    is read when the first statement is built; without it the [try] is
    left for its handler before anything was created. *)
Definition for_page_rels (ids : gset string) (st : Graph * RelStats)
           (page : PageRecord) : Graph * RelStats :=
  match page_id page with
  | Some i =>
      fold_left (for_link ids i) (get (page_links page) [])
                (link_parent ids i page st)
  | None =>
      let parent_id := get (parent_page_id (parent_of page)) "" in
      if (str_truthy parent_id && bool_decide (parent_id ∈ ids))
         || existsb (fun link_id => bool_decide (link_id ∈ ids))
                    (get (page_links page) [])
      then (fst st, mkRelStats (child_of (snd st)) (links_to (snd st))
                               (S (rel_errors (snd st))))
      else st
  end.

(** [create_relationships]; [None] when building [page_ids] raises. *)
Definition create_relationships (g : Graph) (pages : list PageRecord)
  : option (Graph * RelStats) :=
  match page_ids pages with
  | Some ids => Some (fold_left (for_page_rels ids) pages (g, mkRelStats 0 0 0))
  | None => None
  end.

End graph_builder.

(** ** What both embedding scripts share with the outside *)

(** The arguments of [model.encode]. *)
Record EncodeRequest : Type := mkEncode {
  sentences : list string;
  batch_size : nat;
  max_length : nat;
  return_dense : bool;
  return_sparse : bool;
  return_colbert_vecs : bool
}.

(** What an embedding run asks of the model, the vector index and the
    clock, in order. *)
Inductive WriterCall (P : Type) : Type :=
| Encode (r : EncodeRequest)
| Upsert (collection : string) (pts : list (Qdrant.PointStruct P))
| Sleep (seconds : nat).
Arguments Encode {P} _.
Arguments Upsert {P} _ _.
Arguments Sleep {P} _.

(** State of an embedding run: the counters [T], the [points] buffer, the
    vector index, the numbers of [encode] and [upsert] calls made so far,
    and the calls made. *)
Record Run (T P : Type) : Type := mkRun {
  run_stats : T;
  run_points : list (Qdrant.PointStruct P);
  run_db : gmap string (Qdrant.Collection P);
  run_encodes : nat;
  run_upserts : nat;
  run_log : list (WriterCall P)
}.
Arguments mkRun {T P} _ _ _ _ _ _.
Arguments run_stats {T P} _.
Arguments run_points {T P} _.
Arguments run_db {T P} _.
Arguments run_encodes {T P} _.
Arguments run_upserts {T P} _.
Arguments run_log {T P} _.

Definition with_stats {T P} (f : T -> T) (st : Run T P) : Run T P :=
  mkRun (f (run_stats st)) (run_points st) (run_db st) (run_encodes st)
        (run_upserts st) (run_log st).

Definition with_points {T P} (pts : list (Qdrant.PointStruct P))
           (st : Run T P) : Run T P :=
  mkRun (run_stats st) pts (run_db st) (run_encodes st) (run_upserts st)
        (run_log st).

Definition logged {T P} (c : WriterCall P) (st : Run T P) : Run T P :=
  mkRun (run_stats st) (run_points st) (run_db st) (run_encodes st)
        (run_upserts st) (run_log st ++ [c]).

(** [client.upsert(collection_name=name, points=points)] on the buffer: the
    call is logged; it succeeds when the oracle lets the [n]-th upsert
    through and the collection exists.  The buffer itself is not touched. *)
Definition client_upsert {T P} (upsert_ok : nat -> bool) (name : string)
           (st : Run T P) : Run T P * bool :=
  let st1 := mkRun (run_stats st) (run_points st) (run_db st) (run_encodes st)
                   (S (run_upserts st))
                   (run_log st ++ [Upsert name (run_points st)]) in
  if upsert_ok (run_upserts st) then
    match Qdrant.upsert name (run_points st) (run_db st) with
    | Some db' =>
        (mkRun (run_stats st1) (run_points st1) db' (run_encodes st1)
               (run_upserts st1) (run_log st1), true)
    | None => (st1, false)
    end
  else (st1, false).

(** [range(0, stop, step)] for a positive step. *)
Definition py_range (stop step : nat) : list nat :=
  List.map (fun k => (k * step)%nat) (seq 0 ((stop + step - 1) / step)%nat).

(** [c.isspace()] for a character below 256. *)
Definition isspace (c : ascii) : bool :=
  let n := nat_of_ascii c in
  ((9 <=? n) && (n <=? 13) || (28 <=? n) && (n <=? 32)
   || (n =? 133) || (n =? 160))%nat.

(** Truthiness of [text.strip()]. *)
Definition strip_truthy (text : string) : bool :=
  existsb (fun c => negb (isspace c)) (list_ascii_of_string text).

(** [text[:n]]. *)
Definition prefix (n : nat) (text : string) : string := substring 0 n text.

Definition newline : string := String (ascii_of_nat 10) EmptyString.

(** ** scripts/vector_store.py *)

Module vector_store.

Import Qdrant pages_json.

Definition BATCH_SIZE : nat := 4.
Definition MAX_TEXT_LENGTH : nat := 2048.
Definition UPSERT_BATCH_SIZE : nat := 10.

(** [stats] of [process_pages]. *)
Record Stats : Type := mkStats {
  total : nat;
  processed : nat;
  skipped_empty : nat;
  errors : nat
}.

Definition add_processed (s : Stats) : Stats :=
  mkStats (total s) (S (processed s)) (skipped_empty s) (errors s).

Definition add_errors (n : nat) (s : Stats) : Stats :=
  mkStats (total s) (processed s) (skipped_empty s) (errors s + n).

Section Pipeline.

(** [QDRANT_COLLECTION] and [VECTOR_DIM], read from the environment. *)
Variable COLLECTION_NAME : string.
Variable VECTOR_DIM : Z.

(** Outcome of the [n]-th call of [model.encode]: the dense vectors,
    or [None] when the call raises. *)
Variable encode : nat -> EncodeRequest -> option (list Vec).

(** Whether the [n]-th call of [client.upsert] gets through. *)
Variable upsert_ok : nat -> bool.

(** Python's [str(uuid.UUID(hex))]; [None] when it raises ValueError. *)
Variable UUID : string -> option string.

Definition init_qdrant (db : gmap string (Collection PagePayload))
  : option (gmap string (Collection PagePayload)) :=
  let db1 := if exists_collection COLLECTION_NAME db
             then delete_collection COLLECTION_NAME db else db in
  match create_collection COLLECTION_NAME
                          (mkVectorParams VECTOR_DIM COSINE) db1 with
  | Some db2 => create_payload_index COLLECTION_NAME "word_count" INTEGER db2
  | None => None
  end.

Definition prepare_text_for_embedding (page : PageRecord) : string :=
  let title := get (page_title page) "" in
  let content := get (page_content page) "" in
  let text := if str_truthy content
              then title ++ newline ++ newline ++ content else title in
  let max_chars := (MAX_TEXT_LENGTH * 2)%nat in
  if (max_chars <? String.length text)%nat then prefix max_chars text
  else text.

Definition embed_batch (n : nat) (texts : list string) : option (list Vec) :=
  encode n (mkEncode texts (length texts) MAX_TEXT_LENGTH true false false).

(** [str.replace("-", "")]. *)
Fixpoint remove_hyphens (s : string) : string :=
  match s with
  | EmptyString => EmptyString
  | String c s' =>
      if Ascii.eqb c "-"%char then remove_hyphens s'
      else String c (remove_hyphens s')
  end.

Definition notion_id_to_uuid (notion_id : string) : option string :=
  UUID (remove_hyphens notion_id).

(** The [PointStruct] built for a page; [None] when [page["id"]] or
    [notion_id_to_uuid] raises. *)
Definition make_point (page : PageRecord) (vector : Vec)
  : option (PointStruct PagePayload) :=
  match page_id page with
  | None => None
  | Some i =>
      match notion_id_to_uuid i with
      | None => None
      | Some u =>
          Some (mkPoint u vector
                 (mkPagePayload
                    (Some i)
                    (Some (get (page_title page) ""))
                    (Some (get (page_created_time page) ""))
                    (Some (get (page_last_edited_time page) ""))
                    (Some (get (page_url page) ""))
                    (Some (get (page_word_count page) 0))
                    (Some (get (page_block_count page) 0))
                    (Some (get (parent_page_id (parent_of page)) ""))
                    (Some (prefix 500 (get (page_content page) "")))
                    (Some (get (page_tags page) []))))
      end
  end.

(** The filter in front of the loop: pages with text, and the number
    of pages without. *)
Definition for_page (acc : list (PageRecord * string) * nat)
           (page : PageRecord) : list (PageRecord * string) * nat :=
  let text := prepare_text_for_embedding page in
  if strip_truthy text then ((fst acc ++ [(page, text)])%list, snd acc)
  else (fst acc, S (snd acc)).

Definition select_pages (pages : list PageRecord)
  : list (PageRecord * string) * nat :=
  fold_left for_page pages ([], 0%nat).

Local Abbreviation State := (Run Stats PagePayload).

(** [for page, vector in zip(batch_pages, vectors)]; [false] when an
    exception leaves the loop. *)
Fixpoint append_points (st : State) (zipped : list (PageRecord * Vec))
  : State * bool :=
  match zipped with
  | [] => (st, true)
  | (page, vector) :: rest =>
      match make_point page vector with
      | None => (st, false)
      | Some point =>
          append_points
            (with_stats add_processed
                        (with_points (run_points st ++ [point]) st))
            rest
      end
  end.

(** The [try] block of one batch; [false] when it raises. *)
Definition try_embed (st : State) (batch : list (PageRecord * string))
  : State * bool :=
  let batch_pages := List.map fst batch in
  let batch_texts := List.map snd batch in
  let st1 := mkRun (run_stats st) (run_points st) (run_db st)
                   (S (run_encodes st)) (run_upserts st)
                   (run_log st ++ [Encode (mkEncode batch_texts
                                             (length batch_texts)
                                             MAX_TEXT_LENGTH true false false)]) in
  match embed_batch (run_encodes st) batch_texts with
  | None => (st1, false)
  | Some vectors => append_points st1 (combine batch_pages vectors)
  end.

(** The upsert inside the loop, with its single retry. *)
Definition flush (st : State) : State :=
  match client_upsert upsert_ok COLLECTION_NAME st with
  | (st1, true) => with_points [] st1
  | (st1, false) =>
      match client_upsert upsert_ok COLLECTION_NAME (logged (Sleep 2) st1) with
      | (st2, true) => with_points [] st2
      | (st2, false) =>
          with_points [] (with_stats (add_errors (length (run_points st2))) st2)
      end
  end.

(** Body of [for i in range(0, len(valid_pages), BATCH_SIZE)]. *)
Definition for_batch (valid_pages : list (PageRecord * string))
           (st : State) (i : nat) : State :=
  let batch := take BATCH_SIZE (drop i valid_pages) in
  match try_embed st batch with
  | (st1, false) => with_stats (add_errors BATCH_SIZE) st1
  | (st1, true) =>
      if (UPSERT_BATCH_SIZE <=? length (run_points st1))%nat then flush st1
      else st1
  end.

(** The upsert of what is left after the loop. *)
Definition flush_rest (st : State) : State * Outcome :=
  match run_points st with
  | [] => (st, Returned)
  | _ :: _ =>
      match client_upsert upsert_ok COLLECTION_NAME st with
      | (st1, true) => (st1, Returned)
      | (st1, false) => (st1, Raised)
      end
  end.

Definition process_pages (pages : list PageRecord)
           (db : gmap string (Collection PagePayload)) : State * Outcome :=
  let '(valid_pages, skipped) := select_pages pages in
  let st0 := mkRun (mkStats (length pages) 0 skipped 0) [] db 0%nat 0%nat [] in
  flush_rest (fold_left (for_batch valid_pages)
                        (py_range (length valid_pages) BATCH_SIZE) st0).

(** [main], from the loaded pages to the statistics: the index is
    initialised, then the pages are processed. *)
Definition main (pages : list PageRecord)
           (db : gmap string (Collection PagePayload))
  : option (State * Outcome) :=
  match init_qdrant db with
  | Some db' => Some (process_pages pages db')
  | None => None
  end.

End Pipeline.

End vector_store.

(** ** scripts/code_embedder.py *)

Module code_embedder.

Import Qdrant.

Definition COLLECTION_NAME : string := "kidsnote_ios".
Definition VECTOR_DIM : Z := 1024.
Definition BATCH_SIZE : nat := 4.
Definition MAX_TEXT_LENGTH : nat := 4096.
Definition MAX_CHARS : nat := 8000.
Definition UPSERT_BATCH_SIZE : nat := 20.

(** A Swift file found under the source directory: the parts of its path
    relative to that directory, and what [read_text] gives ([None] when
    it raises). *)
Record SwiftFile : Type := mkSwiftFile {
  parts : list string;
  read_text : option string
}.

(** The dictionary returned by [extract_swift_info]. *)
Record SwiftInfo : Type := mkSwiftInfo {
  si_imports : list string;
  si_classes : list string;
  si_structs : list string;
  si_enums : list string;
  si_protocols : list string;
  si_extensions : list string;
  si_functions : list string
}.

(** [metadata] after [metadata.update(swift_info)]. *)
Record Metadata : Type := mkMetadata {
  md_file_name : string;
  md_module : string;
  md_subpath : string;
  md_relative_path : string;
  md_extension : string;
  md_info : SwiftInfo
}.

(** [stats] of [process_files]. *)
Record Stats : Type := mkStats {
  total : nat;
  processed : nat;
  skipped_empty : nat;
  errors : nat;
  modules : gset string
}.

Definition add_processed (s : Stats) : Stats :=
  mkStats (total s) (S (processed s)) (skipped_empty s) (errors s) (modules s).

Definition add_errors (n : nat) (s : Stats) : Stats :=
  mkStats (total s) (processed s) (skipped_empty s) (errors s + n) (modules s).

Definition add_skipped (s : Stats) : Stats :=
  mkStats (total s) (processed s) (S (skipped_empty s)) (errors s) (modules s).

Definition add_module (m : string) (s : Stats) : Stats :=
  mkStats (total s) (processed s) (skipped_empty s) (errors s)
          ({[m]} ∪ modules s).

(** [str(path)] of a relative path. *)
Definition path_str (ps : list string) : string :=
  match ps with
  | [] => "."
  | _ => String.concat "/" ps
  end.

(** Position of the last ['.'] of a name, counted from [i]. *)
Fixpoint rfind_dot (i : nat) (s : string) : option nat :=
  match s with
  | EmptyString => None
  | String c s' =>
      match rfind_dot (S i) s' with
      | Some j => Some j
      | None => if Ascii.eqb c "."%char then Some i else None
      end
  end.

(** [PurePath.suffix] of a file name. *)
Definition suffix (name : string) : string :=
  match rfind_dot 0 name with
  | Some i =>
      if ((0 <? i) && (i <? String.length name - 1))%nat
      then substring i (String.length name - i) name
      else ""
  | None => ""
  end.

(** [parts[1:-1]]. *)
Definition inner_parts (ps : list string) : list string :=
  removelast (drop 1 ps).

Definition extract_metadata (ps : list string) (info : SwiftInfo) : Metadata :=
  let name := List.last ps "" in
  mkMetadata name
             (match ps with
              | m :: _ :: _ => m
              | _ => "Root"
              end)
             (if (2 <? length ps)%nat then String.concat "/" (inner_parts ps)
              else "")
             (path_str ps)
             (suffix name)
             info.

Definition prepare_code_for_embedding (content : string) (metadata : Metadata)
  : string :=
  let header := "File: " ++ md_file_name metadata ++ newline
                ++ "Module: " ++ md_module metadata ++ newline ++ newline in
  let text := header ++ content in
  if (MAX_CHARS <? String.length text)%nat then prefix MAX_CHARS text
  else text.

(** [len(content.splitlines())] for characters below 256: a line ends at
    LF, VT, FF, FS, GS, RS, NEL, or at CR (CR LF counting once). *)
Definition is_line_end (c : ascii) : bool :=
  let n := nat_of_ascii c in
  ((n =? 10) || (n =? 11) || (n =? 12) || (n =? 28) || (n =? 29)
   || (n =? 30) || (n =? 133))%nat.

Fixpoint count_lines (open : bool) (s : string) : nat :=
  match s with
  | EmptyString => if open then 1%nat else 0%nat
  | String c s' =>
      if (nat_of_ascii c =? 13)%nat then
        match s' with
        | String c' s'' =>
            if (nat_of_ascii c' =? 10)%nat then S (count_lines false s'')
            else S (count_lines false s')
        | EmptyString => 1%nat
        end
      else if is_line_end c then S (count_lines false s')
      else count_lines true s'
  end.

Section Pipeline.

(** Outcome of the [n]-th call of [model.encode]. *)
Variable encode : nat -> EncodeRequest -> option (list Vec).

(** Whether the [n]-th call of [client.upsert] gets through. *)
Variable upsert_ok : nat -> bool.

(** [hashlib.md5(s.encode()).hexdigest()]. *)
Variable md5_hexdigest : string -> string.

(** The regular-expression scan of [extract_swift_info]. *)
Variable extract_swift_info : string -> SwiftInfo.

Definition file_to_uuid (file_path : string) : string :=
  let h := md5_hexdigest file_path in
  substring 0 8 h ++ "-" ++ substring 8 4 h ++ "-" ++ substring 12 4 h
  ++ "-" ++ substring 16 4 h ++ "-" ++ substring 20 12 h.

Definition init_qdrant (recreate : bool)
           (db : gmap string (Collection CodePayload))
  : option (gmap string (Collection CodePayload)) :=
  let create db1 :=
    match create_collection COLLECTION_NAME
                            (mkVectorParams VECTOR_DIM COSINE) db1 with
    | Some db2 =>
        match create_payload_index COLLECTION_NAME "module" KEYWORD db2 with
        | Some db3 => create_payload_index COLLECTION_NAME "lines" INTEGER db3
        | None => None
        end
    | None => None
    end in
  if exists_collection COLLECTION_NAME db then
    if recreate then create (delete_collection COLLECTION_NAME db)
    else Some db
  else create db.

Definition embed_batch (n : nat) (texts : list string) : option (list Vec) :=
  encode n (mkEncode texts (length texts) MAX_TEXT_LENGTH true false false).

(** An element of [valid_files]: the file, its content, its metadata
    and the text to embed. *)
Definition Prepared : Type := SwiftFile * string * Metadata * string.

(** Body of [for file_path in files]. *)
Definition for_file (acc : list Prepared * Stats) (file : SwiftFile)
  : list Prepared * Stats :=
  let '(valid_files, stats) := acc in
  match read_text file with
  | None => (valid_files, add_errors 1 stats)
  | Some content =>
      if negb (strip_truthy content) then (valid_files, add_skipped stats)
      else
        let metadata :=
          extract_metadata (parts file) (extract_swift_info content) in
        let text := prepare_code_for_embedding content metadata in
        ((valid_files ++ [(file, content, metadata, text)])%list,
         add_module (md_module metadata) stats)
  end.

Definition make_point (item : Prepared) (vector : Vec)
  : PointStruct CodePayload :=
  let '(file, content, metadata, _) := item in
  mkPoint (file_to_uuid (path_str (parts file))) vector
          (mkCodePayload
             (Some (md_file_name metadata))
             (Some (md_module metadata))
             (Some (md_subpath metadata))
             (Some (md_relative_path metadata))
             (Some (Z.of_nat (count_lines false content)))
             (Some (si_imports (md_info metadata)))
             (Some (si_classes (md_info metadata)))
             (Some (si_structs (md_info metadata)))
             (Some (si_protocols (md_info metadata)))
             (Some (prefix 1000 content))).

Local Abbreviation State := (Run Stats CodePayload).

(** [for (...), vector in zip(batch, vectors)]. *)
Definition append_points (st : State) (zipped : list (Prepared * Vec))
  : State :=
  fold_left (fun acc '(item, vector) =>
               with_stats add_processed
                 (with_points (run_points acc ++ [make_point item vector]) acc))
            zipped st.

(** The [try] block of one batch; [false] when it raises. *)
Definition try_embed (st : State) (batch : list Prepared) : State * bool :=
  let batch_texts := List.map snd batch in
  let st1 := mkRun (run_stats st) (run_points st) (run_db st)
                   (S (run_encodes st)) (run_upserts st)
                   (run_log st ++ [Encode (mkEncode batch_texts
                                             (length batch_texts)
                                             MAX_TEXT_LENGTH true false false)]) in
  match embed_batch (run_encodes st) batch_texts with
  | None => (st1, false)
  | Some vectors => (append_points st1 (combine batch vectors), true)
  end.

(** The upsert inside the loop. *)
Definition flush (st : State) : State :=
  match client_upsert upsert_ok COLLECTION_NAME st with
  | (st1, true) => with_points [] st1
  | (st1, false) =>
      with_points [] (with_stats (add_errors (length (run_points st1))) st1)
  end.

(** Body of [for i in range(0, len(valid_files), BATCH_SIZE)]. *)
Definition for_batch (valid_files : list Prepared) (st : State) (i : nat)
  : State :=
  let batch := take BATCH_SIZE (drop i valid_files) in
  match try_embed st batch with
  | (st1, false) => with_stats (add_errors BATCH_SIZE) st1
  | (st1, true) =>
      if (UPSERT_BATCH_SIZE <=? length (run_points st1))%nat then flush st1
      else st1
  end.

(** The upsert of what is left after the loop. *)
Definition flush_rest (st : State) : State * Outcome :=
  match run_points st with
  | [] => (st, Returned)
  | _ :: _ =>
      match client_upsert upsert_ok COLLECTION_NAME st with
      | (st1, true) => (st1, Returned)
      | (st1, false) => (st1, Raised)
      end
  end.

(** [process_files]; the returned [modules] is this set, sorted. *)
Definition process_files (files : list SwiftFile)
           (db : gmap string (Collection CodePayload)) : State * Outcome :=
  let '(valid_files, stats) :=
    fold_left for_file files
              ([], mkStats (length files) 0 0 0 ∅) in
  let st0 := mkRun stats [] db 0%nat 0%nat [] in
  flush_rest (fold_left (for_batch valid_files)
                        (py_range (length valid_files) BATCH_SIZE) st0).

(** [main], from the files found to the statistics; nothing is done
    when no file was found. *)
Definition main (files : list SwiftFile)
           (db : gmap string (Collection CodePayload))
  : option (option (State * Outcome)) :=
  match files with
  | [] => Some None
  | _ :: _ =>
      match init_qdrant true db with
      | Some db' => Some (Some (process_files files db'))
      | None => None
      end
  end.

End Pipeline.

End code_embedder.

(** ** scripts/notion_exporter.py *)

Module notion_exporter.

(** An item of a [rich_text] or [title] array, as far as it is read:
    [type], [plain_text], and for a mention [mention["type"]] and
    [mention["page"]["id"]]. *)
Record RichText : Type := mkRichText {
  rt_type : option string;
  rt_plain_text : option string;
  rt_mention_type : option string;
  rt_mention_page_id : option string
}.

(** The value a block holds under the key named by its type, as far as
    it is read: [rich_text], and for a [link_to_page] block [type] and
    [page_id]. *)
Record Content : Type := mkContent {
  rich_text : option (list RichText);
  link_type : option string;
  link_page_id : option string
}.

Record Block : Type := mkBlock {
  block_type : option string;
  block_content : option Content
}.

(** [block.get(block_type, {})]. *)
Definition content_of (block : Block) : Content :=
  get (block_content block) (mkContent None None None).

(** ["".join([t.get("plain_text", "") for t in rich_text])]. *)
Definition plain (rich : list RichText) : string :=
  String.concat "" (List.map (fun t => get (rt_plain_text t) "") rich).

Definition text_block_types : list string :=
  ["paragraph"; "heading_1"; "heading_2"; "heading_3"; "bulleted_list_item";
   "numbered_list_item"; "to_do"; "toggle"; "quote"; "callout"].

Definition fence : string := "```".

(** What one block appends to [text_parts]. *)
Definition text_parts_of (block : Block) : list string :=
  let type := get (block_type block) "" in
  let text := plain (get (rich_text (content_of block)) []) in
  if existsb (String.eqb type) text_block_types then
    if str_truthy text then [text] else []
  else if String.eqb type "code" then
    if str_truthy text then [fence ++ newline ++ text ++ newline ++ fence]
    else []
  else [].

Definition blocks_to_text (blocks : list Block) : string :=
  String.concat newline (flat_map text_parts_of blocks).

(** What one item of [rich_text] appends to [links]. *)
Definition mention_of (item : RichText) : list (option string) :=
  if bool_decide (rt_type item = Some "mention") then
    if bool_decide (rt_mention_type item = Some "page") then
      match rt_mention_page_id item with
      | Some page_id => if str_truthy page_id then [Some page_id] else []
      | None => []
      end
    else []
  else [].

(** What one block appends to [links]; a [link_to_page] block of type
    [page_id] appends [link_content.get("page_id")], be it [None]. *)
Definition links_of (block : Block) : list (option string) :=
  (flat_map mention_of (get (rich_text (content_of block)) [])
   ++ (if String.eqb (get (block_type block) "") "link_to_page" then
         if bool_decide (link_type (content_of block) = Some "page_id")
         then [link_page_id (content_of block)] else []
       else []))%list.

(** [list(set(links))]: the links without repetition, in the order of
    the set. *)
Definition extract_links (blocks : list Block) : list (option string) :=
  elements (list_to_set (flat_map links_of blocks) : gset (option string)).

(** A property of a page, as far as it is read: [type] and [title]. *)
Record Property : Type := mkProperty {
  prop_type : option string;
  prop_title : option (list RichText)
}.

(** The title that a property gives: it is of type [title] and its
    title array is not empty. *)
Definition title_of (value : Property) : option string :=
  if bool_decide (prop_type value = Some "title") then
    match get (prop_title value) [] with
    | [] => None
    | title_arr => Some (plain title_arr)
    end
  else None.

(** The loop over [props.items()], which returns at the first title. *)
Fixpoint first_title (props : list (string * Property)) : option string :=
  match props with
  | [] => None
  | (_, value) :: rest =>
      match title_of value with
      | Some t => Some t
      | None => first_title rest
      end
  end.

(** [props[key]] on the properties in the order of the dictionary. *)
Fixpoint lookup_prop (key : string) (props : list (string * Property))
  : option Property :=
  match props with
  | [] => None
  | (k, value) :: rest =>
      if String.eqb k key then Some value else lookup_prop key rest
  end.

(** [extract_title], on [page.get("properties", {})]. *)
Definition extract_title (props : list (string * Property)) : string :=
  match first_title props with
  | Some t => t
  | None =>
      match lookup_prop "Name" props with
      | Some value =>
          match title_of value with
          | Some t => t
          | None => "Untitled"
          end
      | None => "Untitled"
      end
  end.

(** [extract_db_title], on [db.get("title", [])]. *)
Definition extract_db_title (title_arr : list RichText) : string :=
  match title_arr with
  | [] => "Untitled Database"
  | _ => plain title_arr
  end.

End notion_exporter.

(** ** Notions used to state the properties *)

(** The hits of a page query that are left once the pivot itself has been
    recognised by its [notion_id]. *)
Definition page_candidates (notion_id : string)
           (hits : list (Qdrant.ScoredPoint Qdrant.PagePayload))
  : list (Qdrant.ScoredPoint Qdrant.PagePayload) :=
  List.filter
    (fun h => negb (String.eqb (get (Qdrant.notion_id (Qdrant.hit_payload h)) "")
                               notion_id))
    hits.

(** The hits of a code query that are left once the pivot itself has been
    recognised by its point id. *)
Definition code_candidates (point_id : string)
           (hits : list (Qdrant.ScoredPoint Qdrant.CodePayload))
  : list (Qdrant.ScoredPoint Qdrant.CodePayload) :=
  List.filter (fun h => negb (String.eqb (Qdrant.hit_id h) point_id)) hits.

(** A SIMILAR_TO relationship of a graph, read as an edge between keys. *)
Definition similar_edge (g : Neo4j.Graph) (a b : string) (s : Q) : Prop :=
  exists r, In r (Neo4j.rels g)
            /\ Neo4j.rel_type r = Neo4j.SIMILAR_TO
            /\ Neo4j.key_at g (Neo4j.rel_src r) = Some a
            /\ Neo4j.key_at g (Neo4j.rel_dst r) = Some b
            /\ Neo4j.rel_score r = Some s.

(** What resolving one hit adds to the call log of the page resolver. *)
Definition page_hit_calls (threshold : Q) (notion_id : string)
           (hit : Qdrant.ScoredPoint Qdrant.PagePayload) : list ResolverCall :=
  let similar_id := get (Qdrant.notion_id (Qdrant.hit_payload hit)) "" in
  if String.eqb similar_id notion_id then []
  else if Qltb (Qdrant.score hit) threshold then []
  else [MergeSimilar notion_id similar_id (round3 (Qdrant.score hit))].

(** What resolving one hit adds to the call log of the code resolver. *)
Definition code_hit_calls (point_id source_path : string)
           (hit : Qdrant.ScoredPoint Qdrant.CodePayload) : list ResolverCall :=
  let target_path := get (Qdrant.relative_path (Qdrant.hit_payload hit)) "" in
  if String.eqb (Qdrant.hit_id hit) point_id then []
  else if Qltb (Qdrant.score hit) code_graph_builder.SIMILARITY_THRESHOLD then []
  else if String.ltb source_path target_path
       then [MergeSimilar source_path target_path (Qdrant.score hit)]
       else [].

(** Every SIMILAR_TO relationship of the graph carries the endpoints and
    the score of an edge sent during the pass. *)
Definition all_similar_emitted (st : Pass) : Prop :=
  forall r, In r (Neo4j.rels (graph st)) ->
            Neo4j.rel_type r = Neo4j.SIMILAR_TO ->
            exists a b s,
              In (a, b, s) (emitted (calls st))
              /\ Neo4j.key_at (graph st) (Neo4j.rel_src r) = Some a
              /\ Neo4j.key_at (graph st) (Neo4j.rel_dst r) = Some b
              /\ Neo4j.rel_score r = Some s.

(** Between two states of a pass one query [(v, limit)] was sent, and at
    most [n] edges. *)
Definition one_query_at_most (st st' : Pass) (v : Vec) (limit n : nat) : Prop :=
  queried (calls st') = (queried (calls st) ++ [(v, limit)])%list
  /\ exists new, emitted (calls st') = (emitted (calls st) ++ new)%list
                 /\ (length new <= n)%nat.


(** Following the spec's words for the Graph Materializer, "merge
    (create-if-absent-else-match) semantics keyed by the node's unique
    external id", with the attributes refreshed: what materializing one
    page would be. *)
Definition materialize_by_merge (g : Neo4j.Graph)
           (page : pages_json.PageRecord) : Neo4j.Graph :=
  match pages_json.page_id page with
  | Some i =>
      Neo4j.merge_node Neo4j.Page i
                       (Neo4j.OfPage (graph_builder.page_props page)) g
  | None => g
  end.

(** The requests sent to the embedding model, in order. *)
Fixpoint encoded {P} (log : list (WriterCall P)) : list EncodeRequest :=
  match log with
  | [] => []
  | Encode r :: log' => r :: encoded log'
  | _ :: log' => encoded log'
  end.

(** The points handed to [upsert], call after call. *)
Fixpoint upserted {P} (log : list (WriterCall P)) : list (Qdrant.PointStruct P) :=
  match log with
  | [] => []
  | Upsert _ pts :: log' => (pts ++ upserted log')%list
  | _ :: log' => upserted log'
  end.

(** Every point stored in a collection was handed to [upsert] during the
    run. *)
Definition only_logged {T P} (name : string) (st : Run T P) : Prop :=
  forall i p, Qdrant.stored name (run_db st) !! i = Some p ->
              exists pts, In (Upsert name pts) (run_log st) /\ In p pts.

(** *** The batches of [vector_store.process_pages] *)

(** The batch that starts at index [i]. *)
Definition batch_at (valid_pages : list (pages_json.PageRecord * string))
           (i : nat) : list (pages_json.PageRecord * string) :=
  take vector_store.BATCH_SIZE (drop i valid_pages).

(** The request [embed_batch] sends for a batch. *)
Definition request_of (batch : list (pages_json.PageRecord * string))
  : EncodeRequest :=
  mkEncode (List.map snd batch) (length (List.map snd batch))
           vector_store.MAX_TEXT_LENGTH true false false.

(** Whether the model call for the batch that starts at [i] succeeds; it is
    call number [i / BATCH_SIZE] of the run. *)
Definition embedded_ok (encode : nat -> EncodeRequest -> option (list Vec))
           (valid_pages : list (pages_json.PageRecord * string)) (i : nat) : bool :=
  match encode (i / vector_store.BATCH_SIZE)%nat
               (request_of (batch_at valid_pages i)) with
  | Some _ => true
  | None => false
  end.


Definition dropped (encode : nat -> EncodeRequest -> option (list Vec))
           (valid_pages : list (pages_json.PageRecord * string))
  : list (pages_json.PageRecord * string) :=
  flat_map (fun i => if embedded_ok encode valid_pages i
                     then [] else batch_at valid_pages i)
           (py_range (length valid_pages) vector_store.BATCH_SIZE).


(** The id of a page is there and is accepted by [uuid.UUID]. *)
Definition has_uuid (UUID : string -> option string)
           (pt : pages_json.PageRecord * string) : Prop :=
  exists i u, pages_json.page_id (fst pt) = Some i
              /\ UUID (vector_store.remove_hyphens i) = Some u.

(** *** The pages of a scroll *)

(** Asked from [offset] on, the index serves [batches] one after the
    other, and tells with the last one that nothing is left. *)
Inductive served {P : Type}
          (scroll : option string -> nat
                    -> option (list (Qdrant.PointStruct P) * option string))
  : option string -> list (list (Qdrant.PointStruct P)) -> Prop :=
| served_last offset batch :
    scroll offset 100%nat = Some (batch, None) ->
    served scroll offset [batch]
| served_next offset batch next rest :
    scroll offset 100%nat = Some (batch, Some next) ->
    served scroll (Some next) rest ->
    served scroll offset (batch :: rest).

(** The batches in front of the first empty one. *)
Fixpoint until_empty {A : Type} (batches : list (list A)) : list (list A) :=
  match batches with
  | [] => []
  | [] :: _ => []
  | batch :: rest => batch :: until_empty rest
  end.

(** *** Relationships between pages *)

(** A relationship of type [t] from the page [a] to the page [b], without
    a score. *)
Definition page_link (g : Neo4j.Graph) (t : Neo4j.RelType) (r : Neo4j.Rel)
           (a b : string) : Prop :=
  Neo4j.rel_type r = t
  /\ Neo4j.rel_score r = None
  /\ Neo4j.key_at g (Neo4j.rel_src r) = Some a
  /\ Neo4j.key_at g (Neo4j.rel_dst r) = Some b.

(** The ids of the pages of an export that carry one. *)
Definition ids_of (pages : list pages_json.PageRecord) : list string :=
  omap pages_json.page_id pages.

(** Number of relationships of a type. *)
Definition count_rels (t : Neo4j.RelType) (rs : list Neo4j.Rel) : nat :=
  length (List.filter
            (fun r => @bool_decide _ (Neo4j.RelType_eq_dec (Neo4j.rel_type r) t))
            rs).

(** A relationship that the export asks for: from a page of the export to
    the page of the export that is its parent (CHILD_OF) or one of its
    links (LINKS_TO), without a score. *)
Definition export_link (pages : list pages_json.PageRecord) (g : Neo4j.Graph)
           (r : Neo4j.Rel) : Prop :=
  exists p q a b,
    In p pages /\ In q pages
    /\ pages_json.page_id p = Some a /\ pages_json.page_id q = Some b
    /\ Neo4j.key_at g (Neo4j.rel_src r) = Some a
    /\ Neo4j.key_at g (Neo4j.rel_dst r) = Some b
    /\ Neo4j.rel_score r = None
    /\ ((Neo4j.rel_type r = Neo4j.CHILD_OF
         /\ pages_json.parent_page_id (pages_json.parent_of p) = Some b)
        \/ (Neo4j.rel_type r = Neo4j.LINKS_TO
            /\ In b (get (pages_json.page_links p) []))).

(** What [create_relationships] has done to the graph [g0] so far: it has
    added relationships that the export asks for, counted at most once
    each, and no error. *)
Definition links_so_far (pages : list pages_json.PageRecord) (g0 : Neo4j.Graph)
           (st : Neo4j.Graph * graph_builder.RelStats) : Prop :=
  Neo4j.nodes (fst st) = Neo4j.nodes g0
  /\ Neo4j.unique_on (fst st) = Neo4j.unique_on g0
  /\ graph_builder.rel_errors (snd st) = 0%nat
  /\ exists new,
      Neo4j.rels (fst st) = (Neo4j.rels g0 ++ new)%list
      /\ Forall (export_link pages g0) new
      /\ (graph_builder.child_of (snd st) <= count_rels Neo4j.CHILD_OF new)%nat
      /\ (graph_builder.links_to (snd st) <= count_rels Neo4j.LINKS_TO new)%nat
      /\ (NoDup (Neo4j.keys_of Neo4j.Page g0) ->
          graph_builder.child_of (snd st) = count_rels Neo4j.CHILD_OF new
          /\ graph_builder.links_to (snd st) = count_rels Neo4j.LINKS_TO new).

(** A Page node that carries the id and the attributes of a page of the
    export whose integers the driver can send. *)
Definition node_of_page (pages : list pages_json.PageRecord) (n : Neo4j.Node)
  : Prop :=
  exists page,
    In page pages
    /\ graph_builder.sendable page = true
    /\ pages_json.page_id page = Some (Neo4j.node_key n)
    /\ Neo4j.node_label n = Neo4j.Page
    /\ Neo4j.node_props n = Neo4j.OfPage (graph_builder.page_props page).

(** A page that no CREATE statement can be sent for, whatever the graph
    holds: it has no [id], or an integer outside 64 bits. *)
Definition unsendable (page : pages_json.PageRecord) : bool :=
  match pages_json.page_id page with
  | Some _ => negb (graph_builder.sendable page)
  | None => true
  end.

(** *** The code graph *)

(** The module a code point is filed under. *)
Definition module_of (point : Qdrant.PointStruct Qdrant.CodePayload) : string :=
  get (Qdrant.module (Qdrant.payload point)) "Unknown".

(** The path a code point is looked up by. *)
Definition path_of (point : Qdrant.PointStruct Qdrant.CodePayload) : string :=
  get (Qdrant.relative_path (Qdrant.payload point)) "".

(** A BELONGS_TO relationship from a CodeFile node with the path to a
    Module node with the name. *)
Definition belongs_to (g : Neo4j.Graph) (path module : string) : Prop :=
  exists r n m,
    In r (Neo4j.rels g)
    /\ Neo4j.rel_type r = Neo4j.BELONGS_TO
    /\ Neo4j.nodes g !! Neo4j.rel_src r = Some n
    /\ Neo4j.is_node Neo4j.CodeFile path n = true
    /\ Neo4j.nodes g !! Neo4j.rel_dst r = Some m
    /\ Neo4j.is_node Neo4j.ModuleLabel module m = true.

(** *** Points and pages *)

(** The text of a page is blank: [text.strip()] is empty. *)
Definition blank (page : pages_json.PageRecord) : bool :=
  negb (strip_truthy (vector_store.prepare_text_for_embedding page)).

(** A point made for a page of the export: it lies under the UUID of the
    page's id and carries that id as [notion_id]. *)
Definition point_of_page (UUID : string -> option string)
           (pages : list pages_json.PageRecord)
           (p : Qdrant.PointStruct Qdrant.PagePayload) : Prop :=
  exists page i,
    In page pages
    /\ blank page = false
    /\ pages_json.page_id page = Some i
    /\ UUID (vector_store.remove_hyphens i) = Some (Qdrant.id p)
    /\ Qdrant.notion_id (Qdrant.payload p) = Some i.

(** *** Source files *)

(** [read_text] raises on the file. *)
Definition unreadable (file : code_embedder.SwiftFile) : bool :=
  match code_embedder.read_text file with
  | Some _ => false
  | None => true
  end.

(** The file is read and holds white space only. *)
Definition empty_file (file : code_embedder.SwiftFile) : bool :=
  match code_embedder.read_text file with
  | Some content => negb (strip_truthy content)
  | None => false
  end.

(** The file is read and holds more than white space. *)
Definition has_code (file : code_embedder.SwiftFile) : bool :=
  match code_embedder.read_text file with
  | Some content => strip_truthy content
  | None => false
  end.

(** The module of a file: its first folder, or "Root" for a file that lies
    in no folder. *)
Definition module_of_file (file : code_embedder.SwiftFile) : string :=
  match code_embedder.parts file with
  | m :: _ :: _ => m
  | _ => "Root"
  end.

(** The graph that the first three steps of [main] of the code graph
    builder leave: CodeFile nodes, Module nodes, BELONGS_TO
    relationships. *)
Definition code_graph_of (g : Neo4j.Graph)
           (points : list (Qdrant.PointStruct Qdrant.CodePayload)) : Neo4j.Graph :=
  let r1 := code_graph_builder.create_code_nodes g points in
  let r2 := code_graph_builder.create_module_nodes
              (fst r1) (code_graph_builder.modules (snd r1)) in
  fst (code_graph_builder.create_belongs_to_relationships (fst r2) points).

(** The label and the key of every node, in node order. *)
Definition shape (g : Neo4j.Graph) : list (Neo4j.Label * string) :=
  List.map (fun n => (Neo4j.node_label n, Neo4j.node_key n)) (Neo4j.nodes g).

(** Every CodeFile node of the point's path is linked to every Module node
    of the point's module. *)
Definition all_linked (g : Neo4j.Graph)
           (point : Qdrant.PointStruct Qdrant.CodePayload) : Prop :=
  forall i j,
    In i (Neo4j.match_nodes Neo4j.CodeFile (path_of point) g) ->
    In j (Neo4j.match_nodes Neo4j.ModuleLabel (module_of point) g) ->
    existsb (Neo4j.is_rel Neo4j.BELONGS_TO i j) (Neo4j.rels g) = true.

(** The batches handed to [upsert], call after call. *)
Fixpoint upsert_batches {P} (log : list (WriterCall P))
  : list (list (Qdrant.PointStruct P)) :=
  match log with
  | [] => []
  | Upsert _ pts :: log' => pts :: upsert_batches log'
  | _ :: log' => upsert_batches log'
  end.


(** ** Concrete runs *)

Module runs.

Import Neo4j Qdrant.

(** *** Two pages that are each other's nearest neighbour *)

Definition id_a : string := "1d2c3b4a-0000-4000-8000-00000000000a".
Definition id_b : string := "1d2c3b4a-0000-4000-8000-00000000000b".

Definition page_payload (notion_id title : string) : PagePayload :=
  mkPagePayload (Some notion_id) (Some title) (Some "") (Some "") (Some "")
                (Some 120) (Some 8) (Some "") (Some "") (Some []).

Definition vec_a : Vec := [Qmake 1 1; Qmake 0 1].
Definition vec_b : Vec := [Qmake 9 10; Qmake 4 10].

Definition point_a : PointStruct PagePayload :=
  mkPoint id_a vec_a (page_payload id_a "Roadmap").
Definition point_b : PointStruct PagePayload :=
  mkPoint id_b vec_b (page_payload id_b "Planning").

Definition hit_a (s : Q) : ScoredPoint PagePayload :=
  mkHit id_a s (page_payload id_a "Roadmap").
Definition hit_b (s : Q) : ScoredPoint PagePayload :=
  mkHit id_b s (page_payload id_b "Planning").

(** Both Page nodes exist, under the uniqueness constraint. *)
Definition two_pages : Graph :=
  mkGraph [mkNode Page id_a NoProps; mkNode Page id_b NoProps] []
          [Page].

(** The first query (for [point_a]) finds the page itself and then
    [point_b]; the second (for [point_b]) the reverse. *)
Definition mutual_query (s : Q) (n : nat) (v : Vec) (limit : nat)
  : option (list (ScoredPoint PagePayload)) :=
  match n with
  | O => Some [hit_a (Qmake 1 1); hit_b s]
  | _ => Some [hit_b (Qmake 1 1); hit_a s]
  end.

(** The first query fails. *)
Definition first_query_fails {P} (hits : list (ScoredPoint P)) (n : nat)
           (v : Vec) (limit : nat) : option (list (ScoredPoint P)) :=
  match n with
  | O => None
  | _ => Some hits
  end.

(** *** A pivot that is missing from its own neighbourhood *)

Definition neighbour_id (k : nat) : string :=
  "1d2c3b4a-0000-4000-8000-00000000001" ++ String (ascii_of_nat (48 + k)) "".

Definition neighbour_hit (k : nat) : ScoredPoint PagePayload :=
  mkHit (neighbour_id k) (Qmake 1 1) (page_payload (neighbour_id k) "Note").

(** Six hits, none of them [point_a]: six other pages whose vector is
    as close to the query as that of [point_a] itself. *)
Definition six_neighbours : list (ScoredPoint PagePayload) :=
  List.map neighbour_hit (seq 1 6).

Definition seven_pages : Graph :=
  mkGraph (mkNode Page id_a NoProps
           :: List.map (fun k => mkNode Page (neighbour_id k) NoProps) (seq 1 6))
          [] [Page].

Definition always {P} (hits : list (ScoredPoint P)) (n : nat) (v : Vec)
           (limit : nat) : option (list (ScoredPoint P)) :=
  Some hits.

(** *** Two Swift files *)

Definition path_view : string := "App/Login/LoginView.swift".
Definition path_model : string := "App/Login/LoginViewModel.swift".

Definition code_payload (name path : string) : CodePayload :=
  mkCodePayload (Some name) (Some "App") (Some "Login") (Some path)
                (Some 42) (Some ["UIKit"]) (Some []) (Some []) (Some [])
                (Some "import UIKit").

Definition uuid_view : string := "0cc175b9-c0f1-b6a8-31c3-99e269772661".
Definition uuid_model : string := "92eb5ffe-e6ae-2fec-3ad7-1c777531578f".

Definition point_view : PointStruct CodePayload :=
  mkPoint uuid_view vec_a (code_payload "LoginView.swift" path_view).
Definition point_model : PointStruct CodePayload :=
  mkPoint uuid_model vec_b (code_payload "LoginViewModel.swift" path_model).

Definition hit_view (s : Q) : ScoredPoint CodePayload :=
  mkHit uuid_view s (code_payload "LoginView.swift" path_view).
Definition hit_model (s : Q) : ScoredPoint CodePayload :=
  mkHit uuid_model s (code_payload "LoginViewModel.swift" path_model).

(** The first query (for [point_view]) finds the file itself and then
    [point_model]; the second the reverse. *)
Definition mutual_code_query (s : Q) (n : nat) (v : Vec) (limit : nat)
  : option (list (ScoredPoint CodePayload)) :=
  match n with
  | O => Some [hit_view (Qmake 1 1); hit_model s]
  | _ => Some [hit_model (Qmake 1 1); hit_view s]
  end.

(** Both CodeFile nodes, and a SIMILAR_TO relationship left by an
    earlier run. *)
Definition stale_rel : Rel := mkRel SIMILAR_TO 0 1 (Some (Qmake 95 100)).

Definition graph_with_stale_edge : Graph :=
  mkGraph [mkNode CodeFile path_view NoProps; mkNode CodeFile path_model NoProps]
          [stale_rel]
          [CodeFile].

(** *** One page, read twice *)

Definition page_v1 : pages_json.PageRecord :=
  pages_json.mkPageRecord
    (Some id_a) (Some "Roadmap") (Some "Goals for the year.")
    (Some "https://www.notion.so/Roadmap-1d2c3b4a") (Some 4) (Some 1)
    (Some "2024-01-05T09:00:00.000Z") (Some "2024-01-05T09:00:00.000Z")
    None (Some []) (Some []).

(** The same page after an edit of its title. *)
Definition page_v2 : pages_json.PageRecord :=
  pages_json.mkPageRecord
    (Some id_a) (Some "Roadmap 2025") (Some "Goals for the year.")
    (Some "https://www.notion.so/Roadmap-1d2c3b4a") (Some 4) (Some 1)
    (Some "2024-01-05T09:00:00.000Z") (Some "2025-01-02T10:30:00.000Z")
    None (Some []) (Some []).

(** A page whose word count does not fit in 64 bits. *)
Definition page_huge : pages_json.PageRecord :=
  pages_json.mkPageRecord
    (Some id_b) (Some "Planning") (Some "Steps.")
    (Some "https://www.notion.so/Planning-1d2c3b4a")
    (Some 9223372036854775808) (Some 1)
    (Some "2024-01-05T09:00:00.000Z") (Some "2024-01-05T09:00:00.000Z")
    None (Some []) (Some []).

(** The graph as [main] of graph_builder.py leaves it before the nodes
    are created: cleared, with the constraint on [Page.id]. *)
Definition cleared : Graph :=
  graph_builder.create_constraints
    (graph_builder.clear_database (mkGraph [] [] [])).

(** *** Five pages with text *)

Definition page_with (k : nat) (title : string) : pages_json.PageRecord :=
  pages_json.mkPageRecord
    (Some ("1d2c3b4a00004000800000000000000" ++ String (ascii_of_nat (48 + k)) ""))
    (Some title) (Some "Some notes.")
    (Some "https://www.notion.so/") (Some 2) (Some 1)
    (Some "2024-01-05T09:00:00.000Z") (Some "2024-01-05T09:00:00.000Z")
    None (Some []) (Some []).

Definition five_pages : list pages_json.PageRecord :=
  [page_with 1 "Inbox"; page_with 2 "Roadmap"; page_with 3 "Reading";
   page_with 4 "Journal"; page_with 5 "Ideas"].

(** A stand-in for the embedding of a text. *)
Definition toy_embed (text : string) : Vec :=
  [Qmake (Z.of_nat (String.length text)) 1].

(** The model answers every call. *)
Definition model_up (n : nat) (r : EncodeRequest) : option (list Vec) :=
  Some (List.map toy_embed (sentences r)).

(** The model fails on its second call and answers the others. *)
Definition second_call_fails (n : nat) (r : EncodeRequest) : option (list Vec) :=
  match n with
  | 1%nat => None
  | _ => Some (List.map toy_embed (sentences r))
  end.

(** [str(uuid.UUID(hex))] on 32 hexadecimal digits. *)
Definition uuid_str (hex : string) : option string :=
  if (String.length hex =? 32)%nat
  then Some (substring 0 8 hex ++ "-" ++ substring 8 4 hex ++ "-"
             ++ substring 12 4 hex ++ "-" ++ substring 16 4 hex ++ "-"
             ++ substring 20 12 hex)
  else None.

Definition index_up (n : nat) : bool := true.
Definition index_down (n : nat) : bool := false.

(** The first upsert call fails, the others get through. *)
Definition first_upsert_fails (n : nat) : bool :=
  match n with
  | O => false
  | _ => true
  end.

(** The page collection, as [init_qdrant] leaves it. *)
Definition fresh_pages : gmap string (Collection PagePayload) :=
  {[ "notion_pages" := mkCollection (mkVectorParams 1024 COSINE) ∅
                                    [("word_count", INTEGER)] ]}.

(** A run in the middle of the loop, with two points in the buffer. *)
Definition two_buffered : Run vector_store.Stats PagePayload :=
  mkRun (vector_store.mkStats 2 2 0 0) [point_a; point_b] fresh_pages 1 0
        [Encode (mkEncode ["Roadmap"; "Planning"] 2 2048 true false false)].

(** *** Five Swift files *)

Definition swift_file (name : string) : code_embedder.SwiftFile :=
  code_embedder.mkSwiftFile ["App"; "Login"; name]
                            (Some ("import UIKit" ++ newline ++ "struct S {}")).

Definition five_files : list code_embedder.SwiftFile :=
  [swift_file "A.swift"; swift_file "B.swift"; swift_file "C.swift";
   swift_file "D.swift"; swift_file "E.swift"].

(** Stand-ins for the MD5 digest and for the scan of a source text. *)
Definition toy_md5 (s : string) : string :=
  if String.eqb s "App/Login/A.swift" then "0cc175b9c0f1b6a831c399e269772661"
  else if String.eqb s "App/Login/B.swift" then "92eb5ffee6ae2fec3ad71c777531578f"
  else if String.eqb s "App/Login/C.swift" then "4a8a08f09d37b73795649038408b5f33"
  else if String.eqb s "App/Login/D.swift" then "8277e0910d750195b448797616e091ad"
  else "e1671797c52e15f763380b45e841ec32".

Definition toy_info (content : string) : code_embedder.SwiftInfo :=
  code_embedder.mkSwiftInfo ["UIKit"] [] ["S"] [] [] [] [].

Definition fresh_code : gmap string (Collection CodePayload) :=
  {[ code_embedder.COLLECTION_NAME :=
       mkCollection (mkVectorParams 1024 COSINE) ∅
                    [("module", KEYWORD); ("lines", INTEGER)] ]}.

(** *** A scroll over two pages of points *)

Definition two_scrolls (offset : option string) (limit : nat)
  : option (list (PointStruct PagePayload) * option string) :=
  match offset with
  | None => Some ([point_a], Some id_b)
  | Some o => if String.eqb o id_b then Some ([point_b], None) else None
  end.

(** The index serves an empty page in between. *)
Definition gap_scrolls (offset : option string) (limit : nat)
  : option (list (PointStruct CodePayload) * option string) :=
  match offset with
  | None => Some ([point_view], Some uuid_view)
  | Some o =>
      if String.eqb o uuid_view then Some ([], Some uuid_model)
      else if String.eqb o uuid_model then Some ([point_model], None)
      else None
  end.

(** *** A page below another one *)

(** The page [id_b] lies below the page [id_a]; it links to [id_a] and
    to a page that is not part of the export. *)
Definition parent_page : pages_json.PageRecord :=
  pages_json.mkPageRecord
    (Some id_a) (Some "Roadmap") (Some "Goals for the year.")
    None None None None None None (Some []) None.

Definition child_page : pages_json.PageRecord :=
  pages_json.mkPageRecord
    (Some id_b) (Some "Planning") (Some "Steps.")
    None None None None None
    (Some (pages_json.mkParent (Some "page_id") (Some id_a) None))
    (Some [id_a; "1d2c3b4a-0000-4000-8000-00000000000c"]) None.

(** *** A page whose id is no UUID *)

Definition bad_id_page : pages_json.PageRecord :=
  pages_json.mkPageRecord
    (Some "draft") (Some "Draft") (Some "Some notes.")
    None None None None None None None None.

Definition pages_with_bad_id : list pages_json.PageRecord :=
  [page_with 1 "Inbox"; page_with 2 "Roadmap"; bad_id_page;
   page_with 4 "Journal"].

(** *** The code collection after an earlier run *)

Definition stale_code : gmap string (Collection CodePayload) :=
  {[ code_embedder.COLLECTION_NAME :=
       mkCollection (mkVectorParams 1024 COSINE) {[ uuid_view := point_view ]}
                    [("module", KEYWORD); ("lines", INTEGER)] ]}.

End runs.

(** * Properties *)

Local Open Scope list_scope.

(** ** Floats *)

Lemma Qltb_lt (a b : Q) : Qltb a b = true <-> (a < b)%Q.
Proof. unfold Qltb, Qlt. apply Z.ltb_lt. Qed.

Lemma Qltb_ge (a b : Q) : Qltb a b = false <-> (b <= a)%Q.
Proof. unfold Qltb, Qle. rewrite Z.ltb_ge. reflexivity. Qed.



(** ** The call log *)

Lemma emitted_app (l1 l2 : list ResolverCall) :
  emitted (l1 ++ l2) = emitted l1 ++ emitted l2.
Proof.
  induction l1 as [| c l1 IH]; [reflexivity |].
  destruct c; cbn; rewrite IH; reflexivity.
Qed.

Lemma queried_app (l1 l2 : list ResolverCall) :
  queried (l1 ++ l2) = queried l1 ++ queried l2.
Proof.
  induction l1 as [| c l1 IH]; [reflexivity |].
  destruct c; cbn; rewrite IH; reflexivity.
Qed.

(** ** The graph store *)

Module Neo4j_facts.

Import Neo4j.

Lemma match_from_lookup l k j ns i :
  In i (match_from l k j ns) ->
  (j <= i)%nat /\ exists n, ns !! (i - j)%nat = Some n /\ is_node l k n = true.
Proof.
  revert j. induction ns as [| n ns IH]; intros j H; cbn in H; [tauto |].
  assert (Hrest : In i (match_from l k (S j) ns) ->
                  (j <= i)%nat /\ exists m, (n :: ns) !! (i - j)%nat = Some m
                                            /\ is_node l k m = true).
  { intros H'. destruct (IH _ H') as [Hle [m [Hm Hn]]]. split; [lia |].
    exists m. split; [| exact Hn].
    replace (i - j)%nat with (S (i - S j)) by lia. exact Hm. }
  destruct (is_node l k n) eqn:E.
  - destruct H as [<- | H]; [| auto].
    split; [lia |]. exists n. rewrite Nat.sub_diag. auto.
  - auto.
Qed.

Lemma match_nodes_key l k g i :
  In i (match_nodes l k g) -> key_at g i = Some k.
Proof.
  intros H. apply match_from_lookup in H as [_ [n [Hn Hk]]].
  rewrite Nat.sub_0_r in Hn. unfold key_at. rewrite Hn. cbn.
  unfold is_node in Hk. apply andb_prop in Hk as [_ Hk].
  apply String.eqb_eq in Hk. congruence.
Qed.

Lemma is_rel_true t i j r :
  is_rel t i j r = true -> rel_type r = t /\ rel_src r = i /\ rel_dst r = j.
Proof.
  unfold is_rel. intros H.
  apply andb_prop in H as [H Hj]. apply andb_prop in H as [Ht Hi].
  apply bool_decide_eq_true in Ht.
  apply Nat.eqb_eq in Hi. apply Nat.eqb_eq in Hj. auto.
Qed.

(** A relationship found after a MERGE was there before, untouched, or
    lies between the two nodes and carries the new score. *)
Lemma merge_rel_In t s rs i j r :
  In r (merge_rel t s rs (i, j)) ->
  In r rs \/ (rel_type r = t /\ rel_src r = i /\ rel_dst r = j
              /\ rel_score r = Some s).
Proof.
  unfold merge_rel. destruct (existsb (is_rel t i j) rs).
  - intros H. apply in_map_iff in H as [r0 [<- Hr0]].
    unfold set_score. destruct (is_rel t i j r0) eqn:E; [| auto].
    right. apply is_rel_true in E as (? & ? & ?). cbn. auto.
  - intros H. apply in_app_or in H as [H | [<- | []]]; cbn; auto.
Qed.

Lemma fold_merge_rel_In t s rows rs r :
  In r (fold_left (merge_rel t s) rows rs) ->
  In r rs \/ (rel_type r = t /\ In (rel_src r, rel_dst r) rows
              /\ rel_score r = Some s).
Proof.
  revert rs. induction rows as [| [i j] rows IH]; intros rs H; cbn in H; [auto |].
  apply IH in H as [H | (Ht & Hin & Hs)].
  - apply merge_rel_In in H as [H | (Ht & <- & <- & Hs)]; [auto |].
    right. cbn. auto.
  - right. cbn. auto.
Qed.

(** The MERGE of a relationship between two keys leaves the nodes alone;
    what it adds or rewrites lies between nodes with these keys. *)
Lemma merge_rel_between_nodes l t k1 k2 s g :
  nodes (fst (merge_rel_between l t k1 k2 s g)) = nodes g.
Proof. reflexivity. Qed.

Lemma merge_rel_between_In l t k1 k2 s g r :
  In r (rels (fst (merge_rel_between l t k1 k2 s g))) ->
  In r (rels g)
  \/ (rel_type r = t /\ key_at g (rel_src r) = Some k1
      /\ key_at g (rel_dst r) = Some k2 /\ rel_score r = Some s).
Proof.
  cbn. intros H. apply fold_merge_rel_In in H as [H | (Ht & Hin & Hs)]; [auto |].
  right. apply in_prod_iff in Hin as [H1 H2].
  split; [exact Ht |]. split; [| split]; [| | exact Hs].
  - eapply match_nodes_key; eauto.
  - eapply match_nodes_key; eauto.
Qed.

(** A MERGE never removes a relationship: it stays, possibly with a new
    score. *)
Lemma merge_rel_keeps t s rs row r :
  In r rs ->
  exists r', In r' (merge_rel t s rs row)
             /\ rel_type r' = rel_type r /\ rel_src r' = rel_src r
             /\ rel_dst r' = rel_dst r.
Proof.
  destruct row as [i j]. unfold merge_rel. intros H.
  destruct (existsb (is_rel t i j) rs).
  - exists (set_score t i j s r). split; [apply in_map; exact H |].
    unfold set_score. destruct (is_rel t i j r); cbn; auto.
  - exists r. split; [apply in_or_app; auto | auto].
Qed.

Lemma fold_merge_rel_keeps t s rows rs r :
  In r rs ->
  exists r', In r' (fold_left (merge_rel t s) rows rs)
             /\ rel_type r' = rel_type r /\ rel_src r' = rel_src r
             /\ rel_dst r' = rel_dst r.
Proof.
  revert rs r. induction rows as [| row rows IH]; intros rs r H; cbn.
  - exists r. auto.
  - destruct (merge_rel_keeps t s rs row r H) as (r1 & H1 & Ht & Hs & Hd).
    destruct (IH _ _ H1) as (r2 & H2 & Ht2 & Hs2 & Hd2).
    exists r2. repeat split; congruence.
Qed.

End Neo4j_facts.

(** ** The page resolver (similarity_edges.py) *)

Module page_resolver.

Import Neo4j Qdrant similarity_edges Neo4j_facts.

Section Facts.

Variable th : Q.
Variable qp : nat -> Vec -> nat -> option (list (ScoredPoint PagePayload)).

Lemma page_for_hit_calls nid st h :
  calls (for_hit th nid st h) = calls st ++ page_hit_calls th nid h.
Proof.
  unfold for_hit, page_hit_calls.
  destruct (String.eqb _ nid); [symmetry; apply app_nil_r |].
  destruct (Qltb _ th); [symmetry; apply app_nil_r |].
  reflexivity.
Qed.

Lemma page_for_hit_queries nid st h : queries (for_hit th nid st h) = queries st.
Proof.
  unfold for_hit.
  destruct (String.eqb _ nid); [reflexivity |].
  destruct (Qltb _ th); reflexivity.
Qed.

Lemma for_hit_nodes nid st h :
  nodes (graph (for_hit th nid st h)) = nodes (graph st).
Proof.
  unfold for_hit.
  destruct (String.eqb _ nid); [reflexivity |].
  destruct (Qltb _ th); reflexivity.
Qed.

Lemma page_for_hits_calls nid hits st :
  calls (fold_left (for_hit th nid) hits st)
  = calls st ++ flat_map (page_hit_calls th nid) hits.
Proof.
  revert st. induction hits as [| h hits IH]; intros st; cbn.
  - symmetry. apply app_nil_r.
  - rewrite IH, page_for_hit_calls, <- app_assoc. reflexivity.
Qed.

Lemma page_for_hits_queries nid hits st :
  queries (fold_left (for_hit th nid) hits st) = queries st.
Proof.
  revert st. induction hits as [| h hits IH]; intros st; cbn; [reflexivity |].
  rewrite IH. apply page_for_hit_queries.
Qed.

(** A hit sends at most one edge, and none when it is the pivot. *)
Lemma page_hit_calls_length nid hits :
  (length (emitted (flat_map (page_hit_calls th nid) hits))
   <= length (page_candidates nid hits))%nat.
Proof.
  unfold page_candidates.
  induction hits as [| h hits IH]; cbn; [lia |].
  rewrite emitted_app, length_app.
  unfold page_hit_calls at 1.
  destruct (String.eqb _ nid); cbn; [exact IH |].
  destruct (Qltb _ th); cbn; lia.
Qed.

Lemma page_hit_calls_queried nid hits :
  queried (flat_map (page_hit_calls th nid) hits) = [].
Proof.
  induction hits as [| h hits IH]; cbn; [reflexivity |].
  rewrite queried_app, IH, app_nil_r. unfold page_hit_calls.
  destruct (String.eqb _ nid); [reflexivity |].
  destruct (Qltb _ th); reflexivity.
Qed.


(** No edge runs from a page to itself. *)
Lemma page_hit_calls_irreflexive nid hits :
  Forall (fun e => e.1.1 = nid /\ e.1.2 <> nid)
         (emitted (flat_map (page_hit_calls th nid) hits)).
Proof.
  induction hits as [| h hits IH]; cbn; [constructor |].
  rewrite emitted_app. apply Forall_app. split; [| exact IH].
  unfold page_hit_calls.
  destruct (String.eqb _ nid) eqn:E; [constructor |].
  destruct (Qltb _ th); [constructor |].
  cbn. constructor; [| constructor]. cbn. split; [reflexivity |].
  apply String.eqb_neq. exact E.
Qed.





(** *** Only edges of the current pass are in the graph afterwards *)

Lemma for_hit_fresh nid st h :
  all_similar_emitted st -> all_similar_emitted (for_hit th nid st h).
Proof.
  intros I. unfold for_hit.
  destruct (String.eqb _ nid); [exact I |].
  destruct (Qltb _ th); [exact I |].
  set (sid := get (notion_id (hit_payload h)) "").
  set (s := round3 (score h)).
  destruct (merge_rel_between Page SIMILAR_TO nid sid s (graph st))
    as [g n] eqn:E.
  assert (Hg : g = fst (merge_rel_between Page SIMILAR_TO nid sid s (graph st)))
    by (rewrite E; reflexivity).
  intros r Hr Ht. cbn [graph calls] in *. rewrite emitted_app.
  assert (Hk : forall i, key_at g i = key_at (graph st) i)
    by (intros i; rewrite Hg; reflexivity).
  rewrite !Hk. rewrite Hg in Hr.
  apply merge_rel_between_In in Hr as [Hr | (_ & Ha & Hb & Hs)].
  - destruct (I r Hr Ht) as (a & b & s' & Hin & ?).
    exists a, b, s'. split; [apply in_or_app; auto | assumption].
  - exists nid, sid, s. split; [apply in_or_app; right; cbn; auto | auto].
Qed.

Lemma for_hits_fresh nid hits st :
  all_similar_emitted st ->
  all_similar_emitted (fold_left (for_hit th nid) hits st).
Proof.
  revert st. induction hits as [| h hits IH]; intros st I; cbn; [exact I |].
  apply IH, for_hit_fresh, I.
Qed.

Lemma logged_fresh g s n cs c :
  emitted [c] = [] ->
  all_similar_emitted (mkPass g s n cs) ->
  all_similar_emitted (mkPass g s (S n) (cs ++ [c])).
Proof.
  intros Hc I r Hr Ht. cbn [graph calls] in *.
  destruct (I r Hr Ht) as (a & b & s' & Hin & ?).
  exists a, b, s'. split; [| assumption].
  rewrite emitted_app. apply in_or_app. auto.
Qed.

Lemma for_point_fresh st p :
  all_similar_emitted st ->
  all_similar_emitted (fst (for_point th qp st p)).
Proof.
  intros I. unfold for_point.
  destruct (negb (str_truthy _)); [exact I |].
  destruct st as [g s n cs].
  destruct (qp _ _ _) as [hits |]; cbn [fst graph stats queries calls].
  - apply for_hits_fresh, logged_fresh; [reflexivity | exact I].
  - apply logged_fresh; [reflexivity | exact I].
Qed.

Lemma for_points_fresh pts st :
  all_similar_emitted st ->
  all_similar_emitted (fst (for_points th qp st pts)).
Proof.
  revert st. induction pts as [| p pts IH]; intros st I; cbn; [exact I |].
  pose proof (for_point_fresh st p I) as I'.
  destruct (for_point th qp st p) as [st' []]; cbn [fst] in *; auto.
Qed.

Lemma delete_rels_none t g r :
  In r (rels (delete_rels t g)) -> rel_type r <> t.
Proof.
  cbn. intros H. apply filter_In in H as [_ H].
  apply negb_true_iff, bool_decide_eq_false in H. exact H.
Qed.

(** After a pass of the page resolver, whether it returned or was left
    by an exception, the SIMILAR_TO relationships of the graph are
    those sent during the pass: none is left from before. *)
Lemma page_pass_fresh g pts :
  all_similar_emitted (fst (create_similarity_edges th qp g pts)).
Proof.
  unfold create_similarity_edges. apply for_points_fresh.
  intros r Hr Ht. cbn [graph] in Hr.
  apply delete_rels_none in Hr. contradiction.
Qed.

(** *** One query per pivot, and how many edges it can send *)

Lemma page_pivot st p hits :
  str_truthy (get (notion_id (payload p)) "") = true ->
  qp (queries st) (vector p) (TOP_K + 1) = Some hits ->
  one_query_at_most st (fst (for_point th qp st p)) (vector p) (TOP_K + 1)
    (length (page_candidates (get (notion_id (payload p)) "") hits)).
Proof.
  intros Hn Hq. unfold one_query_at_most, for_point.
  rewrite Hn, Hq. cbn [negb fst].
  rewrite page_for_hits_calls. cbn [calls]. split.
  - rewrite !queried_app, page_hit_calls_queried, app_nil_r. reflexivity.
  - eexists. rewrite !emitted_app. cbn [emitted]. rewrite app_nil_r.
    split; [reflexivity | apply page_hit_calls_length].
Qed.

End Facts.

End page_resolver.

(** ** Counting what a filter drops *)

Lemma filter_length_le {A} (f : A -> bool) (l : list A) :
  (length (List.filter f l) <= length l)%nat.
Proof.
  induction l as [| x l IH]; cbn; [lia |]. destruct (f x); cbn; lia.
Qed.

Lemma filter_length_lt {A} (f : A -> bool) (l : list A) (x : A) :
  In x l -> f x = false -> (length (List.filter f l) < length l)%nat.
Proof.
  induction l as [| y l IH]; cbn; [tauto |].
  intros [-> | H] Hx.
  - rewrite Hx. pose proof (filter_length_le f l). lia.
  - specialize (IH H Hx). destruct (f y); cbn; lia.
Qed.

(** ** The order on paths *)

Lemma ltb_asym (a b : string) : String.ltb a b = true -> String.ltb b a = false.
Proof.
  unfold String.ltb. rewrite (String.compare_antisym b a).
  destruct (String.compare a b); cbn; congruence.
Qed.

Lemma ltb_irrefl (a : string) : String.ltb a a = false.
Proof.
  destruct (String.ltb a a) eqn:E; [| reflexivity].
  pose proof (ltb_asym a a E). congruence.
Qed.

(** ** The code resolver (code_graph_builder.py) *)

Module code_resolver.

Import Neo4j Qdrant code_graph_builder Neo4j_facts.

Section Facts.

Variable qp : nat -> Vec -> nat -> option (list (ScoredPoint CodePayload)).

Lemma code_for_hit_calls pid src st h :
  calls (for_hit pid src st h) = calls st ++ code_hit_calls pid src h.
Proof.
  unfold for_hit, code_hit_calls.
  destruct (String.eqb _ pid); [symmetry; apply app_nil_r |].
  destruct (Qltb _ _); [symmetry; apply app_nil_r |].
  destruct (String.ltb src _); [reflexivity | symmetry; apply app_nil_r].
Qed.

Lemma code_for_hit_queries pid src st h :
  queries (for_hit pid src st h) = queries st.
Proof.
  unfold for_hit.
  destruct (String.eqb _ pid); [reflexivity |].
  destruct (Qltb _ _); [reflexivity |].
  destruct (String.ltb src _); reflexivity.
Qed.

Lemma code_for_hits_calls pid src hits st :
  calls (fold_left (for_hit pid src) hits st)
  = calls st ++ flat_map (code_hit_calls pid src) hits.
Proof.
  revert st. induction hits as [| h hits IH]; intros st; cbn.
  - symmetry. apply app_nil_r.
  - rewrite IH, code_for_hit_calls, <- app_assoc. reflexivity.
Qed.

Lemma code_for_hits_queries pid src hits st :
  queries (fold_left (for_hit pid src) hits st) = queries st.
Proof.
  revert st. induction hits as [| h hits IH]; intros st; cbn; [reflexivity |].
  rewrite IH. apply code_for_hit_queries.
Qed.

Lemma code_hit_calls_length pid src hits :
  (length (emitted (flat_map (code_hit_calls pid src) hits))
   <= length (code_candidates pid hits))%nat.
Proof.
  unfold code_candidates.
  induction hits as [| h hits IH]; cbn; [lia |].
  rewrite emitted_app, length_app.
  unfold code_hit_calls at 1.
  destruct (String.eqb _ pid); cbn; [exact IH |].
  destruct (Qltb _ _); cbn; [lia |].
  destruct (String.ltb src _); cbn; lia.
Qed.

Lemma code_hit_calls_queried pid src hits :
  queried (flat_map (code_hit_calls pid src) hits) = [].
Proof.
  induction hits as [| h hits IH]; cbn; [reflexivity |].
  rewrite queried_app, IH, app_nil_r. unfold code_hit_calls.
  destruct (String.eqb _ pid); [reflexivity |].
  destruct (Qltb _ _); [reflexivity |].
  destruct (String.ltb src _); reflexivity.
Qed.

(** An edge is sent from the smaller path to the larger one, with a
    score that is not below the threshold. *)
Lemma code_hit_calls_ordered pid src hits :
  Forall (fun e => String.ltb e.1.1 e.1.2 = true
                   /\ (SIMILARITY_THRESHOLD <= e.2)%Q)
         (emitted (flat_map (code_hit_calls pid src) hits)).
Proof.
  induction hits as [| h hits IH]; cbn; [constructor |].
  rewrite emitted_app. apply Forall_app. split; [| exact IH].
  unfold code_hit_calls.
  destruct (String.eqb _ pid); [constructor |].
  destruct (Qltb _ _) eqn:E; [constructor |].
  destruct (String.ltb src _) eqn:L; [| constructor].
  cbn. constructor; [| constructor]. cbn. split; [exact L |].
  apply Qltb_ge. exact E.
Qed.

Lemma code_for_point_calls st p :
  exists new,
    calls (for_point qp st p) = calls st ++ new
    /\ Forall (fun e => String.ltb e.1.1 e.1.2 = true
                        /\ (SIMILARITY_THRESHOLD <= e.2)%Q) (emitted new).
Proof.
  unfold for_point.
  destruct (qp _ _ _) as [hits |].
  - eexists. rewrite code_for_hits_calls. cbn [calls].
    rewrite <- app_assoc. split; [reflexivity |].
    cbn. apply code_hit_calls_ordered.
  - eexists. cbn [calls]. split; [reflexivity | constructor].
Qed.

Lemma for_points_ordered pts st :
  Forall (fun e => String.ltb e.1.1 e.1.2 = true
                   /\ (SIMILARITY_THRESHOLD <= e.2)%Q) (emitted (calls st)) ->
  Forall (fun e => String.ltb e.1.1 e.1.2 = true
                   /\ (SIMILARITY_THRESHOLD <= e.2)%Q)
         (emitted (calls (fold_left (for_point qp) pts st))).
Proof.
  revert st. induction pts as [| p pts IH]; intros st H; cbn; [exact H |].
  apply IH. destruct (code_for_point_calls st p) as (new & -> & Hnew).
  rewrite emitted_app. apply Forall_app. auto.
Qed.

(** Every edge sent during a pass of the code resolver runs from the
    smaller path to the larger one and has a score that is not below
    the threshold. *)
Lemma code_pass_ordered g pts :
  Forall (fun e => String.ltb e.1.1 e.1.2 = true
                   /\ (SIMILARITY_THRESHOLD <= e.2)%Q)
         (emitted (calls (create_similarity_edges qp g pts))).
Proof. unfold create_similarity_edges. apply for_points_ordered. constructor. Qed.

(** Hence the code resolver never sends both directions of a pair. *)
Lemma code_pass_one_direction g pts a b s s' :
  In (a, b, s) (emitted (calls (create_similarity_edges qp g pts))) ->
  ~ In (b, a, s') (emitted (calls (create_similarity_edges qp g pts))).
Proof.
  intros H1 H2. pose proof (code_pass_ordered g pts) as F.
  rewrite List.Forall_forall in F.
  destruct (F _ H1) as [L1 _]. destruct (F _ H2) as [L2 _]. cbn in *.
  apply ltb_asym in L1. congruence.
Qed.


(** *** Queries *)

Lemma for_point_queries st p : queries (for_point qp st p) = S (queries st).
Proof.
  unfold for_point. destruct (qp _ _ _); [| reflexivity].
  rewrite code_for_hits_queries. reflexivity.
Qed.

Lemma for_points_queries pts st :
  queries (fold_left (for_point qp) pts st) = (queries st + length pts)%nat.
Proof.
  revert st. induction pts as [| p pts IH]; intros st; cbn; [lia |].
  rewrite IH, for_point_queries. lia.
Qed.

Lemma code_pass_queries g pts :
  queries (create_similarity_edges qp g pts) = length pts.
Proof. unfold create_similarity_edges. rewrite for_points_queries. reflexivity. Qed.

Lemma code_pivot st p hits :
  qp (queries st) (vector p) (TOP_K_SIMILAR + 1) = Some hits ->
  one_query_at_most st (for_point qp st p) (vector p) (TOP_K_SIMILAR + 1)
    (length (code_candidates (id p) hits)).
Proof.
  intros Hq. unfold one_query_at_most, for_point. rewrite Hq.
  rewrite code_for_hits_calls. cbn [calls]. split.
  - rewrite !queried_app, code_hit_calls_queried, app_nil_r. reflexivity.
  - eexists. rewrite !emitted_app. cbn [emitted]. rewrite app_nil_r.
    split; [reflexivity | apply code_hit_calls_length].
Qed.

(** *** Relationships are never removed *)

Lemma for_hit_keeps pid src st h r :
  In r (rels (graph st)) ->
  exists r', In r' (rels (graph (for_hit pid src st h)))
             /\ rel_type r' = rel_type r /\ rel_src r' = rel_src r
             /\ rel_dst r' = rel_dst r.
Proof.
  intros H. unfold for_hit.
  destruct (String.eqb _ pid); [exists r; auto |].
  destruct (Qltb _ _); [exists r; auto |].
  destruct (String.ltb src _); [| exists r; auto].
  cbn. apply fold_merge_rel_keeps, H.
Qed.

Lemma for_hits_keeps pid src hits st r :
  In r (rels (graph st)) ->
  exists r', In r' (rels (graph (fold_left (for_hit pid src) hits st)))
             /\ rel_type r' = rel_type r /\ rel_src r' = rel_src r
             /\ rel_dst r' = rel_dst r.
Proof.
  revert st r. induction hits as [| h hits IH]; intros st r H; cbn.
  - exists r. auto.
  - destruct (for_hit_keeps pid src st h r H) as (r1 & H1 & Ht1 & Hs1 & Hd1).
    destruct (IH _ _ H1) as (r2 & H2 & Ht2 & Hs2 & Hd2).
    exists r2. repeat split; congruence.
Qed.

Lemma for_point_keeps st p r :
  In r (rels (graph st)) ->
  exists r', In r' (rels (graph (for_point qp st p)))
             /\ rel_type r' = rel_type r /\ rel_src r' = rel_src r
             /\ rel_dst r' = rel_dst r.
Proof.
  intros H. unfold for_point. destruct (qp _ _ _) as [hits |].
  - apply for_hits_keeps. exact H.
  - exists r. auto.
Qed.

Lemma for_points_keeps pts st r :
  In r (rels (graph st)) ->
  exists r', In r' (rels (graph (fold_left (for_point qp) pts st)))
             /\ rel_type r' = rel_type r /\ rel_src r' = rel_src r
             /\ rel_dst r' = rel_dst r.
Proof.
  revert st r. induction pts as [| p pts IH]; intros st r H; cbn.
  - exists r. auto.
  - destruct (for_point_keeps st p r H) as (r1 & H1 & Ht1 & Hs1 & Hd1).
    destruct (IH _ _ H1) as (r2 & H2 & Ht2 & Hs2 & Hd2).
    exists r2. repeat split; congruence.
Qed.

(** A relationship that is in the graph before a pass of the code
    resolver is still there afterwards. *)
Lemma code_pass_keeps g pts r :
  In r (rels g) ->
  exists r', In r' (rels (graph (create_similarity_edges qp g pts)))
             /\ rel_type r' = rel_type r /\ rel_src r' = rel_src r
             /\ rel_dst r' = rel_dst r.
Proof. intros H. unfold create_similarity_edges. apply for_points_keeps, H. Qed.

End Facts.

End code_resolver.

(** ** Nodes: CREATE under a constraint, and MERGE *)

Module node_facts.

Import Neo4j.

Lemma is_node_refl l k p : is_node l k (mkNode l k p) = true.
Proof.
  unfold is_node. cbn. rewrite String.eqb_refl.
  rewrite bool_decide_eq_true_2; reflexivity.
Qed.

Lemma match_from_app l k j ns ms :
  match_from l k j (ns ++ ms)
  = match_from l k j ns ++ match_from l k (j + length ns) ms.
Proof.
  revert j. induction ns as [| n ns IH]; intros j; cbn.
  - rewrite Nat.add_0_r. reflexivity.
  - rewrite IH. replace (S j + length ns)%nat with (j + S (length ns))%nat by lia.
    destruct (is_node l k n); reflexivity.
Qed.

Lemma match_from_nil l k j ns :
  match_from l k j ns = [] -> Forall (fun n => is_node l k n = false) ns.
Proof.
  revert j. induction ns as [| n ns IH]; intros j H; cbn in H; [constructor |].
  destruct (is_node l k n) eqn:E; [discriminate |].
  constructor; [exact E | eapply IH, H].
Qed.

Lemma set_props_is_node l k p l' k' n :
  is_node l' k' (set_props l k p n) = is_node l' k' n.
Proof. unfold set_props. destruct (is_node l k n); reflexivity. Qed.

Lemma match_from_set_props l k p l' k' j ns :
  match_from l' k' j (List.map (set_props l k p) ns) = match_from l' k' j ns.
Proof.
  revert j. induction ns as [| n ns IH]; intros j; cbn; [reflexivity |].
  rewrite set_props_is_node, IH. reflexivity.
Qed.

Lemma set_props_none l k p ns :
  Forall (fun n => is_node l k n = false) ns ->
  List.map (set_props l k p) ns = ns.
Proof.
  induction 1 as [| n ns Hn _ IH]; cbn; [reflexivity |].
  rewrite IH. unfold set_props. rewrite Hn. reflexivity.
Qed.

Lemma set_props_twice l k p p' n :
  set_props l k p' (set_props l k p n) = set_props l k p' n.
Proof.
  unfold set_props at 2. destruct (is_node l k n) eqn:E; [| reflexivity].
  unfold set_props. destruct n as [nl nk np]. cbn in *.
  unfold is_node in *. cbn in *. rewrite E. reflexivity.
Qed.

(** A node created by CREATE is the only new match of its key. *)
Lemma count_nodes_created l k p g :
  count_nodes l k (mkGraph (nodes g ++ [mkNode l k p]) (rels g) (unique_on g))
  = S (count_nodes l k g).
Proof.
  unfold count_nodes, match_nodes. cbn [nodes].
  rewrite match_from_app, length_app. cbn [match_from].
  rewrite is_node_refl. cbn. lia.
Qed.

(** MERGE of a node after MERGE of a node with the same key: only the
    properties of the second are left. *)
Lemma merge_node_twice l k p p' g :
  merge_node l k p' (merge_node l k p g) = merge_node l k p' g.
Proof.
  unfold merge_node at 2. case_bool_decide as E.
  - unfold merge_node. rewrite (bool_decide_eq_true_2 _ E).
    unfold match_nodes. cbn [nodes rels unique_on].
    rewrite match_from_app. cbn [match_from]. rewrite is_node_refl.
    rewrite bool_decide_eq_false_2 by (intros H; apply app_eq_nil in H as [_ H]; discriminate).
    rewrite map_app. cbn [List.map].
    rewrite set_props_none by (eapply match_from_nil, E).
    unfold set_props. rewrite is_node_refl. reflexivity.
  - unfold merge_node. cbn [nodes rels unique_on].
    unfold match_nodes in *. cbn [nodes].
    rewrite match_from_set_props.
    rewrite (bool_decide_eq_false_2 _ E).
    rewrite map_map.
    f_equal. apply map_ext. intros n. apply set_props_twice.
Qed.

(** After a MERGE exactly the nodes that carried the key carry it, or
    one new node does. *)
Lemma merge_node_count l k p g :
  count_nodes l k (merge_node l k p g) = Nat.max 1 (count_nodes l k g).
Proof.
  unfold merge_node. case_bool_decide as E.
  - rewrite count_nodes_created. unfold count_nodes. rewrite E. reflexivity.
  - unfold count_nodes, match_nodes in *. cbn [nodes].
    rewrite match_from_set_props.
    destruct (match_from l k 0 (nodes g)); [congruence | cbn; lia].
Qed.

(** CREATE of a node whose key is taken is refused under the constraint. *)
Lemma create_node_refused l k p g :
  unique g l = true -> count_nodes l k g <> 0%nat -> create_node l k p g = None.
Proof.
  intros Hu Hc. unfold create_node. rewrite Hu.
  rewrite bool_decide_eq_false_2; [reflexivity |].
  intros E. apply Hc. unfold count_nodes. rewrite E. reflexivity.
Qed.

Lemma create_node_fresh l k p g :
  count_nodes l k g = 0%nat ->
  create_node l k p g
  = Some (mkGraph (nodes g ++ [mkNode l k p]) (rels g) (unique_on g)).
Proof.
  intros Hc. unfold create_node.
  rewrite (bool_decide_eq_true_2 (match_nodes l k g = [])).
  - rewrite andb_false_r. reflexivity.
  - unfold count_nodes in Hc. destruct (match_nodes l k g); [reflexivity | discriminate].
Qed.

End node_facts.

(** ** Batches *)

Lemma div_up_covers (n b : nat) : (0 < b -> n <= ((n + b - 1) / b) * b)%nat.
Proof.
  intros Hb.
  pose proof (Nat.div_mod_eq (n + b - 1) b) as E.
  pose proof (Nat.mod_upper_bound (n + b - 1) b ltac:(lia)) as U.
  nia.
Qed.


(** Consecutive slices of width [b] put together give the list back. *)
Lemma slices_concat {A} (b : nat) (l : list A) (n a : nat) :
  (0 < b)%nat -> (length l <= (a + n) * b)%nat ->
  concat (List.map (fun k => take b (drop (k * b) l)) (seq a n)) = drop (a * b) l.
Proof.
  intros Hb. revert a. induction n as [| n IH]; intros a Hl; cbn.
  - symmetry. apply drop_ge. lia.
  - rewrite IH by lia.
    replace (S a * b)%nat with (a * b + b)%nat by lia.
    rewrite <- drop_drop. apply take_drop.
Qed.

(** The slices taken at the indices of [range(0, len(l), b)] cover the
    list, in order. *)
Lemma py_range_slices {A} (b : nat) (l : list A) :
  (0 < b)%nat ->
  concat (List.map (fun i => take b (drop i l)) (py_range (length l) b)) = l.
Proof.
  intros Hb. unfold py_range. rewrite List.map_map.
  rewrite (slices_concat b l _ 0 Hb); [reflexivity |].
  apply div_up_covers, Hb.
Qed.


(** ** The call log of an embedding run *)

Lemma encoded_app {P} (l1 l2 : list (WriterCall P)) :
  encoded (l1 ++ l2) = encoded l1 ++ encoded l2.
Proof.
  induction l1 as [| c l1 IH]; [reflexivity |].
  destruct c; cbn; rewrite IH; reflexivity.
Qed.

Lemma upserted_app {P} (l1 l2 : list (WriterCall P)) :
  upserted (l1 ++ l2) = upserted l1 ++ upserted l2.
Proof.
  induction l1 as [| c l1 IH]; [reflexivity |].
  destruct c; cbn; rewrite IH; try reflexivity. apply app_assoc.
Qed.

(** ** The upsert call *)

Module upsert_facts.

Import Qdrant.

Section Client.

Context {T P : Type}.
Variable upsert_ok : nat -> bool.
Variable name : string.

Lemma client_upsert_false (st : Run T P) :
  upsert_ok (run_upserts st) = false ->
  client_upsert upsert_ok name st
  = (mkRun (run_stats st) (run_points st) (run_db st) (run_encodes st)
           (S (run_upserts st))
           (run_log st ++ [Upsert name (run_points st)]), false).
Proof. intros H. unfold client_upsert. rewrite H. reflexivity. Qed.

Lemma client_upsert_true (st : Run T P) c :
  upsert_ok (run_upserts st) = true ->
  run_db st !! name = Some c ->
  client_upsert upsert_ok name st
  = (mkRun (run_stats st) (run_points st)
           (<[name := mkCollection (vectors_config c)
                                   (upsert_points (run_points st) (points c))
                                   (payload_indexes c)]> (run_db st))
           (run_encodes st) (S (run_upserts st))
           (run_log st ++ [Upsert name (run_points st)]), true).
Proof.
  intros H Hc. unfold client_upsert, Qdrant.upsert. rewrite H, Hc. reflexivity.
Qed.

(** Whatever its outcome, the call is logged once, and touches nothing
    but the database. *)
Lemma client_upsert_shape (st : Run T P) :
  exists db' b,
    client_upsert upsert_ok name st
    = (mkRun (run_stats st) (run_points st) db' (run_encodes st)
             (S (run_upserts st))
             (run_log st ++ [Upsert name (run_points st)]), b)
    /\ (db' = run_db st
        \/ Qdrant.upsert name (run_points st) (run_db st) = Some db').
Proof.
  unfold client_upsert. destruct (upsert_ok _).
  - destruct (Qdrant.upsert _ _ _) as [db' |] eqn:E.
    + exists db', true. cbn. auto.
    + exists (run_db st), false. auto.
  - exists (run_db st), false. auto.
Qed.

Lemma upsert_points_lookup (pts : list (PointStruct P)) m i p :
  upsert_points pts m !! i = Some p -> m !! i = Some p \/ In p pts.
Proof.
  unfold upsert_points. revert m.
  induction pts as [| q pts IH]; intros m H; cbn in *; [auto |].
  apply IH in H as [H | H]; [| auto].
  destruct (decide (id q = i)) as [<- | Hne].
  - rewrite lookup_insert_eq in H. injection H as <-. auto.
  - rewrite lookup_insert_ne in H by exact Hne. auto.
Qed.

Lemma stored_upsert (pts : list (PointStruct P)) db db' i p :
  Qdrant.upsert name pts db = Some db' ->
  stored name db' !! i = Some p ->
  stored name db !! i = Some p \/ In p pts.
Proof.
  unfold Qdrant.upsert, stored. destruct (db !! name) as [c |] eqn:E; [| discriminate].
  intros [= <-]. rewrite lookup_insert_eq. cbn. apply upsert_points_lookup.
Qed.

(** The upsert call keeps the stored points among the logged ones. *)
Lemma client_upsert_only_logged (st : Run T P) :
  only_logged name st -> only_logged name (fst (client_upsert upsert_ok name st)).
Proof.
  intros I. destruct (client_upsert_shape st) as (db' & b & -> & Hdb).
  cbn [fst]. intros i p. cbn [run_db run_log]. intros H.
  assert (Hold : stored name (run_db st) !! i = Some p ->
                 exists pts, In (Upsert name pts)
                                (run_log st ++ [Upsert name (run_points st)])
                             /\ In p pts).
  { intros H'. destruct (I i p H') as (pts & Hin & Hp).
    exists pts. split; [apply in_or_app; auto | exact Hp]. }
  destruct Hdb as [-> | Hup]; [auto |].
  destruct (stored_upsert _ _ _ _ _ Hup H) as [H' | H']; [auto |].
  exists (run_points st). split; [| exact H'].
  apply in_or_app. right. left. reflexivity.
Qed.

(** Changes that leave the database alone and only add to the log keep
    the stored points among the logged ones. *)
Lemma only_logged_extend (st st' : Run T P) extra :
  run_db st' = run_db st -> run_log st' = run_log st ++ extra ->
  only_logged name st -> only_logged name st'.
Proof.
  intros Hdb Hlog I i p H. rewrite Hdb in H.
  destruct (I i p H) as (pts & Hin & Hp).
  exists pts. rewrite Hlog. split; [apply in_or_app; auto | exact Hp].
Qed.

End Client.

End upsert_facts.

(** ** The page pipeline (vector_store.py) *)

Module page_writer.

Import Qdrant pages_json vector_store upsert_facts.

Section Facts.

Variable NAME : string.
Variable DIM : Z.
Variable enc : nat -> EncodeRequest -> option (list Vec).
Variable ok : nat -> bool.
Variable UUID : string -> option string.

Local Abbreviation State := (Run Stats PagePayload).

(** *** The index at the start of a run *)

Lemma page_init_qdrant_fresh (db : gmap string (Collection PagePayload)) :
  init_qdrant NAME DIM db
  = Some (<[NAME := mkCollection (mkVectorParams DIM COSINE) ∅
                                 [("word_count"%string, INTEGER)]]>
            (delete NAME db)).
Proof.
  unfold init_qdrant, exists_collection, delete_collection.
  assert (E : (if bool_decide (is_Some (db !! NAME)) then delete NAME db else db)
              = delete NAME db).
  { case_bool_decide as H; [reflexivity |].
    symmetry. apply delete_id. apply eq_None_not_Some. exact H. }
  rewrite E. unfold create_collection. rewrite lookup_delete_eq.
  unfold create_payload_index. rewrite lookup_insert_eq. cbn.
  rewrite insert_insert_eq. reflexivity.
Qed.

(** *** What the steps of the loop leave alone *)

Lemma page_append_points_frame (st : State) zipped :
  let st' := fst (append_points UUID st zipped) in
  run_db st' = run_db st /\ run_log st' = run_log st
  /\ run_encodes st' = run_encodes st /\ run_upserts st' = run_upserts st
  /\ errors (run_stats st') = errors (run_stats st).
Proof.
  revert st. induction zipped as [| [page v] zipped IH]; intros st; cbn.
  - auto.
  - destruct (make_point UUID page v); cbn; [| auto].
    specialize (IH (with_stats add_processed
                      (with_points (run_points st ++ [p]) st))).
    cbn in IH. exact IH.
Qed.

Lemma page_try_embed_frame (st : State) batch :
  let st' := fst (try_embed enc UUID st batch) in
  run_db st' = run_db st
  /\ run_log st'
     = run_log st ++ [Encode (mkEncode (List.map snd batch)
                                       (length (List.map snd batch))
                                       MAX_TEXT_LENGTH true false false)]
  /\ run_encodes st' = S (run_encodes st)
  /\ run_upserts st' = run_upserts st
  /\ errors (run_stats st') = errors (run_stats st).
Proof.
  unfold try_embed. destruct (embed_batch enc _ _) as [vs |]; cbn [fst].
  - match goal with
    | |- context [append_points UUID ?s ?z] =>
        pose proof (page_append_points_frame s z) as F
    end.
    cbn in F. exact F.
  - cbn. auto.
Qed.

Lemma page_flush_only_logged (st : State) :
  only_logged NAME st -> only_logged NAME (flush NAME ok st).
Proof.
  intros I. unfold flush.
  pose proof (client_upsert_only_logged ok NAME st I) as I1.
  destruct (client_upsert ok NAME st) as [st1 []]; cbn [fst] in I1.
  - exact I1.
  - assert (I2 : only_logged NAME (logged (Sleep 2) st1))
      by (apply (only_logged_extend NAME st1 _ [Sleep 2]);
          [reflexivity | reflexivity | exact I1]).
    pose proof (client_upsert_only_logged ok NAME _ I2) as I3.
    destruct (client_upsert ok NAME (logged (Sleep 2) st1)) as [st2 []];
      cbn [fst] in I3; exact I3.
Qed.

Lemma page_for_batch_only_logged valid (st : State) i :
  only_logged NAME st -> only_logged NAME (for_batch NAME enc ok UUID valid st i).
Proof.
  intros I. unfold for_batch.
  pose proof (page_try_embed_frame st (take BATCH_SIZE (drop i valid)))
    as (Hdb & Hlog & _).
  destruct (try_embed enc UUID st _) as [st1 []]; cbn [fst] in *.
  - assert (I1 : only_logged NAME st1)
      by (eapply only_logged_extend; [exact Hdb | exact Hlog | exact I]).
    destruct (_ <=? _)%nat; [apply page_flush_only_logged |]; exact I1.
  - eapply only_logged_extend; [exact Hdb | exact Hlog | exact I].
Qed.

Lemma page_loop_only_logged valid starts (st : State) :
  only_logged NAME st ->
  only_logged NAME (fold_left (for_batch NAME enc ok UUID valid) starts st).
Proof.
  revert st. induction starts as [| i starts IH]; intros st I; cbn; [exact I |].
  apply IH, page_for_batch_only_logged, I.
Qed.

Lemma page_flush_rest_only_logged (st : State) :
  only_logged NAME st -> only_logged NAME (fst (flush_rest NAME ok st)).
Proof.
  intros I. unfold flush_rest. destruct (run_points st); [exact I |].
  pose proof (client_upsert_only_logged ok NAME st I) as I1.
  destruct (client_upsert ok NAME st) as [st1 []]; exact I1.
Qed.

(** When the collection is empty at the start, every point stored at
    the end of [process_pages] was handed to [upsert] during the run. *)
Lemma process_pages_only_logged pages db :
  stored NAME db = ∅ ->
  only_logged NAME (fst (process_pages NAME enc ok UUID pages db)).
Proof.
  intros Hdb. unfold process_pages.
  destruct (select_pages pages) as [valid skipped].
  apply page_flush_rest_only_logged, page_loop_only_logged.
  intros i p H. cbn [run_db] in H. rewrite Hdb, lookup_empty in H. discriminate.
Qed.

End Facts.

End page_writer.

(** ** Order of the embedded pages (vector_store.py) *)

Module page_order.

Import Qdrant pages_json vector_store upsert_facts.

(** The pages that go into the loop are the pages whose text is not
    blank, each with its text, in the order of the input. *)
Lemma select_pages_filter pages :
  fst (select_pages pages)
  = List.filter (fun pt => strip_truthy (snd pt))
                (List.map (fun p => (p, prepare_text_for_embedding p)) pages).
Proof.
  unfold select_pages.
  assert (G : forall acc,
             fst (fold_left for_page pages acc)
             = fst acc
               ++ List.filter (fun pt => strip_truthy (snd pt))
                    (List.map (fun p => (p, prepare_text_for_embedding p)) pages)).
  { induction pages as [| p pages IH]; intros acc.
    - cbn. symmetry. apply app_nil_r.
    - cbn [fold_left List.map List.filter snd]. rewrite IH. unfold for_page.
      destruct (strip_truthy (prepare_text_for_embedding p)); cbn [fst snd].
      + rewrite <- app_assoc. reflexivity.
      + reflexivity. }
  rewrite G. reflexivity.
Qed.


Section Facts.

Variable NAME : string.
Variable enc : nat -> EncodeRequest -> option (list Vec).
Variable ok : nat -> bool.
Variable UUID : string -> option string.
Variable embed : string -> Vec.

(** The model returns one vector per sentence, in the order of the
    sentences. *)
Hypothesis model_contract :
  forall n r vs, enc n r = Some vs -> vs = List.map embed (sentences r).

Local Abbreviation State := (Run Stats PagePayload).

Local Abbreviation has_uuid := (has_uuid UUID).






(** The [try] block of a batch whose model call fails: nothing but the
    call itself. *)
Lemma try_embed_fail (st : State) b :
  enc (run_encodes st) (request_of b) = None ->
  try_embed enc UUID st b
  = (mkRun (run_stats st) (run_points st) (run_db st) (S (run_encodes st))
           (run_upserts st) (run_log st ++ [Encode (request_of b)]),
     false).
Proof.
  intros H. unfold try_embed, embed_batch. fold (request_of b).
  rewrite H. reflexivity.
Qed.

(** A batch whose model call fails adds [BATCH_SIZE] to the error
    counter, whatever the number of its pages, and makes no point. *)
Lemma for_batch_failed valid (st : State) i :
  enc (run_encodes st) (request_of (batch_at valid i)) = None ->
  let st' := for_batch NAME enc ok UUID valid st i in
  errors (run_stats st') = (errors (run_stats st) + BATCH_SIZE)%nat
  /\ processed (run_stats st') = processed (run_stats st)
  /\ run_points st' = run_points st.
Proof.
  intros H. unfold for_batch. fold (batch_at valid i).
  rewrite (try_embed_fail st _ H). cbn. auto.
Qed.

(** *** The upsert inside the loop *)

Lemma flush_frame (st : State) :
  let st' := flush NAME ok st in
  run_encodes st' = run_encodes st
  /\ processed (run_stats st') = processed (run_stats st)
  /\ encoded (run_log st') = encoded (run_log st)
  /\ run_points st' = [].
Proof.
  unfold flush.
  destruct (client_upsert_shape ok NAME st) as (db1 & b1 & -> & _).
  destruct b1; cbn.
  - rewrite encoded_app. cbn. rewrite app_nil_r. auto.
  - match goal with
    | |- context [client_upsert ok NAME ?s] =>
        destruct (client_upsert_shape ok NAME s) as (db2 & b2 & -> & _)
    end.
    destruct b2; cbn; rewrite !encoded_app; cbn; rewrite !app_nil_r; auto.
Qed.

(** *** One turn of the loop *)

Variable valid : list (PageRecord * string).
Hypothesis valid_ids : Forall has_uuid valid.




(** *** When the index takes every batch *)

Hypothesis index_up : forall n, ok n = true.





End Facts.

End page_order.

(** ** The code pipeline (code_embedder.py) *)

Module code_writer.

Import Qdrant code_embedder upsert_facts.

Section Facts.

Variable enc : nat -> EncodeRequest -> option (list Vec).
Variable ok : nat -> bool.
Variable md5 : string -> string.
Variable info : string -> SwiftInfo.

Local Abbreviation State := (Run Stats CodePayload).

(** *** The index at the start of a run *)

Lemma code_init_qdrant_fresh (db : gmap string (Collection CodePayload)) :
  init_qdrant true db
  = Some (<[COLLECTION_NAME :=
              mkCollection (mkVectorParams VECTOR_DIM COSINE) ∅
                           [("module"%string, KEYWORD);
                            ("lines"%string, INTEGER)]]>
            (delete COLLECTION_NAME db)).
Proof.
  unfold init_qdrant, exists_collection, delete_collection.
  assert (E : forall d : gmap string (Collection CodePayload),
             d !! COLLECTION_NAME = None ->
             match create_collection COLLECTION_NAME
                                     (mkVectorParams VECTOR_DIM COSINE) d with
             | Some db2 =>
                 match create_payload_index COLLECTION_NAME "module" KEYWORD db2 with
                 | Some db3 => create_payload_index COLLECTION_NAME "lines" INTEGER db3
                 | None => None
                 end
             | None => None
             end
             = Some (<[COLLECTION_NAME :=
                         mkCollection (mkVectorParams VECTOR_DIM COSINE) ∅
                                      [("module"%string, KEYWORD);
                                       ("lines"%string, INTEGER)]]> d)).
  { intros d Hd. unfold create_collection. rewrite Hd.
    unfold create_payload_index. rewrite lookup_insert_eq. cbn.
    rewrite lookup_insert_eq. cbn. rewrite !insert_insert_eq. reflexivity. }
  case_bool_decide as H.
  - apply E, lookup_delete_eq.
  - apply eq_None_not_Some in H. rewrite (E db H).
    rewrite (delete_id db COLLECTION_NAME H). reflexivity.
Qed.

(** Without [recreate], an existing collection is used as it is. *)
Lemma init_qdrant_reuse (db : gmap string (Collection CodePayload)) c :
  db !! COLLECTION_NAME = Some c -> init_qdrant false db = Some db.
Proof.
  intros H. unfold init_qdrant, exists_collection.
  rewrite bool_decide_eq_true_2 by (rewrite H; eauto). reflexivity.
Qed.

(** *** What the steps of the loop leave alone *)

Lemma code_append_points_frame (st : State) zipped :
  let st' := append_points md5 st zipped in
  run_db st' = run_db st /\ run_log st' = run_log st
  /\ run_encodes st' = run_encodes st /\ run_upserts st' = run_upserts st
  /\ errors (run_stats st') = errors (run_stats st).
Proof.
  unfold append_points. revert st.
  induction zipped as [| [item v] zipped IH]; intros st; cbn; [auto |].
  match goal with
  | |- context [fold_left _ zipped ?s] => specialize (IH s)
  end.
  cbn in IH. exact IH.
Qed.

Lemma code_try_embed_frame (st : State) batch :
  let st' := fst (try_embed enc md5 st batch) in
  run_db st' = run_db st
  /\ run_log st'
     = run_log st ++ [Encode (mkEncode (List.map snd batch)
                                       (length (List.map snd batch))
                                       MAX_TEXT_LENGTH true false false)]
  /\ run_encodes st' = S (run_encodes st)
  /\ run_upserts st' = run_upserts st
  /\ errors (run_stats st') = errors (run_stats st).
Proof.
  unfold try_embed. destruct (embed_batch enc _ _) as [vs |]; cbn [fst].
  - match goal with
    | |- context [append_points md5 ?s ?z] =>
        pose proof (code_append_points_frame s z) as F
    end.
    cbn in F. exact F.
  - cbn. auto.
Qed.

Lemma code_flush_only_logged (st : State) :
  only_logged COLLECTION_NAME st ->
  only_logged COLLECTION_NAME (flush ok st).
Proof.
  intros I. unfold flush.
  pose proof (client_upsert_only_logged ok COLLECTION_NAME st I) as I1.
  destruct (client_upsert ok COLLECTION_NAME st) as [st1 []];
    cbn [fst] in I1; exact I1.
Qed.

Lemma code_for_batch_only_logged valid (st : State) i :
  only_logged COLLECTION_NAME st ->
  only_logged COLLECTION_NAME (for_batch enc ok md5 valid st i).
Proof.
  intros I. unfold for_batch.
  pose proof (code_try_embed_frame st (take BATCH_SIZE (drop i valid)))
    as (Hdb & Hlog & _).
  destruct (try_embed enc md5 st _) as [st1 []]; cbn [fst] in *.
  - assert (I1 : only_logged COLLECTION_NAME st1)
      by (eapply only_logged_extend; [exact Hdb | exact Hlog | exact I]).
    destruct (_ <=? _)%nat; [apply code_flush_only_logged |]; exact I1.
  - eapply only_logged_extend; [exact Hdb | exact Hlog | exact I].
Qed.

Lemma code_loop_only_logged valid starts (st : State) :
  only_logged COLLECTION_NAME st ->
  only_logged COLLECTION_NAME (fold_left (for_batch enc ok md5 valid) starts st).
Proof.
  revert st. induction starts as [| i starts IH]; intros st I; cbn; [exact I |].
  apply IH, code_for_batch_only_logged, I.
Qed.

Lemma code_flush_rest_only_logged (st : State) :
  only_logged COLLECTION_NAME st ->
  only_logged COLLECTION_NAME (fst (flush_rest ok st)).
Proof.
  intros I. unfold flush_rest. destruct (run_points st); [exact I |].
  pose proof (client_upsert_only_logged ok COLLECTION_NAME st I) as I1.
  destruct (client_upsert ok COLLECTION_NAME st) as [st1 []]; exact I1.
Qed.

(** When the collection is empty at the start, every point stored at
    the end of [process_files] was handed to [upsert] during the run. *)
Lemma process_files_only_logged files db :
  stored COLLECTION_NAME db = ∅ ->
  only_logged COLLECTION_NAME (fst (process_files enc ok md5 info files db)).
Proof.
  intros Hdb. unfold process_files.
  destruct (fold_left _ files _) as [valid stats].
  apply code_flush_rest_only_logged, code_loop_only_logged.
  intros i p H. cbn [run_db] in H. rewrite Hdb, lookup_empty in H. discriminate.
Qed.

End Facts.

End code_writer.

(** * The claims *)

Module claims.

Import Neo4j Qdrant runs.

(** ** C1 *)

(** C1, on the page resolver.  Two pages that are each other's nearest
    neighbour with similarity 0.9: [similarity_edges.create_similarity_edges]
    has no rule on the order of the two ids, and sends the edge in both
    directions; both relationships are in the graph afterwards. *)
Theorem C1_page_resolver_sends_both_directions :
  let run := similarity_edges.create_similarity_edges
               (Qmake 75 100) (mutual_query (Qmake 9 10)) two_pages
               [point_a; point_b] in
  snd run = Returned
  /\ emitted (calls (fst run))
     = [(id_a, id_b, Qmake 900 1000); (id_b, id_a, Qmake 900 1000)]
  /\ rels (graph (fst run))
     = [mkRel SIMILAR_TO 0 1 (Some (Qmake 900 1000));
        mkRel SIMILAR_TO 1 0 (Some (Qmake 900 1000))]
  /\ stats (fst run) = mkEdgeStats 2 0.
Proof. vm_compute. repeat split; reflexivity. Qed.

(** ** C5 *)

(** C5 fails on both resolvers.  Code resolver: after a pass over one
    point whose query failed, the counters are what they were before the
    pass; they have no entry for errors.  Page resolver: the failure of
    the first query leaves the function as an exception, and the second
    point is never queried. *)
Lemma C5_failed_query_counterexample :
  stats (code_graph_builder.create_similarity_edges
           (first_query_fails [hit_model (Qmake 1 1); hit_view (Qmake 9 10)])
           graph_with_stale_edge [point_view])
  = mkEdgeStats 0 0
  /\ (let run := similarity_edges.create_similarity_edges
                   (Qmake 75 100)
                   (first_query_fails [hit_b (Qmake 1 1); hit_a (Qmake 9 10)])
                   two_pages [point_a; point_b] in
      snd run = Raised
      /\ queried (calls (fst run)) = [(vec_a, 6%nat)]
      /\ stats (fst run) = mkEdgeStats 0 0).
Proof. vm_compute. repeat split; reflexivity. Qed.

(** C5, amended.  In the code resolver a query that fails for one point
    changes neither the graph nor the counters and sends no edge; the
    pass goes on with the points that follow. *)
Theorem C5_code_resolver_skips_failed_query
        (qp : nat -> Vec -> nat -> option (list (ScoredPoint CodePayload)))
        (g : Graph) (before : list (PointStruct CodePayload))
        (point : PointStruct CodePayload)
        (after : list (PointStruct CodePayload)) :
  qp (length before) (vector point) (code_graph_builder.TOP_K_SIMILAR + 1)%nat
  = None ->
  let st := code_graph_builder.create_similarity_edges qp g before in
  let st' := code_graph_builder.for_point qp st point in
  graph st' = graph st
  /\ stats st' = stats st
  /\ emitted (calls st') = emitted (calls st)
  /\ code_graph_builder.create_similarity_edges qp g (before ++ point :: after)
     = fold_left (code_graph_builder.for_point qp) after st'.
Proof.
  intros Hq st st'.
  assert (E : st' = mkPass (graph st) (stats st) (S (queries st))
                      (calls st ++ [QueryPoints (vector point)
                                      (code_graph_builder.TOP_K_SIMILAR + 1)])).
  { subst st'. unfold code_graph_builder.for_point.
    subst st. rewrite code_resolver.code_pass_queries, Hq. reflexivity. }
  split; [rewrite E; reflexivity |].
  split; [rewrite E; reflexivity |].
  split.
  - rewrite E. cbn [calls]. rewrite emitted_app. cbn. apply app_nil_r.
  - unfold code_graph_builder.create_similarity_edges.
    rewrite fold_left_app. reflexivity.
Qed.

(** The amended C5 on a pass whose first query fails. *)
Lemma C5_code_resolver_skips_failed_query_witness :
  let qp := first_query_fails [hit_model (Qmake 1 1); hit_view (Qmake 9 10)] in
  let st := code_graph_builder.create_similarity_edges qp graph_with_stale_edge [] in
  let st' := code_graph_builder.for_point qp st point_view in
  graph st' = graph st
  /\ stats st' = stats st
  /\ emitted (calls st') = emitted (calls st)
  /\ code_graph_builder.create_similarity_edges
       qp graph_with_stale_edge ([] ++ point_view :: [point_model])
     = fold_left (code_graph_builder.for_point qp) [point_model] st'.
Proof.
  apply (C5_code_resolver_skips_failed_query
           (first_query_fails [hit_model (Qmake 1 1); hit_view (Qmake 9 10)])
           graph_with_stale_edge [] point_view [point_model]).
  reflexivity.
Defined.

(** ** C6 *)

(** C6, on the code resolver.  A SIMILAR_TO relationship with score 0.95
    is in the graph from an earlier run; in the current run the two
    files have similarity 0.5, below the threshold.
    [code_graph_builder.create_similarity_edges] deletes nothing: the
    relationship is still there afterwards, with its old score. *)
Theorem C6_code_resolver_keeps_stale_edge :
  let st := code_graph_builder.create_similarity_edges
              (mutual_code_query (Qmake 5 10)) graph_with_stale_edge
              [point_view; point_model] in
  emitted (calls st) = []
  /\ rels (graph st) = [mkRel SIMILAR_TO 0 1 (Some (Qmake 95 100))]
  /\ stats st = mkEdgeStats 0 2.
Proof. vm_compute. repeat split; reflexivity. Qed.

(** ** C7 *)




(** ** C8 *)

(** What bounds the edges of a pivot: a resolver sends one query, for
    one more hit than its K, and leaves the pivot out by comparing
    identities.  When the index returns no more hits than asked for and
    the pivot is among them, at most K edges come from the pivot; nothing
    else cuts the candidates down to K. *)
Lemma pivot_among_hits_bound
      (th : Q)
      (qp : nat -> Vec -> nat -> option (list (ScoredPoint PagePayload)))
      (st : Pass) (point : PointStruct PagePayload)
      (hits : list (ScoredPoint PagePayload))
      (qc : nat -> Vec -> nat -> option (list (ScoredPoint CodePayload)))
      (stc : Pass) (pointc : PointStruct CodePayload)
      (hitsc : list (ScoredPoint CodePayload)) :
  let notion_id := get (Qdrant.notion_id (payload point)) "" in
  let K := similarity_edges.TOP_K in
  let Kc := code_graph_builder.TOP_K_SIMILAR in
  str_truthy notion_id = true ->
  qp (queries st) (vector point) (K + 1)%nat = Some hits ->
  (length hits <= K + 1)%nat ->
  qc (queries stc) (vector pointc) (Kc + 1)%nat = Some hitsc ->
  (length hitsc <= Kc + 1)%nat ->
  (one_query_at_most st (fst (similarity_edges.for_point th qp st point))
                     (vector point) (K + 1)
                     (length (page_candidates notion_id hits))
   /\ ((exists h, In h hits
                  /\ get (Qdrant.notion_id (hit_payload h)) "" = notion_id) ->
       (length (page_candidates notion_id hits) <= K)%nat))
  /\ (one_query_at_most stc (code_graph_builder.for_point qc stc pointc)
                        (vector pointc) (Kc + 1)
                        (length (code_candidates (id pointc) hitsc))
      /\ ((exists h, In h hitsc /\ hit_id h = id pointc) ->
          (length (code_candidates (id pointc) hitsc) <= Kc)%nat)).
Proof.
  intros notion_id K Kc Hn Hq Hlen Hqc Hlenc. split; split.
  - apply page_resolver.page_pivot; assumption.
  - intros (h & Hin & Hself).
    assert ((length (page_candidates notion_id hits) < length hits)%nat);
      [| lia].
    apply (filter_length_lt _ _ h Hin).
    rewrite Hself, String.eqb_refl. reflexivity.
  - apply code_resolver.code_pivot; assumption.
  - intros (h & Hin & Hself).
    assert ((length (code_candidates (id pointc) hitsc) < length hitsc)%nat);
      [| lia].
    apply (filter_length_lt _ _ h Hin).
    rewrite Hself, String.eqb_refl. reflexivity.
Qed.

(** C8 fails when the pivot is not among the hits of its own query.
    [TOP_K = 5], "the top 5 of each page", and the page resolver asks
    for [TOP_K + 1 = 6] hits to make up for the pivot; the index returns
    six pages other than the pivot, none is left out by the comparison
    of identities, and six edges are sent and created from this one
    pivot. *)
Theorem C8_six_edges_from_one_pivot :
  let run := similarity_edges.create_similarity_edges
               (Qmake 75 100) (always six_neighbours) seven_pages [point_a] in
  similarity_edges.TOP_K = 5%nat
  /\ queried (calls (fst run)) = [(vec_a, 6%nat)]
  /\ length six_neighbours = 6%nat
  /\ Forall (fun h => get (Qdrant.notion_id (hit_payload h)) "" <> id_a)
            six_neighbours
  /\ length (page_candidates id_a six_neighbours) = 6%nat
  /\ length (emitted (calls (fst run))) = 6%nat
  /\ stats (fst run) = mkEdgeStats 6 0
  /\ snd run = Returned.
Proof.
  vm_compute. repeat split; try reflexivity.
  repeat constructor; discriminate.
Qed.

(** ** C2 *)

(** C2 fails on the page pipeline: [graph_builder.create_page_nodes]
    uses CREATE, not MERGE.  On the graph as [main] prepares it, a page
    is materialized; materializing the same record again is refused by
    the constraint and counted as an error, and materializing it after an
    edit of its title is refused too and leaves the old title in the
    node.  Merging by id, as the claim has it, would count no error and
    would leave the new title.  A page whose word count does not fit in
    64 bits is counted as an error at its first materialization and gets
    no node at all. *)
Lemma C2_create_is_not_merge_counterexample :
  let once := graph_builder.create_page_nodes cleared [page_v1] in
  let again := graph_builder.create_page_nodes (fst once) [page_v1] in
  let edited := graph_builder.create_page_nodes (fst once) [page_v2] in
  let huge := graph_builder.create_page_nodes cleared [page_huge; page_huge] in
  snd once = graph_builder.mkNodeStats 1 0
  /\ snd again = graph_builder.mkNodeStats 0 1
  /\ snd edited = graph_builder.mkNodeStats 0 1
  /\ nodes (fst edited)
     = [mkNode Page id_a (OfPage (graph_builder.page_props page_v1))]
  /\ nodes (materialize_by_merge (fst once) page_v2)
     = [mkNode Page id_a (OfPage (graph_builder.page_props page_v2))]
  /\ fst edited <> materialize_by_merge (fst once) page_v2
  /\ snd huge = graph_builder.mkNodeStats 0 2
  /\ nodes (fst huge) = [].
Proof.
  vm_compute. repeat split; try reflexivity. intros H. discriminate H.
Qed.

(** C2, amended.  Materializing a document twice never leaves two
    nodes, and leaves one whenever the store takes the first statement.
    In the page pipeline this is the work of the uniqueness constraint on
    [Page.id]: for a page whose integers the driver can send, the first
    CREATE adds the node, the second is refused and counted as an error,
    and the graph is as the first left it; a page with an integer
    outside 64 bits is counted as an error and leaves the graph as it
    was.  In the code pipeline node creation is a MERGE keyed by the
    path: creating the node again gives the graph that creating it once
    with the later attributes gives, and adds no node when there was
    one. *)
Theorem C2_one_node_per_document
        (g : Graph) (page page' : pages_json.PageRecord) (i : string)
        (gc : Graph) (point point' : PointStruct CodePayload) :
  pages_json.page_id page = Some i ->
  pages_json.page_id page' = Some i ->
  unique g Page = true ->
  count_nodes Page i g = 0%nat ->
  relative_path (payload point') = relative_path (payload point) ->
  (let r1 := graph_builder.create_page_nodes g [page] in
   let r2 := graph_builder.create_page_nodes (fst r1) [page'] in
   (count_nodes Page i (fst r2) <= 1)%nat
   /\ (graph_builder.sendable page = true ->
       nodes (fst r1)
       = nodes g ++ [mkNode Page i (OfPage (graph_builder.page_props page))]
       /\ snd r1 = graph_builder.mkNodeStats 1 0
       /\ fst r2 = fst r1
       /\ snd r2 = graph_builder.mkNodeStats 0 1
       /\ count_nodes Page i (fst r2) = 1%nat)
   /\ (graph_builder.sendable page = false ->
       fst r1 = g /\ snd r1 = graph_builder.mkNodeStats 0 1))
  /\ (let path := get (relative_path (payload point)) "" in
      let r1 := code_graph_builder.create_code_nodes gc [point] in
      let r2 := code_graph_builder.create_code_nodes (fst r1) [point'] in
      fst r2 = fst (code_graph_builder.create_code_nodes gc [point'])
      /\ code_graph_builder.nodes_created (snd r2) = 1%nat
      /\ code_graph_builder.nodes_errors (snd r2) = 0%nat
      /\ count_nodes CodeFile path (fst r1) = Nat.max 1 (count_nodes CodeFile path gc)
      /\ count_nodes CodeFile path (fst r2) = count_nodes CodeFile path (fst r1)).
Proof.
  intros Hi Hi' Hu Hc Hpath. split.
  - set (g1 := mkGraph (nodes g ++ [mkNode Page i (OfPage (graph_builder.page_props page))])
                       (rels g) (unique_on g)).
    assert (Hc1 : count_nodes Page i g1 = 1%nat).
    { subst g1. rewrite node_facts.count_nodes_created, Hc. reflexivity. }
    assert (H2 : graph_builder.create_page_nodes g1 [page']
                 = (g1, graph_builder.mkNodeStats 0 1)).
    { unfold graph_builder.create_page_nodes. cbn [fold_left].
      unfold graph_builder.for_page. rewrite Hi'.
      destruct (graph_builder.sendable page'); [| reflexivity].
      rewrite node_facts.create_node_refused; [reflexivity | exact Hu |].
      rewrite Hc1. discriminate. }
    destruct (graph_builder.sendable page) eqn:Es.
    + assert (H1 : graph_builder.create_page_nodes g [page]
                   = (g1, graph_builder.mkNodeStats 1 0)).
      { unfold graph_builder.create_page_nodes. cbn [fold_left].
        unfold graph_builder.for_page. rewrite Hi, Es.
        rewrite (node_facts.create_node_fresh _ _ _ _ Hc). reflexivity. }
      rewrite H1. cbn [fst snd]. rewrite H2. cbn [fst snd].
      split; [rewrite Hc1; lia |].
      split; [intros _; repeat split; exact Hc1 | discriminate].
    + assert (H1 : graph_builder.create_page_nodes g [page]
                   = (g, graph_builder.mkNodeStats 0 1)).
      { unfold graph_builder.create_page_nodes. cbn [fold_left].
        unfold graph_builder.for_page. rewrite Hi, Es. reflexivity. }
      rewrite H1. cbn [fst snd].
      split; [| split; [discriminate | intros _; split; reflexivity]].
      unfold graph_builder.create_page_nodes. cbn [fold_left].
      unfold graph_builder.for_page. rewrite Hi'.
      destruct (graph_builder.sendable page'); [| cbn [fst]; rewrite Hc; lia].
      rewrite (node_facts.create_node_fresh _ _ _ _ Hc). cbn [fst].
      rewrite node_facts.count_nodes_created, Hc. lia.
  - unfold code_graph_builder.create_code_nodes. cbn [fold_left].
    unfold code_graph_builder.for_code_node. cbn [fst snd].
    rewrite Hpath. rewrite node_facts.merge_node_twice.
    repeat split.
    + apply node_facts.merge_node_count.
    + rewrite !node_facts.merge_node_count.
      destruct (count_nodes CodeFile _ gc); cbn; lia.
Qed.

(** The amended C2 on a page read twice and a file node created twice. *)
Lemma C2_one_node_per_document_witness :
  (let r1 := graph_builder.create_page_nodes cleared [page_v1] in
   let r2 := graph_builder.create_page_nodes (fst r1) [page_v2] in
   nodes (fst r1)
   = nodes cleared ++ [mkNode Page id_a (OfPage (graph_builder.page_props page_v1))]
   /\ snd r1 = graph_builder.mkNodeStats 1 0
   /\ fst r2 = fst r1
   /\ snd r2 = graph_builder.mkNodeStats 0 1
   /\ count_nodes Page id_a (fst r2) = 1%nat)
  /\ (let path := get (relative_path (payload point_view)) "" in
      let r1 := code_graph_builder.create_code_nodes graph_with_stale_edge [point_view] in
      let r2 := code_graph_builder.create_code_nodes (fst r1) [point_view] in
      fst r2 = fst (code_graph_builder.create_code_nodes graph_with_stale_edge [point_view])
      /\ code_graph_builder.nodes_created (snd r2) = 1%nat
      /\ code_graph_builder.nodes_errors (snd r2) = 0%nat
      /\ count_nodes CodeFile path (fst r1)
         = Nat.max 1 (count_nodes CodeFile path graph_with_stale_edge)
      /\ count_nodes CodeFile path (fst r2) = count_nodes CodeFile path (fst r1)).
Proof.
  destruct (C2_one_node_per_document
              cleared page_v1 page_v2 id_a
              graph_with_stale_edge point_view point_view
              eq_refl eq_refl eq_refl eq_refl eq_refl)
    as [(_ & Hpage & _) Hcode].
  split; [exact (Hpage eq_refl) | exact Hcode].
Defined.

(** ** C3 *)

(** The upsert inside the loop of the page pipeline: when it fails, it
    is followed by a delay of two seconds and one second attempt with
    the same points; the buffer is emptied either way, so that the loop
    goes on with the next batch.  When the second attempt gets through,
    the points are stored and the error counter is unchanged; when it
    fails too, the index is unchanged and the error counter grows by the
    number of points. *)
Lemma page_flush_retries_once
      (NAME : string) (ok : nat -> bool)
      (st : Run vector_store.Stats PagePayload)
      (c : Collection PagePayload) :
  run_db st !! NAME = Some c ->
  ok (run_upserts st) = false ->
  let pts := run_points st in
  let st' := vector_store.flush NAME ok st in
  run_log st' = run_log st ++ [Upsert NAME pts; Sleep 2; Upsert NAME pts]
  /\ run_upserts st' = S (S (run_upserts st))
  /\ run_points st' = []
  /\ (ok (S (run_upserts st)) = true ->
      vector_store.errors (run_stats st') = vector_store.errors (run_stats st)
      /\ stored NAME (run_db st') = upsert_points pts (points c))
  /\ (ok (S (run_upserts st)) = false ->
      vector_store.errors (run_stats st')
      = (vector_store.errors (run_stats st) + length pts)%nat
      /\ run_db st' = run_db st).
Proof.
  intros Hc Hfail pts st'.
  subst pts st'. unfold vector_store.flush.
  rewrite (upsert_facts.client_upsert_false ok NAME st Hfail).
  destruct (ok (S (run_upserts st))) eqn:Hretry.
  - erewrite upsert_facts.client_upsert_true; [| exact Hretry | exact Hc].
    cbn. rewrite <- !app_assoc. cbn.
    split; [reflexivity |]. split; [reflexivity |]. split; [reflexivity |].
    split; [| discriminate].
    intros _. split; [reflexivity |].
    unfold stored. rewrite lookup_insert_eq. reflexivity.
  - rewrite upsert_facts.client_upsert_false by exact Hretry.
    cbn. rewrite <- !app_assoc. cbn.
    split; [reflexivity |]. split; [reflexivity |]. split; [reflexivity |].
    split; [discriminate |].
    intros _. split; reflexivity.
Qed.

(** C3 fails at the upsert of the remainder after the loop, which is
    not guarded in either pipeline.  One document is embedded and the
    index refuses the upsert: [process_pages] and [process_files] are
    left by the exception after a single attempt, with no delay, no
    retry and nothing added to the error counter, so that the run does
    not go on.  The upsert inside the loop of [process_pages], at the
    same index and with a buffer of two points, makes its two attempts
    with the delay in between, drops the two points, counts them as
    errors and leaves the run going. *)
Theorem C3_final_upsert_aborts_run :
  (let run := vector_store.process_pages "notion_pages" model_up index_down
                                         uuid_str [page_v1] fresh_pages in
   snd run = Raised
   /\ length (upsert_batches (run_log (fst run))) = 1%nat
   /\ List.filter (fun c => match c with Sleep _ => true | _ => false end)
                  (run_log (fst run)) = []
   /\ run_upserts (fst run) = 1%nat
   /\ vector_store.errors (run_stats (fst run)) = 0%nat)
  /\ (let run := code_embedder.process_files model_up index_down toy_md5
                                             toy_info [swift_file "A.swift"]
                                             fresh_code in
      snd run = Raised
      /\ length (upsert_batches (run_log (fst run))) = 1%nat
      /\ run_upserts (fst run) = 1%nat
      /\ code_embedder.errors (run_stats (fst run)) = 0%nat)
  /\ (let st' := vector_store.flush "notion_pages" index_down two_buffered in
      run_log st'
      = run_log two_buffered
        ++ [Upsert "notion_pages" [point_a; point_b]; Sleep 2;
            Upsert "notion_pages" [point_a; point_b]]
      /\ run_points st' = []
      /\ vector_store.errors (run_stats st')
         = (vector_store.errors (run_stats two_buffered) + 2)%nat).
Proof. vm_compute. repeat split; reflexivity. Qed.

(** ** C4 *)

(** C4, on both embedding pipelines.  Five documents make a batch of
    four and a batch of one; the model call for the second batch fails.
    One document is dropped, and the error counter grows by
    [BATCH_SIZE = 4]: the counters of a run over five documents report
    four processed and four errors. *)
Theorem C4_short_batch_counted_as_full :
  (let run := vector_store.process_pages "notion_pages" second_call_fails
                                         index_up uuid_str five_pages
                                         fresh_pages in
   snd run = Returned
   /\ length (dropped second_call_fails
                      (fst (vector_store.select_pages five_pages))) = 1%nat
   /\ run_stats (fst run) = vector_store.mkStats 5 4 0 4)
  /\ (let run := code_embedder.process_files second_call_fails index_up
                                             toy_md5 toy_info five_files
                                             fresh_code in
      snd run = Returned
      /\ code_embedder.total (run_stats (fst run)) = 5%nat
      /\ code_embedder.processed (run_stats (fst run)) = 4%nat
      /\ code_embedder.skipped_empty (run_stats (fst run)) = 0%nat
      /\ code_embedder.errors (run_stats (fst run)) = 4%nat).
Proof. vm_compute. repeat split; reflexivity. Qed.

(** ** C9 *)







(** ** C10 *)

(** C10 fails for a run of the code pipeline that finds no Swift file:
    [main] returns before [init_qdrant] is called, so the collection of
    an earlier run is neither deleted nor created anew and still holds
    its point, where [init_qdrant] would have left it empty. *)
Lemma C10_no_files_counterexample :
  code_embedder.main model_up index_up toy_md5 toy_info [] stale_code
  = Some None
  /\ stored code_embedder.COLLECTION_NAME stale_code !! uuid_view
     = Some point_view
  /\ (exists fresh,
        code_embedder.init_qdrant true stale_code = Some fresh
        /\ stored code_embedder.COLLECTION_NAME fresh !! uuid_view = None).
Proof.
  split; [reflexivity |]. split; [vm_compute; reflexivity |].
  eexists. split; [apply code_writer.code_init_qdrant_fresh |].
  unfold stored. rewrite lookup_insert_eq. reflexivity.
Qed.

(** C10, amended.  [init_qdrant] returns, whatever the index held, an
    index in which the collection exists and holds no point.  [main] of
    the page pipeline always runs the embedding on that index; [main] of
    the code pipeline does so (it calls [init_qdrant] with
    [recreate=True]) when at least one Swift file was found, and returns
    without touching the index when none was.  Hence every point that is
    in the collection when an embedding ends was handed to [upsert]
    during this run: no upsert of the run meets a point of an earlier
    run. *)
Theorem C10_run_starts_from_empty_collection
        (NAME : string) (DIM : Z)
        (enc : nat -> EncodeRequest -> option (list Vec)) (ok : nat -> bool)
        (UUID : string -> option string)
        (pages : list pages_json.PageRecord)
        (db : gmap string (Collection PagePayload))
        (encc : nat -> EncodeRequest -> option (list Vec)) (okc : nat -> bool)
        (md5 : string -> string) (info : string -> code_embedder.SwiftInfo)
        (files : list code_embedder.SwiftFile)
        (dbc : gmap string (Collection CodePayload)) :
  let fresh :=
    <[NAME := mkCollection (mkVectorParams DIM COSINE) ∅
                           [("word_count"%string, INTEGER)]]> (delete NAME db) in
  let freshc :=
    <[code_embedder.COLLECTION_NAME :=
        mkCollection (mkVectorParams code_embedder.VECTOR_DIM COSINE) ∅
                     [("module"%string, KEYWORD); ("lines"%string, INTEGER)]]>
      (delete code_embedder.COLLECTION_NAME dbc) in
  vector_store.init_qdrant NAME DIM db = Some fresh
  /\ stored NAME fresh = ∅
  /\ vector_store.main NAME DIM enc ok UUID pages db
     = Some (vector_store.process_pages NAME enc ok UUID pages fresh)
  /\ only_logged NAME (fst (vector_store.process_pages NAME enc ok UUID pages fresh))
  /\ code_embedder.init_qdrant true dbc = Some freshc
  /\ stored code_embedder.COLLECTION_NAME freshc = ∅
  /\ code_embedder.main encc okc md5 info files dbc
     = match files with
       | [] => Some None
       | _ :: _ =>
           Some (Some (code_embedder.process_files encc okc md5 info files freshc))
       end
  /\ only_logged code_embedder.COLLECTION_NAME
                 (fst (code_embedder.process_files encc okc md5 info files freshc)).
Proof.
  intros fresh freshc.
  assert (Hs : stored NAME fresh = ∅)
    by (unfold stored; subst fresh; rewrite lookup_insert_eq; reflexivity).
  assert (Hsc : stored code_embedder.COLLECTION_NAME freshc = ∅)
    by (unfold stored; subst freshc; rewrite lookup_insert_eq; reflexivity).
  split; [apply page_writer.page_init_qdrant_fresh |].
  split; [exact Hs |].
  split; [unfold vector_store.main; rewrite page_writer.page_init_qdrant_fresh; reflexivity |].
  split; [apply page_writer.process_pages_only_logged, Hs |].
  split; [apply code_writer.code_init_qdrant_fresh |].
  split; [exact Hsc |].
  split.
  - unfold code_embedder.main. destruct files; [reflexivity |].
    rewrite code_writer.code_init_qdrant_fresh. reflexivity.
  - apply code_writer.process_files_only_logged, Hsc.
Qed.

End claims.

(** * Further properties of the resolvers *)

Module resolver_facts.

Import Neo4j Qdrant Neo4j_facts.

(** A MERGE of a relationship of type [t] leaves the relationships of
    the other types as they are, in their order. *)
Lemma merge_rel_others t s rs row :
  List.filter (fun r => negb (bool_decide (rel_type r = t))) (merge_rel t s rs row)
  = List.filter (fun r => negb (bool_decide (rel_type r = t))) rs.
Proof.
  destruct row as [i j]. unfold merge_rel.
  destruct (existsb (is_rel t i j) rs).
  - induction rs as [| r rs IH]; [reflexivity |].
    cbn [List.map List.filter]. rewrite IH. unfold set_score.
    destruct (is_rel t i j r) eqn:E; [| reflexivity].
    apply is_rel_true in E as (Ht & _ & _). cbn [rel_type].
    rewrite Ht. rewrite bool_decide_eq_true_2 by reflexivity. reflexivity.
  - rewrite List.filter_app. cbn.
    rewrite bool_decide_eq_true_2 by reflexivity. cbn. apply app_nil_r.
Qed.

Lemma merge_rel_between_others l t k1 k2 s g :
  delete_rels t (fst (merge_rel_between l t k1 k2 s g)) = delete_rels t g.
Proof.
  unfold delete_rels, merge_rel_between. cbn [fst nodes rels unique_on].
  f_equal.
  generalize (list_prod (match_nodes l k1 g) (match_nodes l k2 g)) as rows.
  generalize (rels g) as rs.
  intros rs rows. revert rs.
  induction rows as [| row rows IH]; intros rs; cbn [fold_left]; [reflexivity |].
  rewrite IH. apply merge_rel_others.
Qed.

(** After a MERGE between two keys, every pair of matched nodes is
    joined by a relationship that carries the score. *)
Lemma merge_rel_sets t s rs i j :
  exists r, In r (merge_rel t s rs (i, j))
            /\ is_rel t i j r = true /\ rel_score r = Some s.
Proof.
  unfold merge_rel. destruct (existsb (is_rel t i j) rs) eqn:E.
  - apply existsb_exists in E as (r & Hr & Hrel).
    exists (set_score t i j s r). split; [apply in_map, Hr |].
    unfold set_score. rewrite Hrel. cbn.
    apply is_rel_true in Hrel as (Ht & Hi & Hj).
    unfold is_rel. cbn. rewrite Ht, Hi, Hj, !Nat.eqb_refl.
    rewrite bool_decide_eq_true_2 by reflexivity. auto.
  - exists (mkRel t i j (Some s)). split; [apply in_or_app; right; left; reflexivity |].
    unfold is_rel. cbn. rewrite !Nat.eqb_refl.
    rewrite bool_decide_eq_true_2 by reflexivity. auto.
Qed.

Lemma merge_rel_keeps_set t s rs row i j :
  (exists r, In r rs /\ is_rel t i j r = true /\ rel_score r = Some s) ->
  exists r, In r (merge_rel t s rs row)
            /\ is_rel t i j r = true /\ rel_score r = Some s.
Proof.
  intros (r & Hr & Hrel & Hs). destruct row as [i' j']. unfold merge_rel.
  destruct (existsb (is_rel t i' j') rs).
  - exists (set_score t i' j' s r). split; [apply in_map, Hr |].
    unfold set_score. destruct (is_rel t i' j' r) eqn:E; [| auto].
    cbn. split; [| reflexivity].
    unfold is_rel in *. cbn. exact Hrel.
  - exists r. split; [apply in_or_app; auto | auto].
Qed.

Lemma fold_merge_rel_sets t s rows rs i j :
  In (i, j) rows ->
  exists r, In r (fold_left (merge_rel t s) rows rs)
            /\ is_rel t i j r = true /\ rel_score r = Some s.
Proof.
  revert rs. induction rows as [| row rows IH]; intros rs H; [destruct H |].
  cbn [fold_left]. destruct H as [-> | H]; [| apply IH, H].
  pose proof (merge_rel_sets t s rs i j) as H0.
  generalize dependent (merge_rel t s rs (i, j)). clear IH.
  induction rows as [| row rows IH]; intros rs' H0; cbn [fold_left]; [exact H0 |].
  apply IH, merge_rel_keeps_set, H0.
Qed.

Lemma match_nodes_count_pos l k g :
  count_nodes l k g <> 0%nat -> exists i, In i (match_nodes l k g).
Proof.
  unfold count_nodes. destruct (match_nodes l k g) as [| i m].
  - intros H. exfalso. apply H. reflexivity.
  - intros _. exists i. left. reflexivity.
Qed.

End resolver_facts.

Module pass_facts.

Import Neo4j Qdrant Neo4j_facts resolver_facts.

Lemma delete_rels_twice t g : delete_rels t (delete_rels t g) = delete_rels t g.
Proof.
  unfold delete_rels. cbn [nodes rels unique_on]. f_equal.
  induction (rels g) as [| r rs IH]; [reflexivity |].
  cbn. destruct (negb (bool_decide (rel_type r = t))) eqn:E; cbn; rewrite ?E, IH; reflexivity.
Qed.

Section Page.

Variable th : Q.
Variable qp : nat -> Vec -> nat -> option (list (ScoredPoint PagePayload)).

Lemma page_for_hit_others nid st h :
  delete_rels SIMILAR_TO (graph (similarity_edges.for_hit th nid st h))
  = delete_rels SIMILAR_TO (graph st).
Proof.
  unfold similarity_edges.for_hit.
  destruct (String.eqb _ nid); [reflexivity |].
  destruct (Qltb _ th); [reflexivity |].
  match goal with
  | |- context [merge_rel_between ?l ?t ?a ?b ?s ?g] =>
      pose proof (merge_rel_between_others l t a b s g) as H;
      destruct (merge_rel_between l t a b s g) as [g' n]
  end.
  exact H.
Qed.

Lemma page_for_hits_others nid hits st :
  delete_rels SIMILAR_TO (graph (fold_left (similarity_edges.for_hit th nid) hits st))
  = delete_rels SIMILAR_TO (graph st).
Proof.
  revert st. induction hits as [| h hits IH]; intros st; cbn; [reflexivity |].
  rewrite IH. apply page_for_hit_others.
Qed.

Lemma page_for_point_others st p :
  delete_rels SIMILAR_TO (graph (fst (similarity_edges.for_point th qp st p)))
  = delete_rels SIMILAR_TO (graph st).
Proof.
  unfold similarity_edges.for_point.
  destruct (negb (str_truthy _)); [reflexivity |].
  destruct (qp _ _ _) as [hits |]; cbn [fst]; [| reflexivity].
  rewrite page_for_hits_others. reflexivity.
Qed.

Lemma page_for_points_others pts st :
  delete_rels SIMILAR_TO (graph (fst (similarity_edges.for_points th qp st pts)))
  = delete_rels SIMILAR_TO (graph st).
Proof.
  revert st. induction pts as [| p pts IH]; intros st; cbn; [reflexivity |].
  pose proof (page_for_point_others st p) as H.
  destruct (similarity_edges.for_point th qp st p) as [st' []]; cbn [fst] in *.
  - rewrite IH. exact H.
  - exact H.
Qed.

(** What one point adds to the edges sent and to the queries sent. *)
Lemma page_for_point_sent st p :
  exists hits,
    emitted (calls (fst (similarity_edges.for_point th qp st p)))
    = emitted (calls st)
      ++ emitted (flat_map (page_hit_calls th (get (notion_id (payload p)) "")) hits).
Proof.
  unfold similarity_edges.for_point.
  destruct (negb (str_truthy _)).
  - exists []. cbn. symmetry. apply app_nil_r.
  - destruct (qp _ _ _) as [hits |]; cbn [fst].
    + exists hits. rewrite page_resolver.page_for_hits_calls. cbn [calls].
      rewrite !emitted_app. cbn. rewrite app_nil_r. reflexivity.
    + exists []. cbn [calls]. rewrite emitted_app. reflexivity.
Qed.

Lemma page_for_points_forall (P : string * string * Q -> Prop) pts st :
  (forall nid hits, Forall P (emitted (flat_map (page_hit_calls th nid) hits))) ->
  Forall P (emitted (calls st)) ->
  Forall P (emitted (calls (fst (similarity_edges.for_points th qp st pts)))).
Proof.
  intros HP. revert st. induction pts as [| p pts IH]; intros st H; cbn; [exact H |].
  destruct (page_for_point_sent st p) as (hits & E).
  destruct (similarity_edges.for_point th qp st p) as [st' []]; cbn [fst] in *.
  - apply IH. rewrite E. apply Forall_app. auto.
  - rewrite E. apply Forall_app. auto.
Qed.

Lemma page_for_point_queried st p :
  snd (similarity_edges.for_point th qp st p) = Returned ->
  queried (calls (fst (similarity_edges.for_point th qp st p)))
  = queried (calls st)
    ++ (if str_truthy (get (notion_id (payload p)) "")
        then [(vector p, (similarity_edges.TOP_K + 1)%nat)] else []).
Proof.
  unfold similarity_edges.for_point.
  destruct (str_truthy _); cbn [negb].
  - destruct (qp _ _ _) as [hits |]; cbn [fst snd]; [| discriminate].
    intros _. rewrite page_resolver.page_for_hits_calls. cbn [calls].
    rewrite !queried_app, page_resolver.page_hit_calls_queried, app_nil_r.
    reflexivity.
  - intros _. cbn. symmetry. apply app_nil_r.
Qed.

Lemma page_for_points_queried pts st :
  snd (similarity_edges.for_points th qp st pts) = Returned ->
  queried (calls (fst (similarity_edges.for_points th qp st pts)))
  = queried (calls st)
    ++ List.map (fun p => (vector p, (similarity_edges.TOP_K + 1)%nat))
         (List.filter (fun p => str_truthy (get (notion_id (payload p)) "")) pts).
Proof.
  revert st. induction pts as [| p pts IH]; intros st; cbn [similarity_edges.for_points].
  - intros _. cbn. symmetry. apply app_nil_r.
  - pose proof (page_for_point_queried st p) as Hq.
    destruct (similarity_edges.for_point th qp st p) as [st' []]; cbn [fst snd] in *.
    + intros H. rewrite (IH st' H), (Hq eq_refl). cbn [List.filter].
      destruct (str_truthy _); cbn; rewrite <- ?app_assoc; cbn;
        rewrite ?app_nil_r; reflexivity.
    + discriminate.
Qed.

End Page.

Section Code.

Variable qc : nat -> Vec -> nat -> option (list (ScoredPoint CodePayload)).

Lemma code_for_hit_others pid src st h :
  delete_rels SIMILAR_TO (graph (code_graph_builder.for_hit pid src st h))
  = delete_rels SIMILAR_TO (graph st).
Proof.
  unfold code_graph_builder.for_hit.
  destruct (String.eqb _ pid); [reflexivity |].
  destruct (Qltb _ _); [reflexivity |].
  destruct (String.ltb src _); [| reflexivity].
  match goal with
  | |- context [merge_rel_between ?l ?t ?a ?b ?s ?g] =>
      pose proof (merge_rel_between_others l t a b s g) as H;
      destruct (merge_rel_between l t a b s g) as [g' n]
  end.
  exact H.
Qed.

Lemma code_for_hits_others pid src hits st :
  delete_rels SIMILAR_TO
              (graph (fold_left (code_graph_builder.for_hit pid src) hits st))
  = delete_rels SIMILAR_TO (graph st).
Proof.
  revert st. induction hits as [| h hits IH]; intros st; cbn; [reflexivity |].
  rewrite IH. apply code_for_hit_others.
Qed.

Lemma code_for_point_others st p :
  delete_rels SIMILAR_TO (graph (code_graph_builder.for_point qc st p))
  = delete_rels SIMILAR_TO (graph st).
Proof.
  unfold code_graph_builder.for_point.
  destruct (qc _ _ _) as [hits |]; [| reflexivity].
  rewrite code_for_hits_others. reflexivity.
Qed.

Lemma code_for_points_others pts st :
  delete_rels SIMILAR_TO
              (graph (fold_left (code_graph_builder.for_point qc) pts st))
  = delete_rels SIMILAR_TO (graph st).
Proof.
  revert st. induction pts as [| p pts IH]; intros st; cbn; [reflexivity |].
  rewrite IH. apply code_for_point_others.
Qed.

Lemma code_for_point_queried st p :
  queried (calls (code_graph_builder.for_point qc st p))
  = queried (calls st)
    ++ [(vector p, (code_graph_builder.TOP_K_SIMILAR + 1)%nat)].
Proof.
  unfold code_graph_builder.for_point.
  destruct (qc _ _ _) as [hits |].
  - rewrite code_resolver.code_for_hits_calls. cbn [calls].
    rewrite !queried_app, code_resolver.code_hit_calls_queried, app_nil_r.
    reflexivity.
  - cbn [calls]. rewrite queried_app. reflexivity.
Qed.

Lemma code_for_points_queried pts st :
  queried (calls (fold_left (code_graph_builder.for_point qc) pts st))
  = queried (calls st)
    ++ List.map (fun p => (vector p, (code_graph_builder.TOP_K_SIMILAR + 1)%nat)) pts.
Proof.
  revert st. induction pts as [| p pts IH]; intros st; cbn [fold_left List.map].
  - symmetry. apply app_nil_r.
  - rewrite IH, code_for_point_queried, <- app_assoc. reflexivity.
Qed.

End Code.

End pass_facts.

(** * Further properties *)

Module extras.

Import Neo4j Qdrant runs.

(** ** The resolvers *)

(** X1.  No resolver sends an edge from a document to itself: in every
    edge sent during a pass, of the page resolver or of the code
    resolver, the two ends differ. *)
Theorem X1_no_self_edges
        (th : Q)
        (qp : nat -> Vec -> nat -> option (list (ScoredPoint PagePayload)))
        (g : Graph) (all_points : list (PointStruct PagePayload))
        (qc : nat -> Vec -> nat -> option (list (ScoredPoint CodePayload)))
        (gc : Graph) (points : list (PointStruct CodePayload)) :
  Forall (fun e => e.1.1 <> e.1.2)
         (emitted (calls (fst (similarity_edges.create_similarity_edges
                                 th qp g all_points))))
  /\ Forall (fun e => e.1.1 <> e.1.2)
            (emitted (calls (code_graph_builder.create_similarity_edges
                               qc gc points))).
Proof.
  split.
  - unfold similarity_edges.create_similarity_edges.
    apply pass_facts.page_for_points_forall; [| constructor].
    intros nid hits.
    eapply List.Forall_impl; [| apply page_resolver.page_hit_calls_irreflexive].
    intros e [H1 H2]. congruence.
  - eapply List.Forall_impl; [| apply code_resolver.code_pass_ordered].
    intros e [H _] E. rewrite E, ltb_irrefl in H. discriminate.
Qed.

(** X2.  The code resolver sends an edge only from the smaller path to
    the larger one, so that it never sends both directions of a pair. *)
Theorem X2_code_edges_one_direction
        (qc : nat -> Vec -> nat -> option (list (ScoredPoint CodePayload)))
        (gc : Graph) (points : list (PointStruct CodePayload))
        (a b : string) (s s' : Q) :
  In (a, b, s) (emitted (calls (code_graph_builder.create_similarity_edges
                                  qc gc points))) ->
  String.ltb a b = true
  /\ ~ In (b, a, s') (emitted (calls (code_graph_builder.create_similarity_edges
                                        qc gc points))).
Proof.
  intros H. split.
  - pose proof (code_resolver.code_pass_ordered qc gc points) as F.
    rewrite List.Forall_forall in F. apply (F _ H).
  - eapply code_resolver.code_pass_one_direction, H.
Qed.

(** X2 on the two files that are each other's nearest neighbour. *)
Lemma X2_code_edges_one_direction_witness :
  String.ltb path_view path_model = true
  /\ ~ In (path_model, path_view, Qmake 9 10)
          (emitted (calls (code_graph_builder.create_similarity_edges
                             (mutual_code_query (Qmake 9 10)) graph_with_stale_edge
                             [point_view; point_model]))).
Proof.
  apply (X2_code_edges_one_direction
           (mutual_code_query (Qmake 9 10)) graph_with_stale_edge
           [point_view; point_model] path_view path_model (Qmake 9 10) (Qmake 9 10)).
  vm_compute. left. reflexivity.
Defined.

(** X3.  After a pass of the page resolver, whether it returned or was
    left by an exception, every SIMILAR_TO relationship of the graph
    joins the nodes of an edge sent during this pass and carries its
    score: nothing is left of the relationships of an earlier pass. *)
Theorem X3_page_pass_replaces_edges
        (th : Q)
        (qp : nat -> Vec -> nat -> option (list (ScoredPoint PagePayload)))
        (g : Graph) (all_points : list (PointStruct PagePayload)) :
  all_similar_emitted
    (fst (similarity_edges.create_similarity_edges th qp g all_points)).
Proof. apply page_resolver.page_pass_fresh. Qed.

(** X4.  A resolver touches SIMILAR_TO relationships only: the nodes,
    the constraints and the relationships of every other type are after
    a pass what they were before, in the same order. *)
Theorem X4_pass_touches_similar_only
        (th : Q)
        (qp : nat -> Vec -> nat -> option (list (ScoredPoint PagePayload)))
        (g : Graph) (all_points : list (PointStruct PagePayload))
        (qc : nat -> Vec -> nat -> option (list (ScoredPoint CodePayload)))
        (gc : Graph) (points : list (PointStruct CodePayload)) :
  let page := graph (fst (similarity_edges.create_similarity_edges
                            th qp g all_points)) in
  let code := graph (code_graph_builder.create_similarity_edges qc gc points) in
  delete_rels SIMILAR_TO page = delete_rels SIMILAR_TO g
  /\ nodes page = nodes g
  /\ delete_rels SIMILAR_TO code = delete_rels SIMILAR_TO gc
  /\ nodes code = nodes gc.
Proof.
  intros page code.
  assert (Hp : delete_rels SIMILAR_TO page = delete_rels SIMILAR_TO g).
  { subst page. unfold similarity_edges.create_similarity_edges.
    rewrite pass_facts.page_for_points_others. cbn [graph].
    apply pass_facts.delete_rels_twice. }
  assert (Hc : delete_rels SIMILAR_TO code = delete_rels SIMILAR_TO gc).
  { subst code. unfold code_graph_builder.create_similarity_edges.
    rewrite pass_facts.code_for_points_others. reflexivity. }
  split; [exact Hp |]. split; [exact (f_equal nodes Hp) |].
  split; [exact Hc | exact (f_equal nodes Hc)].
Qed.

(** X5.  What a pass of the page resolver gives does not depend on the
    SIMILAR_TO relationships it finds: run on the graph that any earlier
    pass has left, it gives the graph, the counters and the calls that it
    gives on the graph before that pass.  In particular a pass run twice
    with the same answers of the index gives the same graph twice. *)
Theorem X5_page_pass_rerun
        (th th' : Q)
        (qp qp' : nat -> Vec -> nat -> option (list (ScoredPoint PagePayload)))
        (g : Graph) (all_points all_points' : list (PointStruct PagePayload)) :
  similarity_edges.create_similarity_edges
    th qp
    (graph (fst (similarity_edges.create_similarity_edges th' qp' g all_points')))
    all_points
  = similarity_edges.create_similarity_edges th qp g all_points.
Proof.
  unfold similarity_edges.create_similarity_edges at 1 3.
  f_equal. f_equal.
  unfold similarity_edges.create_similarity_edges.
  rewrite pass_facts.page_for_points_others. cbn [graph].
  apply pass_facts.delete_rels_twice.
Qed.

(** X6.  An edge that passes the tests of the page resolver is counted
    as created exactly when both pages have a node.  When one of them
    has none, the statement changes nothing in the graph and in the
    counters; when both have one, the two nodes are joined by a
    SIMILAR_TO relationship with the rounded score. *)
Theorem X6_edge_needs_both_nodes
        (th : Q) (notion_id : string) (st : Pass)
        (hit : ScoredPoint PagePayload) :
  let similar_id := get (Qdrant.notion_id (hit_payload hit)) "" in
  let st' := similarity_edges.for_hit th notion_id st hit in
  String.eqb similar_id notion_id = false ->
  Qltb (score hit) th = false ->
  (count_nodes Page notion_id (graph st) = 0%nat
   \/ count_nodes Page similar_id (graph st) = 0%nat ->
   graph st' = graph st /\ stats st' = stats st)
  /\ (count_nodes Page notion_id (graph st) <> 0%nat ->
      count_nodes Page similar_id (graph st) <> 0%nat ->
      created (stats st') = S (created (stats st))
      /\ skipped (stats st') = skipped (stats st)
      /\ similar_edge (graph st') notion_id similar_id (round3 (score hit))).
Proof.
  intros similar_id st' Hself Hth. subst st'.
  unfold similarity_edges.for_hit. fold similar_id. rewrite Hself, Hth.
  unfold merge_rel_between.
  set (rows := list_prod (match_nodes Page notion_id (graph st))
                         (match_nodes Page similar_id (graph st))).
  assert (Hlen : length rows
                 = (count_nodes Page notion_id (graph st)
                    * count_nodes Page similar_id (graph st))%nat)
    by apply length_prod.
  split.
  - intros H0.
    assert (Hnil : rows = []).
    { destruct rows; [reflexivity |]. cbn in Hlen. destruct H0 as [E | E];
        rewrite E in Hlen; lia. }
    rewrite Hnil. cbn. destruct st as [[ns rs u] [c k] q l]. cbn. auto.
  - intros H1 H2.
    destruct (resolver_facts.match_nodes_count_pos _ _ _ H1) as (i & Hi).
    destruct (resolver_facts.match_nodes_count_pos _ _ _ H2) as (j & Hj).
    assert (Hin : In (i, j) rows) by (apply in_prod; assumption).
    cbn [graph stats created skipped].
    assert (Hpos : (0 <? length rows)%nat = true).
    { apply Nat.ltb_lt. destruct rows; [destruct Hin | cbn; lia]. }
    rewrite Hpos. split; [reflexivity |]. split; [reflexivity |].
    destruct (resolver_facts.fold_merge_rel_sets
                SIMILAR_TO (round3 (score hit)) rows (rels (graph st)) i j Hin)
      as (r & Hr & Hrel & Hs).
    apply Neo4j_facts.is_rel_true in Hrel as (Ht & Hsrc & Hdst).
    exists r. cbn [rels]. split; [exact Hr |]. split; [exact Ht |].
    unfold key_at. cbn [nodes]. rewrite Hsrc, Hdst.
    split; [apply (Neo4j_facts.match_nodes_key _ _ _ _ Hi) |].
    split; [apply (Neo4j_facts.match_nodes_key _ _ _ _ Hj) | exact Hs].
Qed.

(** X6 on the first hit of the pass over the two pages, and on the same
    hit in a graph without nodes. *)
Lemma X6_edge_needs_both_nodes_witness :
  (let st := mkPass (mkGraph [] [] [Page]) (mkEdgeStats 0 0) 1 [] in
   let st' := similarity_edges.for_hit (Qmake 75 100) id_a st (hit_b (Qmake 9 10)) in
   graph st' = graph st /\ stats st' = stats st)
  /\ (let st := mkPass two_pages (mkEdgeStats 0 0) 1 [] in
      let st' := similarity_edges.for_hit (Qmake 75 100) id_a st (hit_b (Qmake 9 10)) in
      created (stats st') = 1%nat
      /\ skipped (stats st') = 0%nat
      /\ similar_edge (graph st') id_a id_b (round3 (Qmake 9 10))).
Proof.
  split.
  - apply (X6_edge_needs_both_nodes
             (Qmake 75 100) id_a
             (mkPass (mkGraph [] [] [Page]) (mkEdgeStats 0 0) 1 [])
             (hit_b (Qmake 9 10)) eq_refl eq_refl).
    left. reflexivity.
  - apply (X6_edge_needs_both_nodes
             (Qmake 75 100) id_a (mkPass two_pages (mkEdgeStats 0 0) 1 [])
             (hit_b (Qmake 9 10)) eq_refl eq_refl);
      vm_compute; discriminate.
Defined.

(** X7.  The code resolver sends one query per point, in the order of
    the points, each with the vector of the point and for
    [TOP_K_SIMILAR + 1] hits, whatever the queries answer.  A pass of the
    page resolver that returns has sent one query, for [TOP_K + 1] hits,
    per point that carries a non-empty [notion_id], and none for the
    others. *)
Theorem X7_one_query_per_point
        (th : Q)
        (qp : nat -> Vec -> nat -> option (list (ScoredPoint PagePayload)))
        (g : Graph) (all_points : list (PointStruct PagePayload))
        (qc : nat -> Vec -> nat -> option (list (ScoredPoint CodePayload)))
        (gc : Graph) (points : list (PointStruct CodePayload)) :
  snd (similarity_edges.create_similarity_edges th qp g all_points) = Returned ->
  queried (calls (fst (similarity_edges.create_similarity_edges
                         th qp g all_points)))
  = List.map (fun p => (vector p, 6%nat))
             (List.filter (fun p => str_truthy (get (notion_id (payload p)) ""))
                          all_points)
  /\ queried (calls (code_graph_builder.create_similarity_edges qc gc points))
     = List.map (fun p => (vector p, 11%nat)) points.
Proof.
  intros H. split.
  - unfold similarity_edges.create_similarity_edges in *.
    rewrite (pass_facts.page_for_points_queried th qp _ _ H). reflexivity.
  - unfold code_graph_builder.create_similarity_edges.
    rewrite pass_facts.code_for_points_queried. reflexivity.
Qed.

(** X7 on the pass over the two pages and the pass over the two files. *)
Lemma X7_one_query_per_point_witness :
  queried (calls (fst (similarity_edges.create_similarity_edges
                         (Qmake 75 100) (mutual_query (Qmake 9 10)) two_pages
                         [point_a; point_b])))
  = List.map (fun p => (vector p, 6%nat))
             (List.filter (fun p => str_truthy (get (notion_id (payload p)) ""))
                          [point_a; point_b])
  /\ queried (calls (code_graph_builder.create_similarity_edges
                       (mutual_code_query (Qmake 9 10)) graph_with_stale_edge
                       [point_view; point_model]))
     = List.map (fun p => (vector p, 11%nat)) [point_view; point_model].
Proof.
  apply (X7_one_query_per_point
           (Qmake 75 100) (mutual_query (Qmake 9 10)) two_pages [point_a; point_b]
           (mutual_code_query (Qmake 9 10)) graph_with_stale_edge
           [point_view; point_model]).
  reflexivity.
Defined.

(** ** Texts and identifiers *)

Lemma substring_length_le (n : nat) (s : string) :
  (String.length (substring 0 n s) <= n)%nat.
Proof.
  revert s. induction n as [| n IH]; intros s; destruct s as [| c s]; cbn;
    try lia.
  specialize (IH s). lia.
Qed.

(** X8.  The text handed to the model is never longer than the cap of
    its pipeline: [MAX_TEXT_LENGTH * 2] characters for a page,
    [MAX_CHARS] for a source file.  A page without content gives its
    title (cut at the cap), and a page with neither title nor content
    gives the empty text. *)
Theorem X8_text_within_cap
        (page : pages_json.PageRecord) (content : string)
        (metadata : code_embedder.Metadata) :
  (String.length (vector_store.prepare_text_for_embedding page)
   <= vector_store.MAX_TEXT_LENGTH * 2)%nat
  /\ (String.length (code_embedder.prepare_code_for_embedding content metadata)
      <= code_embedder.MAX_CHARS)%nat
  /\ (get (pages_json.page_content page) "" = ""%string ->
      vector_store.prepare_text_for_embedding page
      = (if (vector_store.MAX_TEXT_LENGTH * 2
             <? String.length (get (pages_json.page_title page) ""))%nat
         then prefix (vector_store.MAX_TEXT_LENGTH * 2)
                     (get (pages_json.page_title page) "")
         else get (pages_json.page_title page) ""))
  /\ (get (pages_json.page_content page) "" = ""%string ->
      get (pages_json.page_title page) "" = ""%string ->
      vector_store.prepare_text_for_embedding page = ""%string).
Proof.
  split; [| split; [| split]].
  - unfold vector_store.prepare_text_for_embedding.
    destruct (_ <? _)%nat eqn:E.
    + apply substring_length_le.
    + apply Nat.ltb_ge in E. exact E.
  - unfold code_embedder.prepare_code_for_embedding.
    destruct (_ <? _)%nat eqn:E.
    + apply substring_length_le.
    + apply Nat.ltb_ge in E. exact E.
  - intros Hc. unfold vector_store.prepare_text_for_embedding.
    rewrite Hc. reflexivity.
  - intros Hc Ht. unfold vector_store.prepare_text_for_embedding.
    rewrite Hc, Ht. reflexivity.
Qed.

(** X8 on a page that has a title and no content. *)
Lemma X8_text_within_cap_witness :
  vector_store.prepare_text_for_embedding
    (pages_json.mkPageRecord (Some id_a) (Some "Roadmap") None None None None
                             None None None None None)
  = (if (vector_store.MAX_TEXT_LENGTH * 2 <? String.length "Roadmap")%nat
     then prefix (vector_store.MAX_TEXT_LENGTH * 2) "Roadmap"
     else "Roadmap"%string).
Proof.
  apply (proj1 (proj2 (proj2 (X8_text_within_cap
                                (pages_json.mkPageRecord
                                   (Some id_a) (Some "Roadmap") None None None
                                   None None None None None None)
                                ""
                                (code_embedder.extract_metadata
                                   ["App"; "A.swift"] (toy_info "")))))).
  reflexivity.
Defined.

Lemma remove_hyphens_app (a b : string) :
  vector_store.remove_hyphens (a ++ b)
  = (vector_store.remove_hyphens a ++ vector_store.remove_hyphens b)%string.
Proof.
  induction a as [| c a IH]; [reflexivity |].
  change (String c a ++ b)%string with (String c (a ++ b)%string).
  cbn [vector_store.remove_hyphens]. rewrite IH.
  destruct (Ascii.eqb c "-"); reflexivity.
Qed.

Lemma remove_hyphens_sep (a b : string) :
  vector_store.remove_hyphens (a ++ "-" ++ b)
  = (vector_store.remove_hyphens a ++ vector_store.remove_hyphens b)%string.
Proof. rewrite !remove_hyphens_app. reflexivity. Qed.

Lemma remove_hyphens_twice (a : string) :
  vector_store.remove_hyphens (vector_store.remove_hyphens a)
  = vector_store.remove_hyphens a.
Proof.
  induction a as [| c a IH]; cbn; [reflexivity |].
  destruct (Ascii.eqb c "-") eqn:E; [exact IH |].
  cbn. rewrite E, IH. reflexivity.
Qed.

(** X9.  The point id of a page does not depend on the hyphens of its
    Notion id: a hyphen at any place of the id can be dropped, and the id
    with all its hyphens dropped gives the same result, be it a point id
    or the ValueError. *)
Theorem X9_point_id_ignores_hyphens
        (UUID : string -> option string) (a b : string) :
  vector_store.notion_id_to_uuid UUID (a ++ "-" ++ b)
  = vector_store.notion_id_to_uuid UUID (a ++ b)
  /\ vector_store.notion_id_to_uuid UUID (vector_store.remove_hyphens a)
     = vector_store.notion_id_to_uuid UUID a.
Proof.
  unfold vector_store.notion_id_to_uuid. split.
  - rewrite !remove_hyphens_app. reflexivity.
  - rewrite remove_hyphens_twice. reflexivity.
Qed.

(** X10.  For a digest of 32 characters, [file_to_uuid] gives 36
    characters in the layout 8-4-4-4-12, with hyphens at the places 8,
    13, 18 and 23; when the digest itself has no hyphen, dropping the
    hyphens of the result gives the digest back. *)
Theorem X10_file_uuid_layout (md5 : string -> string) (path : string) :
  String.length (md5 path) = 32%nat ->
  let u := code_embedder.file_to_uuid md5 path in
  String.length u = 36%nat
  /\ String.get 8 u = Some "-"%char /\ String.get 13 u = Some "-"%char
  /\ String.get 18 u = Some "-"%char /\ String.get 23 u = Some "-"%char
  /\ (vector_store.remove_hyphens (md5 path) = md5 path ->
      vector_store.remove_hyphens u = md5 path).
Proof.
  unfold code_embedder.file_to_uuid. generalize (md5 path) as h. intros h Hlen.
  do 32 (destruct h as [| ? h]; [discriminate Hlen |]).
  destruct h; [| discriminate Hlen].
  do 5 (split; [reflexivity |]).
  intros Hfree.
  rewrite !remove_hyphens_sep, <- !remove_hyphens_app.
  etransitivity; [| exact Hfree]. reflexivity.
Qed.

(** X10 on the stand-in digest of a path. *)
Lemma X10_file_uuid_layout_witness :
  let u := code_embedder.file_to_uuid toy_md5 "App/Login/A.swift" in
  String.length u = 36%nat
  /\ String.get 8 u = Some "-"%char /\ String.get 13 u = Some "-"%char
  /\ String.get 18 u = Some "-"%char /\ String.get 23 u = Some "-"%char
  /\ (vector_store.remove_hyphens (toy_md5 "App/Login/A.swift")
      = toy_md5 "App/Login/A.swift" ->
      vector_store.remove_hyphens u = toy_md5 "App/Login/A.swift").
Proof.
  apply (X10_file_uuid_layout toy_md5 "App/Login/A.swift"). reflexivity.
Defined.

(** X11.  [extract_metadata] takes a relative path apart: a file that
    lies directly in the source directory belongs to the module "Root"
    and has no subpath; for a deeper file the module is the first part,
    the file name the last part, the subpath the parts in between joined
    by "/", and the relative path all the parts joined by "/". *)
Theorem X11_metadata_of_path
        (m name : string) (between : list string)
        (info : code_embedder.SwiftInfo) :
  (let md := code_embedder.extract_metadata [name] info in
   code_embedder.md_module md = "Root"%string
   /\ code_embedder.md_file_name md = name
   /\ code_embedder.md_subpath md = ""%string
   /\ code_embedder.md_relative_path md = name)
  /\ (let md := code_embedder.extract_metadata (m :: between ++ [name]) info in
      code_embedder.md_module md = m
      /\ code_embedder.md_file_name md = name
      /\ code_embedder.md_subpath md = String.concat "/" between
      /\ code_embedder.md_relative_path md
         = String.concat "/" (m :: between ++ [name])
      /\ code_embedder.md_info md = info).
Proof.
  split; [cbn; auto |].
  unfold code_embedder.extract_metadata.
  cbn [code_embedder.md_module code_embedder.md_file_name
       code_embedder.md_subpath code_embedder.md_relative_path
       code_embedder.md_info].
  assert (Hlast : List.last (m :: between ++ [name]) ""%string = name).
  { change (m :: between ++ [name]) with ((m :: between) ++ [name]).
    apply List.last_last. }
  assert (Hinner : code_embedder.inner_parts (m :: between ++ [name]) = between).
  { unfold code_embedder.inner_parts. cbn [drop]. apply List.removelast_last. }
  rewrite Hlast, Hinner.
  split; [destruct between; reflexivity |].
  split; [reflexivity |].
  split; [| split; reflexivity].
  destruct between as [| b bs]; [reflexivity |].
  replace (2 <? length (m :: (b :: bs) ++ [name]))%nat with true; [reflexivity |].
  symmetry. apply Nat.ltb_lt. cbn [length]. rewrite length_app. cbn. lia.
Qed.

(** ** Reading the points back *)

(** X12.  The scroll loop of the page resolver returns once the index
    has told that nothing is left: when the index serves [batches], the
    loop makes one call per batch and returns the points of all of them,
    in order, behind what it had; with fewer turns than batches it is
    still running. *)
Theorem X12_fetch_points_collects
        (scroll : option string -> nat
                  -> option (list (PointStruct PagePayload) * option string))
        (offset : option string)
        (batches : list (list (PointStruct PagePayload)))
        (all_points : list (PointStruct PagePayload)) (turns : nat) :
  served scroll offset batches ->
  ((length batches <= turns)%nat ->
   similarity_edges.fetch_points scroll turns offset all_points
   = Done (all_points ++ concat batches))
  /\ ((turns < length batches)%nat ->
      similarity_edges.fetch_points scroll turns offset all_points = Running).
Proof.
  intros H. revert all_points turns.
  induction H as [offset batch E | offset batch next rest E H IH];
    intros all_points turns; (split; intros Hl).
  - destruct turns as [| turns]; [cbn in Hl; lia |].
    cbn. rewrite E, app_nil_r. reflexivity.
  - destruct turns as [| turns]; [reflexivity | cbn in Hl; lia].
  - destruct turns as [| turns]; [cbn in Hl; lia |].
    cbn [similarity_edges.fetch_points]. rewrite E.
    rewrite (proj1 (IH (all_points ++ batch) turns)) by (cbn in Hl; lia).
    cbn [concat]. rewrite app_assoc. reflexivity.
  - destruct turns as [| turns]; [reflexivity |].
    cbn [similarity_edges.fetch_points]. rewrite E.
    apply (proj2 (IH (all_points ++ batch) turns)). cbn in Hl. lia.
Qed.

(** X12 on the index that serves two pages of one point each. *)
Lemma X12_fetch_points_collects_witness :
  similarity_edges.fetch_points two_scrolls 5 None []
  = Done ([] ++ concat [[point_a]; [point_b]])
  /\ similarity_edges.fetch_points two_scrolls 1 None [] = Running.
Proof.
  assert (H : served two_scrolls None [[point_a]; [point_b]]).
  { apply (served_next two_scrolls None [point_a] id_b [[point_b]]);
      [reflexivity |].
    apply (served_last two_scrolls (Some id_b) [point_b]). reflexivity. }
  split.
  - apply (proj1 (X12_fetch_points_collects
                    two_scrolls None [[point_a]; [point_b]] [] 5 H)).
    cbn. lia.
  - apply (proj2 (X12_fetch_points_collects
                    two_scrolls None [[point_a]; [point_b]] [] 1 H)).
    cbn. lia.
Defined.

Lemma until_empty_all {A} (batches : list (list A)) :
  Forall (fun b => b <> []) batches -> until_empty batches = batches.
Proof.
  induction 1 as [| b bs Hb _ IH]; [reflexivity |].
  destruct b; [congruence |]. cbn. rewrite IH. reflexivity.
Qed.

(** X13.  The scroll loop of the code graph builder stops at the first
    empty batch, whatever offset comes with it: when the index serves
    [batches], the loop returns the points of the batches in front of
    the first empty one.  When no batch is empty, these are the points
    that the loop of the page resolver returns. *)
Theorem X13_code_points_stop_at_empty
        (scroll : option string -> nat
                  -> option (list (PointStruct CodePayload) * option string))
        (offset : option string)
        (batches : list (list (PointStruct CodePayload)))
        (points : list (PointStruct CodePayload)) (turns : nat) :
  served scroll offset batches ->
  (length batches <= turns)%nat ->
  code_graph_builder.get_all_code_points_from scroll turns offset points
  = Done (points ++ concat (until_empty batches))
  /\ (Forall (fun b => b <> []) batches ->
      code_graph_builder.get_all_code_points_from scroll turns offset points
      = Done (points ++ concat batches)).
Proof.
  intros H Hl.
  assert (G : code_graph_builder.get_all_code_points_from scroll turns offset points
              = Done (points ++ concat (until_empty batches))).
  { revert points turns Hl.
    induction H as [offset batch E | offset batch next rest E H IH];
      intros points turns Hl;
      (destruct turns as [| turns]; [cbn in Hl; lia |]);
      cbn [code_graph_builder.get_all_code_points_from]; rewrite E.
    - destruct batch; cbn; rewrite app_nil_r; reflexivity.
    - destruct batch as [| p batch].
      + cbn. rewrite app_nil_r. reflexivity.
      + rewrite IH by (cbn in Hl; lia).
        cbn [until_empty concat]. rewrite app_assoc. reflexivity. }
  split; [exact G |].
  intros Hne. rewrite G, until_empty_all by exact Hne. reflexivity.
Qed.

(** X13 on the index that serves an empty page in between: the point
    behind it is not read. *)
Lemma X13_code_points_stop_at_empty_witness :
  code_graph_builder.get_all_code_points_from gap_scrolls 3 None []
  = Done ([] ++ concat (until_empty [[point_view]; []; [point_model]])).
Proof.
  apply (fun H1 H2 => proj1 (X13_code_points_stop_at_empty
                               gap_scrolls None [[point_view]; []; [point_model]]
                               [] 3 H1 H2)).
  - apply (served_next gap_scrolls None [point_view] uuid_view
                       [[]; [point_model]]); [reflexivity |].
    apply (served_next gap_scrolls (Some uuid_view) [] uuid_model
                       [[point_model]]); [reflexivity |].
    apply (served_last gap_scrolls (Some uuid_model) [point_model]).
    reflexivity.
  - cbn. lia.
Defined.

(** ** Relationships between pages *)

Lemma key_at_same g g' i : nodes g' = nodes g -> key_at g' i = key_at g i.
Proof. unfold key_at. intros ->. reflexivity. Qed.

Lemma match_from_keys l k j ns i :
  In i (match_from l k j ns) ->
  In k (List.map node_key
                 (List.filter (fun n => bool_decide (node_label n = l)) ns)).
Proof.
  revert j. induction ns as [| n ns IH]; intros j; cbn [match_from];
    [intros [] |].
  cbn [List.filter]. unfold is_node.
  destruct (bool_decide (node_label n = l)); cbn [andb List.map].
  - destruct (String.eqb (node_key n) k) eqn:Ek.
    + intros _. left. apply String.eqb_eq. exact Ek.
    + intros H. right. eapply IH, H.
  - intros H. eapply IH, H.
Qed.

(** Under the uniqueness constraint a key is carried by one node at
    most. *)
Lemma count_nodes_unique l k g :
  NoDup (keys_of l g) -> (count_nodes l k g <= 1)%nat.
Proof.
  unfold keys_of, count_nodes, match_nodes. intros Hnd.
  enough (G : forall j, (length (match_from l k j (nodes g)) <= 1)%nat)
    by apply G.
  revert Hnd.
  induction (nodes g) as [| n ns IH]; intros Hnd j; cbn [match_from];
    [cbn; lia |].
  cbn [List.filter] in Hnd. unfold is_node.
  destruct (bool_decide (node_label n = l)); cbn [andb].
  - cbn [List.map] in Hnd. inversion Hnd as [| x xs Hx Hnd']; subst.
    destruct (String.eqb (node_key n) k) eqn:Ek.
    + apply String.eqb_eq in Ek. subst k.
      destruct (match_from l (node_key n) (S j) ns) as [| i rest] eqn:Em;
        [cbn; lia |].
      exfalso. apply Hx, list_elem_of_In.
      apply (match_from_keys l _ (S j) ns i). rewrite Em. left. reflexivity.
    + apply IH. exact Hnd'.
  - apply IH. exact Hnd.
Qed.

Lemma count_rels_app t a b :
  count_rels t (a ++ b) = (count_rels t a + count_rels t b)%nat.
Proof. unfold count_rels. rewrite List.filter_app, length_app. reflexivity. Qed.

Lemma count_rels_all t new :
  Forall (fun r => rel_type r = t) new -> count_rels t new = length new.
Proof.
  unfold count_rels. induction 1 as [| r rs Hr _ IH]; [reflexivity |].
  cbn. rewrite bool_decide_eq_true_2 by exact Hr. cbn. rewrite IH. reflexivity.
Qed.

Lemma count_rels_none t t' new :
  t' <> t -> Forall (fun r => rel_type r = t') new -> count_rels t new = 0%nat.
Proof.
  intros Hne. unfold count_rels. induction 1 as [| r rs Hr _ IH]; [reflexivity |].
  cbn. rewrite bool_decide_eq_false_2 by congruence. exact IH.
Qed.

(** What one CREATE statement between two pages adds. *)
Lemma create_rel_between_new t a b g :
  exists new,
    fst (create_rel_between Page t a b g)
    = mkGraph (nodes g) (rels g ++ new) (unique_on g)
    /\ snd (create_rel_between Page t a b g) = length new
    /\ length new = (count_nodes Page a g * count_nodes Page b g)%nat
    /\ Forall (fun r => rel_type r = t /\ rel_score r = None
                        /\ key_at g (rel_src r) = Some a
                        /\ key_at g (rel_dst r) = Some b) new.
Proof.
  unfold create_rel_between.
  set (rows := list_prod (match_nodes Page a g) (match_nodes Page b g)).
  exists (List.map (fun row => mkRel t (fst row) (snd row) None) rows).
  cbn [fst snd]. rewrite length_map.
  split; [reflexivity |]. split; [reflexivity |].
  split; [apply length_prod |].
  apply List.Forall_forall. intros r Hr.
  apply in_map_iff in Hr as ([i j] & <- & Hij). cbn.
  apply in_prod_iff in Hij as [Hi Hj].
  split; [reflexivity |]. split; [reflexivity |].
  split; eapply Neo4j_facts.match_nodes_key; eassumption.
Qed.

(** The ids gathered from an export are ids of its pages. *)
Lemma page_ids_from pages ids b :
  graph_builder.page_ids pages = Some ids -> b ∈ ids ->
  exists q, In q pages /\ pages_json.page_id q = Some b.
Proof.
  unfold graph_builder.page_ids. intros H Hb.
  destruct (mapM pages_json.page_id pages) as [l |] eqn:E; [| discriminate].
  cbn in H. injection H as <-. apply elem_of_list_to_set in Hb.
  apply mapM_Some in E. revert Hb.
  induction E as [| q y qs ys Hq _ IH]; intros Hb.
  - apply elem_of_nil in Hb. destruct Hb.
  - apply elem_of_cons in Hb as [-> | Hb].
    + exists q. split; [left; reflexivity | exact Hq].
    + destruct (IH Hb) as (q' & Hin & Hq'). exists q'. split; [right |]; assumption.
Qed.

Section Relationships.

Variable pages : list pages_json.PageRecord.
Variable ids : gset string.
Variable g0 : Graph.
Hypothesis ids_of_pages : graph_builder.page_ids pages = Some ids.

(** One CREATE statement for a relationship that the export asks for
    keeps what has been done so far. *)
Lemma create_keeps t p q a b (st : Graph * graph_builder.RelStats) :
  In p pages -> In q pages ->
  pages_json.page_id p = Some a -> pages_json.page_id q = Some b ->
  (t = CHILD_OF /\ pages_json.parent_page_id (pages_json.parent_of p) = Some b
   \/ t = LINKS_TO /\ In b (get (pages_json.page_links p) [])) ->
  links_so_far pages g0 st ->
  let r := create_rel_between Page t a b (fst st) in
  links_so_far
    pages g0
    (fst r,
     graph_builder.mkRelStats
       (if bool_decide (t = CHILD_OF)
        then (if (0 <? snd r)%nat then S (graph_builder.child_of (snd st))
              else graph_builder.child_of (snd st))
        else graph_builder.child_of (snd st))
       (if bool_decide (t = CHILD_OF)
        then graph_builder.links_to (snd st)
        else (if (0 <? snd r)%nat then S (graph_builder.links_to (snd st))
              else graph_builder.links_to (snd st)))
       (graph_builder.rel_errors (snd st))).
Proof.
  intros Hp Hq Ha Hb Ht (Hn & Hu & He & new0 & Hr & Hall & Hc & Hl & Heq) r.
  destruct (create_rel_between_new t a b (fst st))
    as (new & Hg & Hcount & Hlen & Hnew).
  subst r. rewrite Hg, Hcount. cbn [fst snd nodes unique_on rels].
  unfold links_so_far. cbn [fst snd nodes unique_on rels
                            graph_builder.child_of graph_builder.links_to
                            graph_builder.rel_errors].
  split; [exact Hn |]. split; [exact Hu |]. split; [exact He |].
  exists (new0 ++ new). rewrite Hr, <- app_assoc.
  split; [reflexivity |].
  assert (Hty : Forall (fun r => rel_type r = t) new).
  { eapply List.Forall_impl; [| exact Hnew]. intros r' H. apply H. }
  split.
  { apply Forall_app. split; [exact Hall |].
    eapply List.Forall_impl; [| exact Hnew].
    intros r' (H1 & H2 & H3 & H4).
    exists p, q, a, b. rewrite <- (key_at_same g0 (fst st)) by exact Hn.
    rewrite <- (key_at_same g0 (fst st) (rel_dst r')) by exact Hn.
    repeat (split; [assumption |]).
    destruct Ht as [[-> Hpar] | [-> Hlink]]; [left | right]; split; assumption. }
  assert (Hone : NoDup (keys_of Page g0) -> (length new <= 1)%nat).
  { intros Hnd. rewrite Hlen.
    assert (H1 : (count_nodes Page a (fst st) <= 1)%nat).
    { apply count_nodes_unique. unfold keys_of. rewrite Hn. exact Hnd. }
    assert (H2 : (count_nodes Page b (fst st) <= 1)%nat).
    { apply count_nodes_unique. unfold keys_of. rewrite Hn. exact Hnd. }
    nia. }
  rewrite !count_rels_app.
  destruct Ht as [[-> _] | [-> _]].
  - rewrite bool_decide_eq_true_2 by reflexivity.
    rewrite (count_rels_all CHILD_OF new Hty).
    rewrite (count_rels_none LINKS_TO CHILD_OF new) by (congruence || exact Hty).
    destruct (0 <? length new)%nat eqn:E0;
      [apply Nat.ltb_lt in E0 | apply Nat.ltb_ge in E0].
    + split; [lia |]. split; [lia |]. intros Hnd.
      destruct (Heq Hnd) as [-> ->]. specialize (Hone Hnd). lia.
    + split; [lia |]. split; [lia |]. intros Hnd.
      destruct (Heq Hnd) as [-> ->]. lia.
  - rewrite bool_decide_eq_false_2 by discriminate.
    rewrite (count_rels_all LINKS_TO new Hty).
    rewrite (count_rels_none CHILD_OF LINKS_TO new) by (congruence || exact Hty).
    destruct (0 <? length new)%nat eqn:E0;
      [apply Nat.ltb_lt in E0 | apply Nat.ltb_ge in E0].
    + split; [lia |]. split; [lia |]. intros Hnd.
      destruct (Heq Hnd) as [-> ->]. specialize (Hone Hnd). lia.
    + split; [lia |]. split; [lia |]. intros Hnd.
      destruct (Heq Hnd) as [-> ->]. lia.
Qed.

Lemma link_parent_keeps p a (st : Graph * graph_builder.RelStats) :
  In p pages -> pages_json.page_id p = Some a ->
  links_so_far pages g0 st ->
  links_so_far pages g0 (graph_builder.link_parent ids a p st).
Proof.
  intros Hp Ha Hst. unfold graph_builder.link_parent.
  destruct (str_truthy _ && bool_decide _) eqn:E; [| exact Hst].
  apply andb_true_iff in E as [Et Ein]. apply bool_decide_eq_true in Ein.
  destruct (page_ids_from pages ids _ ids_of_pages Ein) as (q & Hq & Hb).
  assert (Hpar : pages_json.parent_page_id (pages_json.parent_of p)
                 = Some (get (pages_json.parent_page_id
                                (pages_json.parent_of p)) "")).
  { destruct (pages_json.parent_page_id (pages_json.parent_of p));
      [reflexivity | discriminate Et]. }
  pose proof (create_keeps CHILD_OF p q a _ st Hp Hq Ha Hb
                           (or_introl (conj eq_refl Hpar)) Hst) as H.
  cbn zeta in H. rewrite bool_decide_eq_true_2 in H by reflexivity.
  destruct (create_rel_between Page CHILD_OF a _ (fst st)) as [g n].
  exact H.
Qed.

Lemma for_link_keeps p a link_id (st : Graph * graph_builder.RelStats) :
  In p pages -> pages_json.page_id p = Some a ->
  In link_id (get (pages_json.page_links p) []) ->
  links_so_far pages g0 st ->
  links_so_far pages g0 (graph_builder.for_link ids a st link_id).
Proof.
  intros Hp Ha Hl Hst. unfold graph_builder.for_link.
  case_bool_decide as Ein; [| exact Hst].
  destruct (page_ids_from pages ids _ ids_of_pages Ein) as (q & Hq & Hb).
  pose proof (create_keeps LINKS_TO p q a _ st Hp Hq Ha Hb
                           (or_intror (conj eq_refl Hl)) Hst) as H.
  cbn zeta in H. rewrite bool_decide_eq_false_2 in H by discriminate.
  destruct (create_rel_between Page LINKS_TO a _ (fst st)) as [g n].
  exact H.
Qed.

Lemma for_links_keeps p a links (st : Graph * graph_builder.RelStats) :
  In p pages -> pages_json.page_id p = Some a ->
  (forall l, In l links -> In l (get (pages_json.page_links p) [])) ->
  links_so_far pages g0 st ->
  links_so_far pages g0 (fold_left (graph_builder.for_link ids a) links st).
Proof.
  intros Hp Ha. revert st.
  induction links as [| l links IH]; intros st Hsub Hst; [exact Hst |].
  cbn [fold_left]. apply IH.
  - intros l' Hl'. apply Hsub. right. exact Hl'.
  - apply (for_link_keeps p); try assumption. apply Hsub. left. reflexivity.
Qed.

Lemma for_page_rels_keeps p (st : Graph * graph_builder.RelStats) :
  In p pages ->
  links_so_far pages g0 st ->
  links_so_far pages g0 (graph_builder.for_page_rels ids st p).
Proof.
  intros Hp Hst. unfold graph_builder.for_page_rels.
  destruct (pages_json.page_id p) as [a |] eqn:Ha.
  - apply (for_links_keeps p); try assumption; [auto |].
    apply link_parent_keeps; assumption.
  - exfalso.
    assert (X : mapM pages_json.page_id pages = None).
    { apply mapM_None, List.Exists_exists. exists p. auto. }
    pose proof ids_of_pages as Hids.
    unfold graph_builder.page_ids in Hids. rewrite X in Hids. discriminate.
Qed.

Lemma loop_rels_keeps ps (st : Graph * graph_builder.RelStats) :
  (forall p, In p ps -> In p pages) ->
  links_so_far pages g0 st ->
  links_so_far pages g0 (fold_left (graph_builder.for_page_rels ids) ps st).
Proof.
  revert st. induction ps as [| p ps IH]; intros st Hsub Hst; [exact Hst |].
  cbn [fold_left]. apply IH.
  - intros p' Hp'. apply Hsub. right. exact Hp'.
  - apply for_page_rels_keeps; [| exact Hst]. apply Hsub. left. reflexivity.
Qed.

End Relationships.

Lemma links_start pages g :
  links_so_far pages g (g, graph_builder.mkRelStats 0 0 0).
Proof.
  unfold links_so_far. cbn.
  split; [reflexivity |]. split; [reflexivity |]. split; [reflexivity |].
  exists []. rewrite app_nil_r. split; [reflexivity |].
  split; [constructor |]. split; [lia |]. split; [lia |]. auto.
Qed.

(** X14.  [create_relationships] raises before its first statement as
    soon as one page of the export has no [id], whereas
    [create_page_nodes] counts such a page as an error and goes on. *)
Theorem X14_relationships_need_every_id
        (g : Graph) (pages : list pages_json.PageRecord) :
  (graph_builder.create_relationships g pages = None
   <-> Exists (fun page => pages_json.page_id page = None) pages)
  /\ (Exists (fun page => pages_json.page_id page = None) pages ->
      (1 <= graph_builder.nodes_errors
              (snd (graph_builder.create_page_nodes g pages)))%nat).
Proof.
  split.
  - unfold graph_builder.create_relationships, graph_builder.page_ids.
    rewrite <- mapM_None.
    destruct (mapM pages_json.page_id pages); cbn; split; congruence.
  - unfold graph_builder.create_page_nodes.
    generalize (graph_builder.mkNodeStats 0 0) as s. revert g.
    assert (Hmono : forall ps g s,
               (graph_builder.nodes_errors s
                <= graph_builder.nodes_errors
                     (snd (fold_left graph_builder.for_page ps (g, s))))%nat).
    { induction ps as [| p ps IH]; intros g s; [cbn; lia |].
      cbn [fold_left]. unfold graph_builder.for_page at 2.
      destruct (pages_json.page_id p) as [i |].
      - destruct (graph_builder.sendable p);
          [destruct (create_node Page i _ g) as [g' |] |];
          (etransitivity; [| apply IH]); cbn; lia.
      - etransitivity; [| apply IH]. cbn. lia. }
    induction pages as [| p pages IH]; intros g s Hex.
    + inversion Hex.
    + cbn [fold_left]. inversion Hex as [? ? Hp | ? ? Hrest]; subst.
      * unfold graph_builder.for_page at 2. rewrite Hp.
        etransitivity; [| apply Hmono]. cbn. lia.
      * destruct (graph_builder.for_page (g, s) p) as [g1 s1].
        apply IH. exact Hrest.
Qed.

(** X14 on an export whose second page has no [id]. *)
Lemma X14_relationships_need_every_id_witness :
  (1 <= graph_builder.nodes_errors
          (snd (graph_builder.create_page_nodes
                  cleared
                  [parent_page;
                   pages_json.mkPageRecord None (Some "Draft") None None None
                                           None None None None None None])))%nat.
Proof.
  apply (proj2 (X14_relationships_need_every_id
                  cleared
                  [parent_page;
                   pages_json.mkPageRecord None (Some "Draft") None None None
                                           None None None None None None])).
  apply Exists_cons_tl, Exists_cons_hd. reflexivity.
Defined.

(** X15.  When [create_relationships] returns, it has left the nodes as
    they were and has only added relationships behind those that were
    there: each of them a CHILD_OF relationship from a page of the
    export to its parent, or a LINKS_TO relationship from a page of the
    export to one of its links, the target being a page of the export as
    well.  No page is counted as an error, and no counter exceeds the
    number of relationships of its type; when no two Page nodes share an
    id, the counters are these numbers. *)
Theorem X15_relationships_within_export
        (g g' : Graph) (pages : list pages_json.PageRecord)
        (s : graph_builder.RelStats) :
  graph_builder.create_relationships g pages = Some (g', s) ->
  nodes g' = nodes g
  /\ unique_on g' = unique_on g
  /\ graph_builder.rel_errors s = 0%nat
  /\ exists new,
      rels g' = rels g ++ new
      /\ Forall (export_link pages g) new
      /\ (graph_builder.child_of s <= count_rels CHILD_OF new)%nat
      /\ (graph_builder.links_to s <= count_rels LINKS_TO new)%nat
      /\ (NoDup (keys_of Page g) ->
          graph_builder.child_of s = count_rels CHILD_OF new
          /\ graph_builder.links_to s = count_rels LINKS_TO new).
Proof.
  unfold graph_builder.create_relationships.
  destruct (graph_builder.page_ids pages) as [ids |] eqn:E; [| discriminate].
  intros H. injection H as H.
  assert (G : links_so_far pages g (g', s)).
  { rewrite <- H. apply (loop_rels_keeps pages ids g E); [auto |].
    apply links_start. }
  exact G.
Qed.

(** X15 on the page [id_b] that lies below the page [id_a] and links to
    it. *)
Lemma X15_relationships_within_export_witness :
  let g' := mkGraph (nodes two_pages)
                    [mkRel CHILD_OF 1 0 None; mkRel LINKS_TO 1 0 None] [Page] in
  let s := graph_builder.mkRelStats 1 1 0 in
  nodes g' = nodes two_pages
  /\ unique_on g' = unique_on two_pages
  /\ graph_builder.rel_errors s = 0%nat
  /\ exists new,
      rels g' = rels two_pages ++ new
      /\ Forall (export_link [parent_page; child_page] two_pages) new
      /\ (graph_builder.child_of s <= count_rels CHILD_OF new)%nat
      /\ (graph_builder.links_to s <= count_rels LINKS_TO new)%nat
      /\ (NoDup (keys_of Page two_pages) ->
          graph_builder.child_of s = count_rels CHILD_OF new
          /\ graph_builder.links_to s = count_rels LINKS_TO new).
Proof.
  apply (X15_relationships_within_export
           two_pages
           (mkGraph (nodes two_pages)
                    [mkRel CHILD_OF 1 0 None; mkRel LINKS_TO 1 0 None] [Page])
           [parent_page; child_page] (graph_builder.mkRelStats 1 1 0)).
  vm_compute. reflexivity.
Defined.

(** ** Page nodes *)

Lemma keys_count l k g : In k (keys_of l g) -> count_nodes l k g <> 0%nat.
Proof.
  unfold keys_of, count_nodes, match_nodes. intros H.
  enough (G : forall j, match_from l k j (nodes g) <> [])
    by (specialize (G 0%nat); destruct (match_from l k 0 (nodes g));
        [congruence | cbn; lia]).
  revert H.
  induction (nodes g) as [| n ns IH]; cbn [List.filter]; [intros [] |].
  intros H j. cbn [match_from]. unfold is_node.
  destruct (bool_decide (node_label n = l)); cbn [andb List.map] in *.
  - destruct H as [E | H].
    + rewrite E, String.eqb_refl. discriminate.
    + destruct (String.eqb (node_key n) k); [discriminate | apply IH, H].
  - apply IH, H.
Qed.

Lemma count_nodes_app l k ns new rs u :
  count_nodes l k (mkGraph ns rs u) <> 0%nat ->
  count_nodes l k (mkGraph (ns ++ new) rs u) <> 0%nat.
Proof.
  unfold count_nodes, match_nodes. cbn [nodes].
  rewrite node_facts.match_from_app, length_app. lia.
Qed.

Lemma keys_of_app l ns new rs u :
  keys_of l (mkGraph (ns ++ new) rs u)
  = keys_of l (mkGraph ns rs u) ++ keys_of l (mkGraph new rs u).
Proof. unfold keys_of. cbn [nodes]. rewrite List.filter_app, map_app. reflexivity. Qed.

(** What one turn of the loop of [create_page_nodes] does. *)
Lemma page_node_turn g s p :
  let r := graph_builder.for_page (g, s) p in
  exists new,
    fst r = mkGraph (nodes g ++ new) (rels g) (unique_on g)
    /\ graph_builder.nodes_created (snd r)
       = (graph_builder.nodes_created s + length new)%nat
    /\ (graph_builder.nodes_created (snd r) + graph_builder.nodes_errors (snd r)
        = S (graph_builder.nodes_created s + graph_builder.nodes_errors s))%nat
    /\ Forall (node_of_page [p]) new
    /\ (unique g Page = true -> NoDup (keys_of Page g) ->
        NoDup (keys_of Page (fst r)))
    /\ (forall i, pages_json.page_id p = Some i ->
                  graph_builder.sendable p = true ->
                  count_nodes Page i (fst r) <> 0%nat)
    /\ (unsendable p = true -> new = [])
    /\ (graph_builder.nodes_errors s
        <= graph_builder.nodes_errors (snd r))%nat.
Proof.
  cbn zeta. unfold graph_builder.for_page, unsendable.
  assert (Hskip : forall P : Prop,
             P ->
             exists new : list Node,
               fst (g, graph_builder.mkNodeStats
                         (graph_builder.nodes_created s)
                         (S (graph_builder.nodes_errors s)))
               = mkGraph (nodes g ++ new) (rels g) (unique_on g)
               /\ graph_builder.nodes_created s
                  = (graph_builder.nodes_created s + length new)%nat
               /\ (graph_builder.nodes_created s + S (graph_builder.nodes_errors s)
                   = S (graph_builder.nodes_created s
                        + graph_builder.nodes_errors s))%nat
               /\ Forall (node_of_page [p]) new
               /\ (unique g Page = true -> NoDup (keys_of Page g) ->
                   NoDup (keys_of Page g))
               /\ P
               /\ (true = true -> new = [])
               /\ (graph_builder.nodes_errors s
                   <= S (graph_builder.nodes_errors s))%nat).
  { intros P HP. exists []. cbn [fst length]. rewrite app_nil_r.
    destruct g as [ns rs u]. cbn [nodes rels unique_on].
    split; [reflexivity |]. split; [lia |]. split; [lia |].
    split; [constructor |]. auto 10. }
  destruct (pages_json.page_id p) as [i |] eqn:Hi.
  - destruct (graph_builder.sendable p) eqn:Es; cbn [negb].
    + unfold create_node.
      destruct (unique g Page && negb (bool_decide (match_nodes Page i g = [])))
        eqn:E.
      * exists []. cbn [fst snd graph_builder.nodes_created
                        graph_builder.nodes_errors length].
        rewrite app_nil_r. destruct g as [ns rs u]. cbn [nodes rels unique_on].
        split; [reflexivity |]. split; [lia |]. split; [lia |].
        split; [constructor |]. split; [auto |].
        split; [| split; [reflexivity | lia]].
        intros i' Hi' _. injection Hi' as <-.
        apply andb_true_iff in E as [_ E]. apply negb_true_iff in E.
        apply bool_decide_eq_false in E. unfold count_nodes.
        destruct (match_nodes Page i (mkGraph ns rs u)); [congruence | cbn; lia].
      * exists [mkNode Page i (OfPage (graph_builder.page_props p))].
        cbn [fst snd graph_builder.nodes_created graph_builder.nodes_errors
                 length].
        split; [reflexivity |]. split; [lia |]. split; [lia |].
        split.
        { constructor; [| constructor]. exists p. cbn.
          split; [left; reflexivity |]. auto. }
        split.
        { intros Hu Hnd. rewrite Hu in E. cbn [andb] in E.
          apply negb_false_iff, bool_decide_eq_true in E.
          destruct g as [ns rs u]. cbn [nodes rels unique_on].
          rewrite keys_of_app.
          change (keys_of Page (mkGraph [mkNode Page i _] rs u)) with [i].
          apply NoDup_app. split; [exact Hnd |].
          split; [| apply NoDup_singleton].
          intros x Hx Hx'. apply list_elem_of_singleton in Hx'. subst x.
          apply list_elem_of_In in Hx. apply keys_count in Hx. apply Hx.
          unfold count_nodes. rewrite E. reflexivity. }
        split; [| split; [discriminate | lia]].
        intros i' Hi' _. injection Hi' as <-.
        rewrite node_facts.count_nodes_created. lia.
    + apply Hskip. intros i' _ H. discriminate H.
  - apply Hskip. intros i' H. discriminate H.
Qed.

Lemma node_of_page_more ps ps' n :
  (forall p, In p ps -> In p ps') -> node_of_page ps n -> node_of_page ps' n.
Proof.
  intros Hsub (page & Hin & H). exists page. split; [apply Hsub, Hin | exact H].
Qed.

(** The loop of [create_page_nodes], from any state. *)
Lemma page_nodes_loop ps g s :
  let r := fold_left graph_builder.for_page ps (g, s) in
  exists new,
    fst r = mkGraph (nodes g ++ new) (rels g) (unique_on g)
    /\ graph_builder.nodes_created (snd r)
       = (graph_builder.nodes_created s + length new)%nat
    /\ (graph_builder.nodes_created (snd r) + graph_builder.nodes_errors (snd r)
        = length ps + (graph_builder.nodes_created s
                       + graph_builder.nodes_errors s))%nat
    /\ Forall (node_of_page ps) new
    /\ (unique g Page = true -> NoDup (keys_of Page g) ->
        NoDup (keys_of Page (fst r)))
    /\ (forall p i, In p ps -> pages_json.page_id p = Some i ->
                    graph_builder.sendable p = true ->
                    count_nodes Page i (fst r) <> 0%nat)
    /\ (length (List.filter unsendable ps) + graph_builder.nodes_errors s
        <= graph_builder.nodes_errors (snd r))%nat.
Proof.
  revert g s. induction ps as [| p ps IH]; intros g s; cbn zeta.
  - exists []. cbn. rewrite app_nil_r. destruct g. cbn.
    split; [reflexivity |]. split; [lia |]. split; [lia |].
    split; [constructor |]. split; [auto |]. split; [intros ? ? [] | lia].
  - cbn [fold_left].
    destruct (page_node_turn g s p)
      as (new1 & Hg1 & Hc1 & Ht1 & Hn1 & Hd1 & Hk1 & He1 & Hm1).
    destruct (graph_builder.for_page (g, s) p) as [g1 s1]. cbn [fst snd] in *.
    destruct (IH g1 s1) as (new2 & Hg2 & Hc2 & Ht2 & Hn2 & Hd2 & Hk2 & He2).
    assert (Hu1 : unique g1 Page = unique g Page) by (rewrite Hg1; reflexivity).
    exists (new1 ++ new2).
    split; [rewrite Hg2, Hg1; cbn [nodes rels unique_on];
            rewrite <- app_assoc; reflexivity |].
    split; [rewrite Hc2, Hc1, length_app; lia |].
    split; [rewrite Ht2; cbn [length]; lia |].
    split.
    { apply Forall_app. split.
      - eapply List.Forall_impl; [| exact Hn1].
        intros n. apply node_of_page_more. intros q [-> | []]. left. reflexivity.
      - eapply List.Forall_impl; [| exact Hn2].
        intros n. apply node_of_page_more. intros q Hq. right. exact Hq. }
    split.
    { intros Hu Hnd. apply Hd2; [rewrite Hu1; exact Hu |].
      apply Hd1; assumption. }
    split.
    { intros q i [<- | Hq] Hi Hs.
      - rewrite Hg2. specialize (Hk1 i Hi Hs). rewrite Hg1 in *.
        cbn [nodes rels unique_on] in *.
        apply count_nodes_app. exact Hk1.
      - apply (Hk2 q i Hq Hi Hs). }
    cbn [List.filter]. destruct (unsendable p).
    + rewrite (He1 eq_refl) in Hc1. cbn [length] in *. lia.
    + lia.
Qed.

(** X16.  [create_page_nodes] counts every page once, as created or as
    an error, and changes the graph only by adding, behind the nodes
    that were there, one Page node per page counted as created, with the
    id and the attributes of that page.  A page without id or with an
    integer that the driver cannot send is counted as an error.  Under
    the uniqueness constraint the ids of the Page nodes stay distinct,
    and afterwards every page that has an id and integers that the
    driver can send has a node, whether the page was counted as created
    or as an error. *)
Theorem X16_page_nodes_accounting
        (g : Graph) (pages : list pages_json.PageRecord) :
  let r := graph_builder.create_page_nodes g pages in
  (graph_builder.nodes_created (snd r) + graph_builder.nodes_errors (snd r)
   = length pages)%nat
  /\ (length (List.filter unsendable pages)
      <= graph_builder.nodes_errors (snd r))%nat
  /\ rels (fst r) = rels g
  /\ unique_on (fst r) = unique_on g
  /\ (exists new,
         nodes (fst r) = nodes g ++ new
         /\ length new = graph_builder.nodes_created (snd r)
         /\ Forall (node_of_page pages) new)
  /\ (unique g Page = true -> NoDup (keys_of Page g) ->
      NoDup (keys_of Page (fst r)))
  /\ (forall page i, In page pages -> pages_json.page_id page = Some i ->
                     graph_builder.sendable page = true ->
                     count_nodes Page i (fst r) <> 0%nat).
Proof.
  cbn zeta. unfold graph_builder.create_page_nodes.
  destruct (page_nodes_loop pages g (graph_builder.mkNodeStats 0 0))
    as (new & Hg & Hc & Ht & Hn & Hd & Hk & He).
  cbn [graph_builder.nodes_created graph_builder.nodes_errors] in *.
  split; [lia |]. split; [lia |].
  split; [rewrite Hg; reflexivity |]. split; [rewrite Hg; reflexivity |].
  split; [exists new; split; [rewrite Hg; reflexivity |];
          split; [lia | exact Hn] |].
  split; assumption.
Qed.


(** ** The code graph *)

Lemma merge_node_keeps l k p l' k' g :
  count_nodes l' k' g <> 0%nat -> count_nodes l' k' (merge_node l k p g) <> 0%nat.
Proof.
  unfold merge_node. case_bool_decide as E.
  - destruct g as [ns rs u]. apply count_nodes_app.
  - unfold count_nodes, match_nodes. cbn [nodes].
    rewrite node_facts.match_from_set_props. auto.
Qed.

Lemma merge_node_there l k p g : count_nodes l k (merge_node l k p g) <> 0%nat.
Proof. rewrite node_facts.merge_node_count. lia. Qed.

Lemma merge_node_plain_keeps l k l' k' g :
  count_nodes l' k' g <> 0%nat -> count_nodes l' k' (merge_node_plain l k g) <> 0%nat.
Proof.
  unfold merge_node_plain. case_bool_decide as E; [| auto].
  destruct g as [ns rs u]. apply count_nodes_app.
Qed.

Lemma merge_node_plain_there l k g :
  count_nodes l k (merge_node_plain l k g) <> 0%nat.
Proof.
  unfold merge_node_plain. case_bool_decide as E.
  - rewrite node_facts.count_nodes_created. lia.
  - unfold count_nodes. destruct (match_nodes l k g); [congruence | cbn; lia].
Qed.

Lemma merge_node_rels l k p g : rels (merge_node l k p g) = rels g.
Proof. unfold merge_node. case_bool_decide; reflexivity. Qed.

Lemma merge_node_plain_rels l k g : rels (merge_node_plain l k g) = rels g.
Proof. unfold merge_node_plain. case_bool_decide; reflexivity. Qed.

(** The loop of [create_code_nodes], from any state. *)
Lemma code_nodes_loop points g s :
  let r := fold_left code_graph_builder.for_code_node points (g, s) in
  code_graph_builder.nodes_created (snd r)
  = (code_graph_builder.nodes_created s + length points)%nat
  /\ code_graph_builder.nodes_errors (snd r) = code_graph_builder.nodes_errors s
  /\ code_graph_builder.modules (snd r)
     = list_to_set (List.map module_of points) ∪ code_graph_builder.modules s
  /\ rels (fst r) = rels g
  /\ (forall point, In point points ->
                    count_nodes CodeFile (path_of point) (fst r) <> 0%nat)
  /\ (forall l k, count_nodes l k g <> 0%nat -> count_nodes l k (fst r) <> 0%nat).
Proof.
  revert g s. induction points as [| p points IH]; intros g s; cbn zeta.
  - cbn. split; [lia |]. split; [reflexivity |].
    split; [symmetry; apply (left_id_L ∅ (∪)) |]. split; [reflexivity |].
    split; [intros ? [] | auto].
  - cbn [fold_left]. unfold code_graph_builder.for_code_node at 2 4 6 8 10 12.
    fold (module_of p). fold (path_of p).
    destruct (IH (merge_node CodeFile (path_of p)
                             (OfCode (code_graph_builder.code_props
                                        (payload p) (module_of p))) g)
                 (code_graph_builder.mkCodeNodeStats
                    (S (code_graph_builder.nodes_created s))
                    (code_graph_builder.nodes_errors s)
                    ({[module_of p]} ∪ code_graph_builder.modules s)))
      as (Hc & He & Hm & Hr & Hk & Hkeep).
    cbn [code_graph_builder.nodes_created code_graph_builder.nodes_errors
         code_graph_builder.modules] in *.
    split; [rewrite Hc; cbn [length]; lia |].
    split; [exact He |].
    split; [rewrite Hm; cbn [List.map list_to_set];
            rewrite (assoc_L (∪)), (comm_L (∪) (list_to_set _));
            reflexivity |].
    split; [rewrite Hr; apply merge_node_rels |].
    split.
    + intros point [<- | Hin]; [| apply Hk, Hin].
      apply Hkeep, merge_node_there.
    + intros l k H. apply Hkeep, merge_node_keeps, H.
Qed.

(** The loop of [create_module_nodes] over the modules in any order. *)
Lemma module_nodes_loop ms g n :
  let r := fold_left (fun st module =>
                        (merge_node_plain ModuleLabel module (fst st), S (snd st)))
                     ms (g, n) in
  snd r = (n + length ms)%nat
  /\ rels (fst r) = rels g
  /\ (forall m, In m ms -> count_nodes ModuleLabel m (fst r) <> 0%nat)
  /\ (forall l k, count_nodes l k g <> 0%nat -> count_nodes l k (fst r) <> 0%nat).
Proof.
  revert g n. induction ms as [| m ms IH]; intros g n; cbn zeta.
  - cbn. split; [lia |]. split; [reflexivity |]. split; [intros ? [] | auto].
  - cbn [fold_left fst snd].
    destruct (IH (merge_node_plain ModuleLabel m g) (S n))
      as (Hc & Hr & Hk & Hkeep).
    split; [rewrite Hc; cbn [length]; lia |].
    split; [rewrite Hr; apply merge_node_plain_rels |].
    split.
    + intros m' [<- | Hin]; [| apply Hk, Hin].
      apply Hkeep, merge_node_plain_there.
    + intros l k H. apply Hkeep, merge_node_plain_keeps, H.
Qed.

Lemma merge_plain_rel_incl t rs row r :
  In r rs -> In r (merge_plain_rel t rs row).
Proof.
  destruct row as [i j]. unfold merge_plain_rel.
  destruct (existsb (is_rel t i j) rs); [auto |].
  intros H. apply in_or_app. left. exact H.
Qed.

Lemma fold_plain_rel_incl t rows rs r :
  In r rs -> In r (fold_left (merge_plain_rel t) rows rs).
Proof.
  revert rs. induction rows as [| row rows IH]; intros rs H; [exact H |].
  cbn [fold_left]. apply IH, merge_plain_rel_incl, H.
Qed.

Lemma fold_plain_rel_has t rows rs i j :
  In (i, j) rows ->
  exists r, In r (fold_left (merge_plain_rel t) rows rs) /\ is_rel t i j r = true.
Proof.
  revert rs. induction rows as [| row rows IH]; intros rs H; [destruct H |].
  cbn [fold_left]. destruct H as [-> | H]; [| apply IH, H].
  unfold merge_plain_rel at 2.
  destruct (existsb (is_rel t i j) rs) eqn:E.
  - apply existsb_exists in E as (r & Hr & Hrel).
    exists r. split; [apply fold_plain_rel_incl, Hr | exact Hrel].
  - exists (mkRel t i j None). split.
    + apply fold_plain_rel_incl, in_or_app. right. left. reflexivity.
    + unfold is_rel. cbn. rewrite bool_decide_eq_true_2 by reflexivity.
      rewrite !Nat.eqb_refl. reflexivity.
Qed.

Lemma belongs_to_more g g' path module :
  nodes g' = nodes g -> (forall r, In r (rels g) -> In r (rels g')) ->
  belongs_to g path module -> belongs_to g' path module.
Proof.
  intros Hn Hr (r & n & m & H1 & H2 & H3 & H4 & H5 & H6).
  exists r, n, m. rewrite Hn. auto 10.
Qed.

(** One turn of the loop of [create_belongs_to_relationships] on a graph
    that has the two nodes. *)
Lemma belongs_turn g c point :
  count_nodes CodeFile (path_of point) g <> 0%nat ->
  count_nodes ModuleLabel (module_of point) g <> 0%nat ->
  let r := code_graph_builder.for_belongs_to (g, c) point in
  snd r = S c
  /\ nodes (fst r) = nodes g
  /\ (forall x, In x (rels g) -> In x (rels (fst r)))
  /\ belongs_to (fst r) (path_of point) (module_of point).
Proof.
  intros H1 H2. cbn zeta. unfold code_graph_builder.for_belongs_to.
  fold (path_of point). fold (module_of point).
  unfold merge_plain_rel_between. cbn [fst snd].
  set (rows := list_prod (match_nodes CodeFile (path_of point) g)
                         (match_nodes ModuleLabel (module_of point) g)).
  destruct (resolver_facts.match_nodes_count_pos _ _ _ H1) as (i & Hi).
  destruct (resolver_facts.match_nodes_count_pos _ _ _ H2) as (j & Hj).
  assert (Hin : In (i, j) rows) by (apply in_prod; assumption).
  assert (Hpos : (0 <? length rows)%nat = true).
  { apply Nat.ltb_lt. destruct rows; [destruct Hin | cbn; lia]. }
  rewrite Hpos. cbn [fst snd nodes rels].
  split; [reflexivity |]. split; [reflexivity |].
  split; [intros x Hx; apply fold_plain_rel_incl, Hx |].
  destruct (fold_plain_rel_has BELONGS_TO rows (rels g) i j Hin) as (r & Hr & Hrel).
  apply Neo4j_facts.is_rel_true in Hrel as (Ht & Hsrc & Hdst).
  apply Neo4j_facts.match_from_lookup in Hi as (_ & n & Hn & Hnk).
  apply Neo4j_facts.match_from_lookup in Hj as (_ & m & Hm & Hmk).
  rewrite Nat.sub_0_r in Hn, Hm.
  exists r, n, m. cbn [nodes rels]. rewrite Hsrc, Hdst. auto 10.
Qed.

Lemma count_nodes_same l k g g' :
  nodes g' = nodes g -> count_nodes l k g' = count_nodes l k g.
Proof. unfold count_nodes, match_nodes. intros ->. reflexivity. Qed.

(** The loop of [create_belongs_to_relationships] on a graph that has
    the nodes of every point. *)
Lemma belongs_loop points g c :
  (forall point, In point points ->
                 count_nodes CodeFile (path_of point) g <> 0%nat
                 /\ count_nodes ModuleLabel (module_of point) g <> 0%nat) ->
  let r := fold_left code_graph_builder.for_belongs_to points (g, c) in
  snd r = (c + length points)%nat
  /\ nodes (fst r) = nodes g
  /\ (forall x, In x (rels g) -> In x (rels (fst r)))
  /\ (forall point, In point points ->
                    belongs_to (fst r) (path_of point) (module_of point)).
Proof.
  revert g c. induction points as [| p points IH]; intros g c Hall; cbn zeta.
  - cbn. split; [lia |]. split; [reflexivity |]. split; [auto | intros ? []].
  - cbn [fold_left].
    destruct (Hall p (or_introl eq_refl)) as [H1 H2].
    destruct (belongs_turn g c p H1 H2) as (Hc1 & Hn1 & Hr1 & Hb1).
    destruct (code_graph_builder.for_belongs_to (g, c) p) as [g1 c1].
    cbn [fst snd] in *.
    destruct (IH g1 c1) as (Hc2 & Hn2 & Hr2 & Hb2).
    { intros point Hin. rewrite !(count_nodes_same _ _ g g1) by exact Hn1.
      apply Hall. right. exact Hin. }
    split; [rewrite Hc2, Hc1; cbn [length]; lia |].
    split; [congruence |].
    split; [auto |].
    intros point [<- | Hin]; [| apply Hb2, Hin].
    eapply belongs_to_more; [exact Hn2 | exact Hr2 | exact Hb1].
Qed.

Lemma size_list_to_set_le (l : list string) :
  (base.size (list_to_set l : gset string) <= length l)%nat.
Proof.
  induction l as [| x l IH]; cbn [list_to_set length].
  - rewrite size_empty. lia.
  - rewrite size_union_alt, size_singleton.
    assert (H : (base.size (list_to_set l ∖ {[x]} : gset string)
                 <= base.size (list_to_set l : gset string))%nat)
      by (apply subseteq_size, subseteq_difference_l; reflexivity).
    lia.
Qed.

(** X18.  The sequence of [main] of the code graph builder: CodeFile
    nodes, Module nodes, BELONGS_TO relationships.  Every point is
    counted as created and none as an error; one Module node is counted
    per distinct module name of the points; every point is counted as
    linked, and its CodeFile node has a BELONGS_TO relationship to the
    node of its module.  The relationships that were in the graph are
    all kept. *)
Theorem X18_code_graph_sequence
        (g : Graph) (points : list (PointStruct CodePayload)) :
  let r1 := code_graph_builder.create_code_nodes g points in
  let r2 := code_graph_builder.create_module_nodes
              (fst r1) (code_graph_builder.modules (snd r1)) in
  let r3 := code_graph_builder.create_belongs_to_relationships (fst r2) points in
  code_graph_builder.nodes_created (snd r1) = length points
  /\ code_graph_builder.nodes_errors (snd r1) = 0%nat
  /\ code_graph_builder.modules (snd r1)
     = list_to_set (List.map module_of points)
  /\ snd r2 = base.size (code_graph_builder.modules (snd r1))
  /\ (snd r2 <= length points)%nat
  /\ snd r3 = length points
  /\ nodes (fst r3) = nodes (fst r2)
  /\ (forall point, In point points ->
                    belongs_to (fst r3) (path_of point) (module_of point))
  /\ (forall x, In x (rels g) -> In x (rels (fst r3))).
Proof.
  cbn zeta.
  unfold code_graph_builder.create_code_nodes,
    code_graph_builder.create_module_nodes,
    code_graph_builder.create_belongs_to_relationships.
  destruct (code_nodes_loop points g (code_graph_builder.mkCodeNodeStats 0 0 ∅))
    as (Hc1 & He1 & Hm1 & Hr1 & Hk1 & Hkeep1).
  set (r1 := fold_left code_graph_builder.for_code_node points _) in *.
  cbn [code_graph_builder.nodes_created code_graph_builder.nodes_errors
       code_graph_builder.modules] in *.
  destruct (module_nodes_loop (elements (code_graph_builder.modules (snd r1)))
                              (fst r1) 0)
    as (Hc2 & Hr2 & Hk2 & Hkeep2).
  set (r2 := fold_left _ (elements _) _) in *.
  assert (Hmod : code_graph_builder.modules (snd r1)
                 = list_to_set (List.map module_of points)).
  { rewrite Hm1. apply (right_id_L ∅ (∪)). }
  destruct (belongs_loop points (fst r2) 0) as (Hc3 & Hn3 & Hr3 & Hb3).
  { intros point Hin. split.
    - apply Hkeep2, Hk1, Hin.
    - apply Hk2. apply list_elem_of_In, elem_of_elements. rewrite Hmod.
      apply elem_of_list_to_set, list_elem_of_In, in_map, Hin. }
  split; [lia |]. split; [exact He1 |]. split; [exact Hmod |].
  split; [rewrite Hc2; reflexivity |].
  split.
  { rewrite Hc2. cbn [Nat.add]. fold (base.size (code_graph_builder.modules (snd r1))).
    rewrite Hmod.
    etransitivity; [apply size_list_to_set_le |]. rewrite length_map. lia. }
  split; [rewrite Hc3; reflexivity |].
  split; [exact Hn3 |]. split; [exact Hb3 |].
  intros x Hx. apply Hr3. rewrite Hr2, Hr1. exact Hx.
Qed.

(** ** The page pipeline *)

Section PagePipeline.

Variable NAME : string.
Variable enc : nat -> EncodeRequest -> option (list Vec).
Variable ok : nat -> bool.
Variable UUID : string -> option string.

Local Abbreviation State := (Run vector_store.Stats PagePayload).

(** What [for page, vector in zip(batch_pages, vectors)] makes of the
    pairs it gets through. *)
Lemma page_append_made (st : State) zipped :
  let r := vector_store.append_points UUID st zipped in
  exists made,
    run_points (fst r) = run_points st ++ made
    /\ vector_store.processed (run_stats (fst r))
       = (vector_store.processed (run_stats st) + length made)%nat
    /\ vector_store.total (run_stats (fst r)) = vector_store.total (run_stats st)
    /\ vector_store.skipped_empty (run_stats (fst r))
       = vector_store.skipped_empty (run_stats st)
    /\ Forall (fun p => exists pv,
                          In pv zipped
                          /\ vector_store.make_point UUID (fst pv) (snd pv)
                             = Some p) made
    /\ (length made <= length zipped)%nat
    /\ (snd r = true -> length made = length zipped)
    /\ (snd r = false ->
        exists pv, zipped !! length made = Some pv
                   /\ vector_store.make_point UUID (fst pv) (snd pv) = None).
Proof.
  revert st. induction zipped as [| [page v] zipped IH]; intros st; cbn zeta.
  - exists []. cbn. rewrite app_nil_r.
    split; [reflexivity |]. split; [lia |]. split; [reflexivity |].
    split; [reflexivity |]. split; [constructor |]. split; [lia |].
    split; [reflexivity | discriminate].
  - cbn [vector_store.append_points].
    destruct (vector_store.make_point UUID page v) as [p |] eqn:E.
    + destruct (IH (with_stats vector_store.add_processed
                               (with_points (run_points st ++ [p]) st)))
        as (made & Hp & Hc & Ht & Hs & Hall & Hle & Htrue & Hfalse).
      exists (p :: made). cbn [length].
      split; [rewrite Hp; cbn; rewrite <- app_assoc; reflexivity |].
      split; [rewrite Hc; cbn; lia |].
      split; [rewrite Ht; reflexivity |].
      split; [rewrite Hs; reflexivity |].
      split.
      { constructor.
        - exists (page, v). split; [left; reflexivity | exact E].
        - eapply List.Forall_impl; [| exact Hall].
          intros q (pv & Hin & Hq). exists pv. split; [right |]; assumption. }
      split; [lia |].
      split; [intros H; rewrite (Htrue H); reflexivity |].
      intros H. exact (Hfalse H).
    + exists []. cbn [fst snd length]. rewrite app_nil_r.
      split; [reflexivity |]. split; [lia |]. split; [reflexivity |].
      split; [reflexivity |]. split; [constructor |]. split; [lia |].
      split; [discriminate |].
      intros _. exists (page, v). split; [reflexivity | exact E].
Qed.

Lemma page_flush_stats (st : State) :
  let st' := vector_store.flush NAME ok st in
  vector_store.total (run_stats st') = vector_store.total (run_stats st)
  /\ vector_store.skipped_empty (run_stats st')
     = vector_store.skipped_empty (run_stats st)
  /\ (forall Q, Forall Q (upserted (run_log st) ++ run_points st) ->
                Forall Q (upserted (run_log st') ++ run_points st')).
Proof.
  cbn zeta. unfold vector_store.flush.
  destruct (upsert_facts.client_upsert_shape ok NAME st)
    as (db1 & b1 & E1 & _).
  rewrite E1. destruct b1.
  - cbn. split; [reflexivity |]. split; [reflexivity |].
    intros Q H. rewrite upserted_app. cbn. rewrite !app_nil_r. exact H.
  - set (st1 := logged (Sleep 2) _).
    destruct (upsert_facts.client_upsert_shape ok NAME st1)
      as (db2 & b2 & E2 & _).
    rewrite E2. subst st1.
    assert (G : forall Q : PointStruct PagePayload -> Prop,
               Forall Q (upserted (run_log st) ++ run_points st) ->
               Forall Q (upserted (((run_log st ++ [Upsert NAME (run_points st)])
                                      ++ [Sleep 2])
                                     ++ [Upsert NAME (run_points st)]) ++ [])).
    { intros Q H. rewrite !upserted_app. cbn. rewrite !app_nil_r.
      apply Forall_app in H as [H1 H2].
      repeat (apply Forall_app; split); assumption. }
    destruct b2; cbn; (split; [reflexivity |]); (split; [reflexivity |]);
      exact G.
Qed.

(** One turn of the loop, whatever the model and the index do. *)
Lemma page_turn valid (st : State) i :
  let st' := vector_store.for_batch NAME enc ok UUID valid st i in
  vector_store.total (run_stats st') = vector_store.total (run_stats st)
  /\ vector_store.skipped_empty (run_stats st')
     = vector_store.skipped_empty (run_stats st)
  /\ (vector_store.processed (run_stats st')
      <= vector_store.processed (run_stats st) + length (batch_at valid i))%nat
  /\ encoded (run_log st')
     = encoded (run_log st) ++ [request_of (batch_at valid i)]
  /\ (forall Q : PointStruct PagePayload -> Prop,
         (forall pt v p, In pt (batch_at valid i) ->
                         vector_store.make_point UUID (fst pt) v = Some p -> Q p) ->
         Forall Q (upserted (run_log st) ++ run_points st) ->
         Forall Q (upserted (run_log st') ++ run_points st')).
Proof.
  cbn zeta. unfold vector_store.for_batch. fold (batch_at valid i).
  set (b := batch_at valid i).
  assert (Htry :
            let r := vector_store.try_embed enc UUID st b in
            vector_store.total (run_stats (fst r)) = vector_store.total (run_stats st)
            /\ vector_store.skipped_empty (run_stats (fst r))
               = vector_store.skipped_empty (run_stats st)
            /\ (vector_store.processed (run_stats (fst r))
                <= vector_store.processed (run_stats st) + length b)%nat
            /\ run_log (fst r) = run_log st ++ [Encode (request_of b)]
            /\ (forall Q : PointStruct PagePayload -> Prop,
                   (forall pt v p, In pt b ->
                                   vector_store.make_point UUID (fst pt) v = Some p
                                   -> Q p) ->
                   Forall Q (upserted (run_log st) ++ run_points st) ->
                   Forall Q (upserted (run_log (fst r)) ++ run_points (fst r)))).
  { cbn zeta. unfold vector_store.try_embed, vector_store.embed_batch.
    fold (request_of b).
    destruct (enc (run_encodes st) (request_of b)) as [vectors |].
    - set (st1 := mkRun _ _ _ _ _ _).
      destruct (page_append_made st1 (combine (List.map fst b) vectors))
        as (made & Hp & Hc & Ht & Hs & Hall & Hle & _ & _).
      pose proof (page_writer.page_append_points_frame
                    UUID st1 (combine (List.map fst b) vectors))
        as (_ & Hlog & _).
      cbn zeta in Hlog.
      split; [rewrite Ht; reflexivity |]. split; [rewrite Hs; reflexivity |].
      split.
      { rewrite Hc. cbn [run_stats st1].
        rewrite length_combine, length_map in Hle. lia. }
      split; [rewrite Hlog; reflexivity |].
      intros Q HQ H. rewrite Hlog, Hp. cbn [run_log run_points st1].
      rewrite upserted_app. cbn [upserted]. rewrite app_nil_r, app_assoc.
      apply Forall_app. split; [exact H |].
      eapply List.Forall_impl; [| exact Hall].
      intros p ([page v] & Hpv & Hmk).
      apply in_combine_l in Hpv. apply in_map_iff in Hpv as (pt & Hfst & Hpt).
      cbn [fst snd] in Hmk. subst page.
      exact (HQ pt v p Hpt Hmk).
    - cbn [fst run_stats run_log run_points].
      split; [reflexivity |]. split; [reflexivity |]. split; [lia |].
      split; [reflexivity |].
      intros Q _ H. rewrite upserted_app. cbn [upserted].
      rewrite app_nil_r. exact H. }
  cbn zeta in Htry. destruct Htry as (Ht & Hs & Hp & Hlog & HQ).
  destruct (vector_store.try_embed enc UUID st b) as [st1 [|]];
    cbn [fst] in *.
  - assert (Henc : encoded (run_log st1)
                   = encoded (run_log st) ++ [request_of b]).
    { rewrite Hlog, encoded_app. reflexivity. }
    destruct (_ <=? _)%nat.
    + destruct (page_order.flush_frame NAME ok st1) as (_ & Hp' & He' & _).
      destruct (page_flush_stats st1) as (Ht' & Hs' & HQ').
      cbn zeta in *.
      split; [congruence |]. split; [congruence |].
      split; [rewrite Hp'; exact Hp |].
      split; [rewrite He'; exact Henc |].
      intros Q H1 H2. apply HQ', HQ; assumption.
    + split; [exact Ht |]. split; [exact Hs |]. split; [exact Hp |].
      split; [exact Henc |]. exact HQ.
  - cbn [with_stats run_stats run_log run_points vector_store.add_errors
                    vector_store.total vector_store.skipped_empty
                    vector_store.processed].
    split; [exact Ht |]. split; [exact Hs |]. split; [exact Hp |].
    split; [rewrite Hlog, encoded_app; reflexivity |]. exact HQ.
Qed.

(** The loop over any batch starts, whatever the model and the index
    do. *)
Lemma page_turns valid starts (st : State) :
  let st' := fold_left (vector_store.for_batch NAME enc ok UUID valid) starts st in
  vector_store.total (run_stats st') = vector_store.total (run_stats st)
  /\ vector_store.skipped_empty (run_stats st')
     = vector_store.skipped_empty (run_stats st)
  /\ (vector_store.processed (run_stats st')
      <= vector_store.processed (run_stats st)
         + length (concat (List.map (batch_at valid) starts)))%nat
  /\ encoded (run_log st')
     = encoded (run_log st)
       ++ List.map (fun i => request_of (batch_at valid i)) starts
  /\ (forall Q : PointStruct PagePayload -> Prop,
         (forall pt v p, In pt valid ->
                         vector_store.make_point UUID (fst pt) v = Some p -> Q p) ->
         Forall Q (upserted (run_log st) ++ run_points st) ->
         Forall Q (upserted (run_log st') ++ run_points st')).
Proof.
  revert st. induction starts as [| i starts IH]; intros st; cbn zeta.
  - cbn. rewrite app_nil_r. repeat (split; [reflexivity || lia |]). auto.
  - cbn [fold_left List.map concat].
    destruct (page_turn valid st i) as (Ht1 & Hs1 & Hp1 & He1 & HQ1).
    destruct (IH (vector_store.for_batch NAME enc ok UUID valid st i))
      as (Ht2 & Hs2 & Hp2 & He2 & HQ2).
    cbn zeta in *.
    split; [congruence |]. split; [congruence |].
    split; [rewrite length_app; lia |].
    split; [rewrite He2, He1, <- app_assoc; reflexivity |].
    intros Q HQ H. apply HQ2; [exact HQ |]. apply HQ1; [| exact H].
    intros pt v p Hpt. apply HQ.
    unfold batch_at in Hpt. apply list_elem_of_In in Hpt.
    apply list_elem_of_In.
    eapply elem_of_sublist; [| apply (sublist_drop valid i)].
    eapply elem_of_sublist; [exact Hpt | apply sublist_take].
Qed.

Lemma select_pages_skipped pages :
  snd (vector_store.select_pages pages) = length (List.filter blank pages).
Proof.
  unfold vector_store.select_pages.
  assert (G : forall acc,
             snd (fold_left vector_store.for_page pages acc)
             = (snd acc + length (List.filter blank pages))%nat).
  { induction pages as [| p pages IH]; intros acc; [cbn; lia |].
    cbn [fold_left List.filter]. rewrite IH.
    unfold vector_store.for_page, blank.
    destruct (strip_truthy (vector_store.prepare_text_for_embedding p));
      cbn; lia. }
  rewrite G. reflexivity.
Qed.

Lemma select_pages_split pages :
  (length (fst (vector_store.select_pages pages))
   + snd (vector_store.select_pages pages))%nat = length pages.
Proof.
  rewrite select_pages_skipped, page_order.select_pages_filter.
  induction pages as [| p pages IH]; [reflexivity |].
  cbn [List.map List.filter snd]. unfold blank at 1.
  destruct (strip_truthy (vector_store.prepare_text_for_embedding p));
    cbn [negb length]; lia.
Qed.

Lemma flush_rest_stats (st : State) :
  let r := vector_store.flush_rest NAME ok st in
  run_stats (fst r) = run_stats st
  /\ encoded (run_log (fst r)) = encoded (run_log st)
  /\ (forall Q, Forall Q (upserted (run_log st) ++ run_points st) ->
                Forall Q (upserted (run_log (fst r)))).
Proof.
  cbn zeta. unfold vector_store.flush_rest.
  destruct (run_points st) as [| p pts] eqn:E.
  - cbn. split; [reflexivity |]. split; [reflexivity |].
    intros Q H. rewrite app_nil_r in H. exact H.
  - destruct (upsert_facts.client_upsert_shape ok NAME st)
      as (db1 & b1 & E1 & _).
    rewrite E1.
    assert (G : forall Q : PointStruct PagePayload -> Prop,
               Forall Q (upserted (run_log st) ++ p :: pts) ->
               Forall Q (upserted (run_log st ++ [Upsert NAME (run_points st)]))).
    { intros Q H. rewrite upserted_app, E. cbn. rewrite app_nil_r. exact H. }
    destruct b1; cbn; (split; [reflexivity |]);
      (split; [rewrite encoded_app; cbn; apply app_nil_r | exact G]).
Qed.

End PagePipeline.

Lemma in_upserted {P} name (pts : list (PointStruct P)) log p :
  In (Upsert name pts) log -> In p pts -> In p (upserted log).
Proof.
  induction log as [| c log IH]; [intros [] |].
  intros [-> | Hin] Hp; cbn.
  - apply in_or_app. left. exact Hp.
  - destruct c; try (apply IH; assumption).
    apply in_or_app. right. apply IH; assumption.
Qed.

Lemma texts_of_valid pages :
  List.map snd (fst (vector_store.select_pages pages))
  = List.map vector_store.prepare_text_for_embedding
             (List.filter (fun page => negb (blank page)) pages).
Proof.
  rewrite page_order.select_pages_filter.
  induction pages as [| p pages IH]; [reflexivity |].
  cbn [List.map List.filter snd]. unfold blank at 1.
  destruct (strip_truthy (vector_store.prepare_text_for_embedding p));
    cbn [negb List.map snd]; rewrite IH; reflexivity.
Qed.

Lemma sentences_of_batches valid starts :
  concat (List.map sentences
                   (List.map (fun i => request_of (batch_at valid i)) starts))
  = List.map snd (concat (List.map (batch_at valid) starts)).
Proof.
  induction starts as [| i starts IH]; [reflexivity |].
  cbn [List.map concat]. rewrite map_app, IH. reflexivity.
Qed.

(** X19.  The counters of [process_pages], whatever the model and the
    index do: [total] is the number of pages, [skipped_empty] the number
    of pages whose text is blank, and [processed] never exceeds the
    number of the other pages.  The texts sent to the model, taken over
    all requests in order, are the texts of the pages that are not
    blank, in the order of the export: a skipped page is never sent, and
    no other page is left out.  One request is sent per started batch of
    [BATCH_SIZE] pages. *)
Theorem X19_page_counters
        (NAME : string) (enc : nat -> EncodeRequest -> option (list Vec))
        (ok : nat -> bool) (UUID : string -> option string)
        (pages : list pages_json.PageRecord)
        (db : gmap string (Collection PagePayload)) :
  let st := fst (vector_store.process_pages NAME enc ok UUID pages db) in
  let s := run_stats st in
  vector_store.total s = length pages
  /\ vector_store.skipped_empty s = length (List.filter blank pages)
  /\ (vector_store.processed s + vector_store.skipped_empty s
      <= vector_store.total s)%nat
  /\ concat (List.map sentences (encoded (run_log st)))
     = List.map vector_store.prepare_text_for_embedding
                (List.filter (fun page => negb (blank page)) pages)
  /\ length (encoded (run_log st))
     = ((vector_store.total s - vector_store.skipped_empty s
         + vector_store.BATCH_SIZE - 1) / vector_store.BATCH_SIZE)%nat.
Proof.
  cbn zeta. unfold vector_store.process_pages.
  pose proof (select_pages_skipped pages) as Hskip.
  pose proof (select_pages_split pages) as Hsplit.
  pose proof (texts_of_valid pages) as Htexts.
  destruct (vector_store.select_pages pages) as [valid skipped].
  cbn [fst snd] in Hskip, Hsplit, Htexts.
  set (st0 := mkRun _ _ _ _ _ _).
  set (starts := py_range (length valid) vector_store.BATCH_SIZE).
  destruct (page_turns NAME enc ok UUID valid starts st0)
    as (Ht & Hs & Hp & He & _).
  set (st1 := fold_left _ starts st0) in *.
  destruct (flush_rest_stats NAME ok st1) as (Hst & He' & _).
  cbn zeta in Hst, He'. rewrite Hst, He'.
  assert (Hcover : concat (List.map (batch_at valid) starts) = valid)
    by (apply py_range_slices; unfold vector_store.BATCH_SIZE; lia).
  rewrite Hcover in Hp. cbn [st0 run_stats run_log encoded app
                                 vector_store.total vector_store.skipped_empty
                                 vector_store.processed] in Ht, Hs, Hp, He.
  rewrite Ht, Hs.
  split; [reflexivity |]. split; [exact Hskip |].
  split; [lia |].
  split.
  - rewrite He, sentences_of_batches, Hcover. exact Htexts.
  - rewrite He, length_map. subst starts. unfold py_range.
    rewrite length_map, length_seq.
    replace (length pages - skipped)%nat with (length valid) by lia.
    reflexivity.
Qed.

Lemma has_uuid_makes UUID pt v :
  has_uuid UUID pt -> is_Some (vector_store.make_point UUID (fst pt) v).
Proof.
  intros (i & u & Hi & Hu).
  unfold vector_store.make_point, vector_store.notion_id_to_uuid.
  rewrite Hi, Hu. eexists. reflexivity.
Qed.

(** [zip] over a batch whose first pages have a well-formed id and whose
    next page has none. *)
Lemma append_until_bad UUID good bad rest vectors
      (st : Run vector_store.Stats PagePayload) :
  Forall (has_uuid UUID) good ->
  (forall v, vector_store.make_point UUID (fst bad) v = None) ->
  length vectors = length (good ++ bad :: rest) ->
  let r := vector_store.append_points
             UUID st (combine (List.map fst (good ++ bad :: rest)) vectors) in
  snd r = false
  /\ vector_store.processed (run_stats (fst r))
     = (vector_store.processed (run_stats st) + length good)%nat
  /\ length (run_points (fst r)) = (length (run_points st) + length good)%nat.
Proof.
  intros Hgood Hbad. revert st vectors.
  induction Hgood as [| g good Hg _ IH]; intros st vectors Hlen; cbn zeta.
  - destruct vectors as [| v vectors]; [discriminate Hlen |].
    cbn [app List.map combine vector_store.append_points].
    rewrite Hbad. cbn. split; [reflexivity |]. split; lia.
  - destruct vectors as [| v vectors]; [discriminate Hlen |].
    cbn [app List.map combine vector_store.append_points].
    destruct (has_uuid_makes UUID g v Hg) as [p ->].
    destruct (IH (with_stats vector_store.add_processed
                             (with_points (run_points st ++ [p]) st))
                 vectors) as (Hb & Hp & Hl).
    { cbn in Hlen. injection Hlen as Hlen. exact Hlen. }
    split; [exact Hb |].
    split; [rewrite Hp; cbn; lia |].
    rewrite Hl. cbn. rewrite length_app. cbn. lia.
Qed.

(** X20.  A page whose id is missing or is no UUID leaves the [try] of
    its batch in the middle: the pages in front of it in the batch have
    been counted as processed and their points stay in the buffer, the
    error counter still grows by [BATCH_SIZE], and the turn makes no
    upsert, however full the buffer is.  Pages of such a batch are
    counted both as processed and as errors. *)
Theorem X20_malformed_id_mid_batch
        (NAME : string) (enc : nat -> EncodeRequest -> option (list Vec))
        (ok : nat -> bool) (UUID : string -> option string)
        (valid : list (pages_json.PageRecord * string))
        (st : Run vector_store.Stats PagePayload) (i : nat)
        (good rest : list (pages_json.PageRecord * string))
        (bad : pages_json.PageRecord * string) (vectors : list Vec) :
  batch_at valid i = good ++ bad :: rest ->
  Forall (has_uuid UUID) good ->
  (forall v, vector_store.make_point UUID (fst bad) v = None) ->
  enc (run_encodes st) (request_of (batch_at valid i)) = Some vectors ->
  length vectors = length (batch_at valid i) ->
  let st' := vector_store.for_batch NAME enc ok UUID valid st i in
  vector_store.processed (run_stats st')
  = (vector_store.processed (run_stats st) + length good)%nat
  /\ vector_store.errors (run_stats st')
     = (vector_store.errors (run_stats st) + vector_store.BATCH_SIZE)%nat
  /\ length (run_points st') = (length (run_points st) + length good)%nat
  /\ upserted (run_log st') = upserted (run_log st).
Proof.
  intros Hb Hgood Hbad Henc Hlen. cbn zeta.
  unfold vector_store.for_batch. fold (batch_at valid i).
  unfold vector_store.try_embed, vector_store.embed_batch.
  fold (request_of (batch_at valid i)). rewrite Henc.
  set (st1 := mkRun _ _ _ _ _ _).
  rewrite Hb in Hlen |- *.
  destruct (append_until_bad UUID good bad rest vectors st1 Hgood Hbad Hlen)
    as (Hfalse & Hp & Hl).
  pose proof (page_writer.page_append_points_frame
                UUID st1 (combine (List.map fst (good ++ bad :: rest)) vectors))
    as (_ & Hlog & _ & _ & Herr).
  cbn zeta in *.
  destruct (vector_store.append_points UUID st1 _) as [st2 b].
  cbn [fst snd] in *. subst b.
  cbn [with_stats run_stats run_points run_log vector_store.add_errors
                  vector_store.processed vector_store.errors].
  split; [exact Hp |]. split; [rewrite Herr; reflexivity |].
  split; [exact Hl |].
  rewrite Hlog. cbn [st1 run_log]. rewrite upserted_app. cbn.
  apply app_nil_r.
Qed.

(** X20 on a batch of four pages, the third with an id that is no
    UUID: two pages are counted as processed and four as errors. *)
Lemma X20_malformed_id_mid_batch_witness :
  let valid := fst (vector_store.select_pages pages_with_bad_id) in
  let st := mkRun (vector_store.mkStats 4 0 0 0) [] fresh_pages 0%nat 0%nat [] in
  let st' := vector_store.for_batch "notion_pages" model_up index_up uuid_str
                                    valid st 0 in
  vector_store.processed (run_stats st') = 2%nat
  /\ vector_store.errors (run_stats st') = 4%nat
  /\ length (run_points st') = 2%nat
  /\ upserted (run_log st') = [].
Proof.
  cbn zeta.
  apply (X20_malformed_id_mid_batch
           "notion_pages" model_up index_up uuid_str
           (fst (vector_store.select_pages pages_with_bad_id))
           (mkRun (vector_store.mkStats 4 0 0 0) [] fresh_pages 0%nat 0%nat [])
           0
           [(page_with 1 "Inbox",
             vector_store.prepare_text_for_embedding (page_with 1 "Inbox"));
            (page_with 2 "Roadmap",
             vector_store.prepare_text_for_embedding (page_with 2 "Roadmap"))]
           [(page_with 4 "Journal",
             vector_store.prepare_text_for_embedding (page_with 4 "Journal"))]
           (bad_id_page, vector_store.prepare_text_for_embedding bad_id_page)
           (List.map toy_embed
                     (List.map snd
                               (fst (vector_store.select_pages
                                       pages_with_bad_id))))).
  - vm_compute. reflexivity.
  - repeat constructor; eexists _, _; (split; [reflexivity |]);
      vm_compute; reflexivity.
  - intros v. vm_compute. reflexivity.
  - vm_compute. reflexivity.
  - vm_compute. reflexivity.
Defined.

(** X21.  After [main] of the page pipeline, however it ended, every
    point handed to the index, and so every point that the collection
    holds, is the point of a page of the export whose text is not blank:
    it lies under the UUID of that page's id and carries the id as
    [notion_id]. *)
Theorem X21_stored_points_are_pages
        (NAME : string) (DIM : Z)
        (enc : nat -> EncodeRequest -> option (list Vec)) (ok : nat -> bool)
        (UUID : string -> option string)
        (pages : list pages_json.PageRecord)
        (db : gmap string (Collection PagePayload)) :
  exists st out,
    vector_store.main NAME DIM enc ok UUID pages db = Some (st, out)
    /\ Forall (point_of_page UUID pages) (upserted (run_log st))
    /\ (forall i p, stored NAME (run_db st) !! i = Some p ->
                    point_of_page UUID pages p).
Proof.
  unfold vector_store.main. rewrite page_writer.page_init_qdrant_fresh.
  set (fresh := <[NAME := _]> _).
  assert (Hs : stored NAME fresh = ∅)
    by (unfold stored; subst fresh; rewrite lookup_insert_eq; reflexivity).
  pose proof (page_writer.process_pages_only_logged NAME enc ok UUID pages fresh Hs)
    as Hlogged.
  assert (Hall : Forall (point_of_page UUID pages)
                        (upserted (run_log (fst (vector_store.process_pages
                                                   NAME enc ok UUID pages fresh))))).
  { unfold vector_store.process_pages.
    pose proof (page_order.select_pages_filter pages) as Hsel.
    destruct (vector_store.select_pages pages) as [valid skipped].
    cbn [fst] in Hsel.
    set (st0 := mkRun _ _ _ _ _ _).
    destruct (page_turns NAME enc ok UUID valid
                         (py_range (length valid) vector_store.BATCH_SIZE) st0)
      as (_ & _ & _ & _ & HQ).
    destruct (flush_rest_stats
                NAME ok
                (fold_left (vector_store.for_batch NAME enc ok UUID valid)
                           (py_range (length valid) vector_store.BATCH_SIZE) st0))
      as (_ & _ & HQ').
    apply HQ', HQ; [| constructor].
    intros pt v p Hpt Hmk. rewrite Hsel in Hpt.
    apply filter_In in Hpt as [Hpt Htext].
    apply in_map_iff in Hpt as (page & <- & Hpage). cbn [fst snd] in *.
    unfold vector_store.make_point, vector_store.notion_id_to_uuid in Hmk.
    destruct (pages_json.page_id page) as [i |] eqn:Hi; [| discriminate].
    destruct (UUID (vector_store.remove_hyphens i)) as [u |] eqn:Hu;
      [| discriminate].
    injection Hmk as <-. exists page, i. cbn.
    split; [exact Hpage |]. split; [unfold blank; rewrite Htext; reflexivity |].
    auto. }
  destruct (vector_store.process_pages NAME enc ok UUID pages fresh)
    as [st out] eqn:E.
  exists st, out. split; [reflexivity |]. cbn [fst] in *.
  split; [exact Hall |].
  intros i p Hp. destruct (Hlogged i p Hp) as (pts & Hin & Hpts).
  rewrite List.Forall_forall in Hall. apply Hall.
  eapply in_upserted; eassumption.
Qed.

(** ** The code pipeline *)

Section CodePipeline.

Variable enc : nat -> EncodeRequest -> option (list Vec).
Variable ok : nat -> bool.
Variable md5 : string -> string.
Variable info : string -> code_embedder.SwiftInfo.

Local Abbreviation State := (Run code_embedder.Stats CodePayload).

(** One turn of the loop that reads the files. *)
Lemma read_turn valid (s : code_embedder.Stats) f :
  let r := code_embedder.for_file info (valid, s) f in
  length (fst r) = (length valid + length (List.filter has_code [f]))%nat
  /\ code_embedder.total (snd r) = code_embedder.total s
  /\ code_embedder.processed (snd r) = code_embedder.processed s
  /\ code_embedder.skipped_empty (snd r)
     = (code_embedder.skipped_empty s + length (List.filter empty_file [f]))%nat
  /\ code_embedder.errors (snd r)
     = (code_embedder.errors s + length (List.filter unreadable [f]))%nat
  /\ code_embedder.modules (snd r)
     = list_to_set (List.map module_of_file (List.filter has_code [f]))
       ∪ code_embedder.modules s.
Proof.
  cbn zeta. unfold code_embedder.for_file. cbn [List.filter].
  unfold has_code, empty_file, unreadable.
  destruct (code_embedder.read_text f) as [content |].
  - destruct (strip_truthy content); cbn [negb].
    + cbn [fst snd code_embedder.add_module code_embedder.total
               code_embedder.processed code_embedder.skipped_empty
               code_embedder.errors code_embedder.modules length
               List.map list_to_set code_embedder.extract_metadata
               code_embedder.md_module].
      fold (module_of_file f). rewrite length_app. cbn [length].
      split; [lia |]. split; [reflexivity |]. split; [reflexivity |].
      split; [lia |]. split; [lia |].
      rewrite (right_id_L ∅ (∪)). reflexivity.
    + cbn. split; [lia |]. split; [reflexivity |]. split; [reflexivity |].
      split; [lia |]. split; [lia |]. symmetry. apply (left_id_L ∅ (∪)).
  - cbn. split; [lia |]. split; [reflexivity |]. split; [reflexivity |].
    split; [lia |]. split; [lia |]. symmetry. apply (left_id_L ∅ (∪)).
Qed.

(** The loop that reads the files, from any state. *)
Lemma read_loop files valid (s : code_embedder.Stats) :
  let r := fold_left (code_embedder.for_file info) files (valid, s) in
  length (fst r) = (length valid + length (List.filter has_code files))%nat
  /\ code_embedder.total (snd r) = code_embedder.total s
  /\ code_embedder.processed (snd r) = code_embedder.processed s
  /\ code_embedder.skipped_empty (snd r)
     = (code_embedder.skipped_empty s + length (List.filter empty_file files))%nat
  /\ code_embedder.errors (snd r)
     = (code_embedder.errors s + length (List.filter unreadable files))%nat
  /\ code_embedder.modules (snd r)
     = list_to_set (List.map module_of_file (List.filter has_code files))
       ∪ code_embedder.modules s.
Proof.
  revert valid s. induction files as [| f files IH]; intros valid s; cbn zeta.
  - cbn. split; [lia |]. split; [reflexivity |]. split; [reflexivity |].
    split; [lia |]. split; [lia |]. symmetry. apply (left_id_L ∅ (∪)).
  - cbn [fold_left].
    destruct (read_turn valid s f) as (Hl1 & Ht1 & Hp1 & Hs1 & He1 & Hm1).
    destruct (code_embedder.for_file info (valid, s) f) as [v1 s1].
    destruct (IH v1 s1) as (Hl2 & Ht2 & Hp2 & Hs2 & He2 & Hm2).
    cbn [fst snd] in *.
    change (f :: files) with ([f] ++ files).
    rewrite !List.filter_app, !length_app, map_app, list_to_set_app_L.
    split; [lia |]. split; [congruence |]. split; [congruence |].
    split; [lia |]. split; [lia |].
    rewrite Hm2, Hm1.
    rewrite (assoc_L (∪)), (comm_L (∪) (list_to_set (List.map _ (List.filter _ files)))).
    reflexivity.
Qed.

Lemma code_append_made (st : State) zipped :
  let st' := code_embedder.append_points md5 st zipped in
  code_embedder.processed (run_stats st')
  = (code_embedder.processed (run_stats st) + length zipped)%nat
  /\ code_embedder.total (run_stats st') = code_embedder.total (run_stats st)
  /\ code_embedder.skipped_empty (run_stats st')
     = code_embedder.skipped_empty (run_stats st)
  /\ code_embedder.modules (run_stats st')
     = code_embedder.modules (run_stats st)
  /\ code_embedder.errors (run_stats st')
     = code_embedder.errors (run_stats st).
Proof.
  cbn zeta. unfold code_embedder.append_points. revert st.
  induction zipped as [| [item v] zipped IH]; intros st.
  - cbn. repeat split; lia.
  - cbn [fold_left]. destruct (IH (with_stats code_embedder.add_processed
                                     (with_points
                                        (run_points st
                                         ++ [code_embedder.make_point md5 item v])
                                        st)))
      as (Hp & Ht & Hs & Hm & He).
    rewrite Hp, Ht, Hs, Hm, He. cbn. repeat split; lia.
Qed.

Lemma code_flush_stats (st : State) :
  let st' := code_embedder.flush ok st in
  code_embedder.processed (run_stats st') = code_embedder.processed (run_stats st)
  /\ code_embedder.total (run_stats st') = code_embedder.total (run_stats st)
  /\ code_embedder.skipped_empty (run_stats st')
     = code_embedder.skipped_empty (run_stats st)
  /\ code_embedder.modules (run_stats st')
     = code_embedder.modules (run_stats st)
  /\ (code_embedder.errors (run_stats st)
      <= code_embedder.errors (run_stats st'))%nat.
Proof.
  cbn zeta. unfold code_embedder.flush.
  destruct (upsert_facts.client_upsert_shape
              ok code_embedder.COLLECTION_NAME st) as (db1 & b1 & E1 & _).
  rewrite E1. destruct b1; cbn; repeat split; lia.
Qed.

(** One turn of the embedding loop, whatever the model and the index
    do. *)
Lemma code_turn valid (st : State) i :
  let st' := code_embedder.for_batch enc ok md5 valid st i in
  (code_embedder.processed (run_stats st')
   <= code_embedder.processed (run_stats st)
      + length (take code_embedder.BATCH_SIZE (drop i valid)))%nat
  /\ code_embedder.total (run_stats st') = code_embedder.total (run_stats st)
  /\ code_embedder.skipped_empty (run_stats st')
     = code_embedder.skipped_empty (run_stats st)
  /\ code_embedder.modules (run_stats st')
     = code_embedder.modules (run_stats st)
  /\ (code_embedder.errors (run_stats st)
      <= code_embedder.errors (run_stats st'))%nat.
Proof.
  cbn zeta. unfold code_embedder.for_batch, code_embedder.try_embed,
              code_embedder.embed_batch.
  set (b := take code_embedder.BATCH_SIZE (drop i valid)).
  destruct (enc (run_encodes st) _) as [vectors |].
  - set (st1 := mkRun _ _ _ _ _ _).
    destruct (code_append_made st1 (combine b vectors))
      as (Hp & Ht & Hs & Hm & He).
    cbn zeta in *.
    assert (Hlen : (length (combine b vectors) <= length b)%nat)
      by (rewrite length_combine; lia).
    destruct (_ <=? _)%nat.
    + destruct (code_flush_stats
                  (code_embedder.append_points md5 st1 (combine b vectors)))
        as (Hp' & Ht' & Hs' & Hm' & He').
      cbn zeta in *. rewrite Hp', Ht', Hs', Hm', Hp, Ht, Hs, Hm.
      rewrite He in He'. cbn [st1 run_stats] in *.
      repeat split; lia.
    + rewrite Hp, Ht, Hs, Hm, He. cbn [st1 run_stats]. repeat split; lia.
  - cbn. repeat split; lia.
Qed.

Lemma code_turns valid starts (st : State) :
  let st' := fold_left (code_embedder.for_batch enc ok md5 valid) starts st in
  (code_embedder.processed (run_stats st')
   <= code_embedder.processed (run_stats st)
      + length (concat (List.map
                          (fun i => take code_embedder.BATCH_SIZE (drop i valid))
                          starts)))%nat
  /\ code_embedder.total (run_stats st') = code_embedder.total (run_stats st)
  /\ code_embedder.skipped_empty (run_stats st')
     = code_embedder.skipped_empty (run_stats st)
  /\ code_embedder.modules (run_stats st')
     = code_embedder.modules (run_stats st)
  /\ (code_embedder.errors (run_stats st)
      <= code_embedder.errors (run_stats st'))%nat.
Proof.
  revert st. induction starts as [| i starts IH]; intros st; cbn zeta.
  - cbn. repeat split; lia.
  - cbn [fold_left List.map concat].
    destruct (code_turn valid st i) as (Hp1 & Ht1 & Hs1 & Hm1 & He1).
    destruct (IH (code_embedder.for_batch enc ok md5 valid st i))
      as (Hp2 & Ht2 & Hs2 & Hm2 & He2).
    cbn zeta in *. rewrite length_app, Ht2, Hs2, Hm2, Ht1, Hs1, Hm1.
    repeat split; lia.
Qed.

Lemma code_flush_rest_stats (st : State) :
  run_stats (fst (code_embedder.flush_rest ok st)) = run_stats st.
Proof.
  unfold code_embedder.flush_rest. destruct (run_points st); [reflexivity |].
  destruct (upsert_facts.client_upsert_shape
              ok code_embedder.COLLECTION_NAME st) as (db1 & b1 & E1 & _).
  rewrite E1. destruct b1; reflexivity.
Qed.

End CodePipeline.

(** X22.  The counters of [process_files], whatever the model and the
    index do: [total] is the number of files, [skipped_empty] the number
    of files read that hold white space only, [modules] the set of the
    first folders of the files that hold code ("Root" for a file in no
    folder).  Every unreadable file is counted as an error, and the
    files counted as processed are among those that hold code. *)
Theorem X22_file_counters
        (enc : nat -> EncodeRequest -> option (list Vec)) (ok : nat -> bool)
        (md5 : string -> string) (info : string -> code_embedder.SwiftInfo)
        (files : list code_embedder.SwiftFile)
        (db : gmap string (Collection CodePayload)) :
  let s := run_stats (fst (code_embedder.process_files enc ok md5 info files db)) in
  code_embedder.total s = length files
  /\ code_embedder.skipped_empty s = length (List.filter empty_file files)
  /\ (length (List.filter unreadable files) <= code_embedder.errors s)%nat
  /\ (code_embedder.processed s <= length (List.filter has_code files))%nat
  /\ (length (List.filter has_code files) + length (List.filter empty_file files)
      + length (List.filter unreadable files))%nat = length files
  /\ code_embedder.modules s
     = list_to_set (List.map module_of_file (List.filter has_code files)).
Proof.
  cbn zeta. unfold code_embedder.process_files.
  destruct (read_loop info files [] (code_embedder.mkStats (length files) 0 0 0 ∅))
    as (Hl & Ht & Hp & Hs & He & Hm).
  destruct (fold_left (code_embedder.for_file info) files _) as [valid stats].
  cbn [fst snd code_embedder.total code_embedder.processed
           code_embedder.skipped_empty code_embedder.errors
           code_embedder.modules length] in *.
  rewrite code_flush_rest_stats.
  destruct (code_turns enc ok md5 valid
                       (py_range (length valid) code_embedder.BATCH_SIZE)
                       (mkRun stats [] db 0%nat 0%nat []))
    as (Hp' & Ht' & Hs' & Hm' & He').
  cbn zeta in *. cbn [run_stats] in *.
  rewrite Ht', Hs', Hm'.
  assert (Hcover : concat (List.map
                             (fun i => take code_embedder.BATCH_SIZE (drop i valid))
                             (py_range (length valid) code_embedder.BATCH_SIZE))
                   = valid)
    by (apply py_range_slices; unfold code_embedder.BATCH_SIZE; lia).
  rewrite Hcover in Hp'.
  split; [exact Ht |]. split; [rewrite Hs; reflexivity |].
  split; [lia |]. split; [lia |].
  split.
  - clear. induction files as [| f files IH]; [reflexivity |].
    cbn [List.filter]. unfold has_code at 1, empty_file at 1, unreadable at 1.
    destruct (code_embedder.read_text f) as [c |];
      [destruct (strip_truthy c) |]; cbn [negb length]; lia.
  - rewrite Hm. apply (right_id_L ∅ (∪)).
Qed.

(** X23.  In the code pipeline an upsert made inside the loop is not
    retried: when it fails the turn has made that one call and has not
    slept, the points of the buffer are dropped, the error counter grows
    by their number, and they stay counted as processed. *)
Theorem X23_code_upsert_not_retried
        (ok : nat -> bool) (st : Run code_embedder.Stats CodePayload) :
  ok (run_upserts st) = false ->
  let st' := code_embedder.flush ok st in
  run_log st'
  = run_log st ++ [Upsert code_embedder.COLLECTION_NAME (run_points st)]
  /\ run_upserts st' = S (run_upserts st)
  /\ run_points st' = []
  /\ run_db st' = run_db st
  /\ code_embedder.errors (run_stats st')
     = (code_embedder.errors (run_stats st) + length (run_points st))%nat
  /\ code_embedder.processed (run_stats st')
     = code_embedder.processed (run_stats st).
Proof.
  intros H. cbn zeta. unfold code_embedder.flush.
  rewrite (upsert_facts.client_upsert_false ok code_embedder.COLLECTION_NAME st H).
  cbn. auto 10.
Qed.

(** X23 on a buffer of two points and an index that is down. *)
Lemma X23_code_upsert_not_retried_witness :
  let st := mkRun (code_embedder.mkStats 2 2 0 0 ∅) [point_view; point_model]
                  fresh_code 1%nat 0%nat [] in
  let st' := code_embedder.flush index_down st in
  run_log st' = [Upsert code_embedder.COLLECTION_NAME [point_view; point_model]]
  /\ run_upserts st' = 1%nat
  /\ run_points st' = []
  /\ run_db st' = fresh_code
  /\ code_embedder.errors (run_stats st') = 2%nat
  /\ code_embedder.processed (run_stats st') = 2%nat.
Proof.
  apply (X23_code_upsert_not_retried
           index_down
           (mkRun (code_embedder.mkStats 2 2 0 0 ∅) [point_view; point_model]
                  fresh_code 1%nat 0%nat [])).
  reflexivity.
Defined.

(** X24.  [init_qdrant] of the code embedder touches no collection but
    its own, and the collection it leaves is the one that [init_qdrant]
    of the code graph builder looks for: after the embedder's
    [init_qdrant] the graph builder's does not raise.  With
    [recreate=False] an existing collection is left as it is; with
    [recreate=True] the collection is left without points.  The graph
    builder's [init_qdrant] raises exactly when the collection is
    missing, and changes nothing. *)
Theorem X24_code_collection_ready
        (recreate : bool) (db db' : gmap string (Collection CodePayload)) :
  code_embedder.init_qdrant recreate db = Some db' ->
  code_graph_builder.init_qdrant db' = Some db'
  /\ (forall name, name <> code_embedder.COLLECTION_NAME ->
                   db' !! name = db !! name)
  /\ (recreate = false -> is_Some (db !! code_embedder.COLLECTION_NAME) ->
      db' = db)
  /\ (recreate = true -> stored code_embedder.COLLECTION_NAME db' = ∅)
  /\ (code_graph_builder.init_qdrant db = None
      <-> db !! code_graph_builder.CODE_COLLECTION = None).
Proof.
  intros H.
  assert (Hgb : forall d : gmap string (Collection CodePayload),
             is_Some (d !! code_embedder.COLLECTION_NAME) ->
             code_graph_builder.init_qdrant d = Some d).
  { intros d Hd. unfold code_graph_builder.init_qdrant, exists_collection.
    change code_graph_builder.CODE_COLLECTION with code_embedder.COLLECTION_NAME.
    rewrite bool_decide_eq_true_2 by exact Hd. reflexivity. }
  assert (Hnone : code_graph_builder.init_qdrant db = None
                  <-> db !! code_graph_builder.CODE_COLLECTION = None).
  { unfold code_graph_builder.init_qdrant, exists_collection.
    case_bool_decide as E; cbn.
    - split; [discriminate |]. intros E'. rewrite E' in E.
      destruct E as [? E]. discriminate.
    - split; [| reflexivity]. intros _.
      destruct (db !! code_graph_builder.CODE_COLLECTION) eqn:E'; [| reflexivity].
      exfalso. apply E. eexists. reflexivity. }
  destruct recreate.
  - rewrite code_writer.code_init_qdrant_fresh in H. injection H as <-.
    split; [apply Hgb; rewrite lookup_insert_eq; eexists; reflexivity |].
    split.
    { intros name Hne. rewrite lookup_insert_ne by congruence.
      apply lookup_delete_ne. congruence. }
    split; [discriminate |].
    split; [| exact Hnone].
    intros _. unfold stored. rewrite lookup_insert_eq. reflexivity.
  - destruct (db !! code_embedder.COLLECTION_NAME) as [c |] eqn:E.
    + rewrite (code_writer.init_qdrant_reuse db c E) in H. injection H as <-.
      split; [apply Hgb; rewrite E; eexists; reflexivity |].
      split; [reflexivity |]. split; [reflexivity |].
      split; [discriminate | exact Hnone].
    + unfold code_embedder.init_qdrant, exists_collection in H.
      rewrite bool_decide_eq_false_2 in H
        by (rewrite E; intros [? ?]; discriminate).
      unfold create_collection in H. rewrite E in H.
      unfold create_payload_index in H.
      rewrite lookup_insert_eq in H. cbn in H.
      rewrite lookup_insert_eq in H. cbn in H.
      injection H as <-.
      split; [apply Hgb; rewrite lookup_insert_eq; eexists; reflexivity |].
      split.
      { intros name Hne. rewrite !lookup_insert_ne by congruence. reflexivity. }
      split; [intros _ [? ?]; discriminate |].
      split; [discriminate | exact Hnone].
Qed.

(** X24 on a database that holds the collection, reused. *)
Lemma X24_code_collection_ready_witness :
  code_graph_builder.init_qdrant fresh_code = Some fresh_code.
Proof.
  apply (X24_code_collection_ready false fresh_code fresh_code).
  vm_compute. reflexivity.
Defined.

(** ** Running the code graph builder again *)

Lemma match_from_shape l k j ns ns' :
  List.map (fun n => (node_label n, node_key n)) ns
  = List.map (fun n => (node_label n, node_key n)) ns' ->
  match_from l k j ns = match_from l k j ns'.
Proof.
  revert j ns'. induction ns as [| n ns IH]; intros j [| n' ns'] H;
    try discriminate; [reflexivity |].
  cbn in H. injection H as Hl Hk Hrest. cbn [match_from].
  unfold is_node. rewrite Hl, Hk, (IH (S j) ns' Hrest). reflexivity.
Qed.

Lemma match_nodes_shape l k g g' :
  shape g = shape g' -> match_nodes l k g = match_nodes l k g'.
Proof. apply match_from_shape. Qed.

Lemma set_props_shape l k p n :
  (node_label (set_props l k p n), node_key (set_props l k p n))
  = (node_label n, node_key n).
Proof. unfold set_props. destruct (is_node l k n); reflexivity. Qed.

(** MERGE with SET on a key that is there changes properties only. *)
Lemma merge_node_shape l k p g :
  count_nodes l k g <> 0%nat -> shape (merge_node l k p g) = shape g.
Proof.
  intros H. unfold merge_node. case_bool_decide as E.
  - exfalso. apply H. unfold count_nodes. rewrite E. reflexivity.
  - unfold shape. cbn [nodes]. rewrite map_map.
    apply map_ext. intros n. apply set_props_shape.
Qed.

Lemma merge_node_plain_same l k g :
  count_nodes l k g <> 0%nat -> merge_node_plain l k g = g.
Proof.
  intros H. unfold merge_node_plain. case_bool_decide as E; [| reflexivity].
  exfalso. apply H. unfold count_nodes. rewrite E. reflexivity.
Qed.

Lemma count_nodes_shape l k g g' :
  shape g = shape g' -> count_nodes l k g = count_nodes l k g'.
Proof. intros H. unfold count_nodes. rewrite (match_nodes_shape l k g g' H). reflexivity. Qed.

(** [create_code_nodes] on a graph that has a node for every point. *)
Lemma code_nodes_again points g s :
  (forall point, In point points ->
                 count_nodes CodeFile (path_of point) g <> 0%nat) ->
  let r := fold_left code_graph_builder.for_code_node points (g, s) in
  shape (fst r) = shape g /\ rels (fst r) = rels g.
Proof.
  revert g s. induction points as [| p points IH]; intros g s Hall; cbn zeta;
    [split; reflexivity |].
  cbn [fold_left]. unfold code_graph_builder.for_code_node at 2 4.
  fold (module_of p). fold (path_of p).
  set (g1 := merge_node CodeFile (path_of p) _ g).
  assert (Hs : shape g1 = shape g)
    by (apply merge_node_shape, Hall; left; reflexivity).
  destruct (IH g1 (code_graph_builder.mkCodeNodeStats
                     (S (code_graph_builder.nodes_created s))
                     (code_graph_builder.nodes_errors s)
                     ({[module_of p]} ∪ code_graph_builder.modules s)))
    as (Hs2 & Hr2).
  { intros point Hin. rewrite (count_nodes_shape _ _ g1 g Hs).
    apply Hall. right. exact Hin. }
  cbn zeta in *. split; [congruence |].
  rewrite Hr2. apply merge_node_rels.
Qed.

(** [create_module_nodes] on a graph that has a node for every module. *)
Lemma module_nodes_again ms g n :
  (forall m, In m ms -> count_nodes ModuleLabel m g <> 0%nat) ->
  fst (fold_left (fun st module =>
                    (merge_node_plain ModuleLabel module (fst st), S (snd st)))
                 ms (g, n)) = g.
Proof.
  revert n. induction ms as [| m ms IH]; intros n Hall; [reflexivity |].
  cbn [fold_left fst snd].
  rewrite merge_node_plain_same by (apply Hall; left; reflexivity).
  apply IH. intros m' Hin. apply Hall. right. exact Hin.
Qed.

Lemma fold_plain_rel_same t rows rs :
  (forall i j, In (i, j) rows -> existsb (is_rel t i j) rs = true) ->
  fold_left (merge_plain_rel t) rows rs = rs.
Proof.
  induction rows as [| [i j] rows IH]; intros Hall; [reflexivity |].
  cbn [fold_left]. unfold merge_plain_rel at 2.
  rewrite (Hall i j) by (left; reflexivity).
  apply IH. intros i' j' Hin. apply Hall. right. exact Hin.
Qed.

Lemma existsb_more {A} (f : A -> bool) l l' :
  (forall x, In x l -> In x l') -> existsb f l = true -> existsb f l' = true.
Proof.
  intros Hsub H. apply existsb_exists in H as (x & Hx & Hf).
  apply existsb_exists. exists x. split; [apply Hsub, Hx | exact Hf].
Qed.

Lemma all_linked_more g g' point :
  shape g' = shape g -> (forall r, In r (rels g) -> In r (rels g')) ->
  all_linked g point -> all_linked g' point.
Proof.
  intros Hs Hr H i j Hi Hj.
  rewrite (match_nodes_shape _ _ g' g Hs) in Hi.
  rewrite (match_nodes_shape _ _ g' g Hs) in Hj.
  eapply existsb_more; [exact Hr | apply H; assumption].
Qed.

(** After its turn a point is linked through every pair of its nodes. *)
Lemma belongs_turn_links g c point :
  all_linked (fst (code_graph_builder.for_belongs_to (g, c) point)) point.
Proof.
  unfold code_graph_builder.for_belongs_to, merge_plain_rel_between.
  fold (path_of point). fold (module_of point). cbn [fst snd].
  intros i j Hi Hj. cbn [rels].
  unfold match_nodes in Hi, Hj. cbn [nodes] in Hi, Hj.
  destruct (fold_plain_rel_has
              BELONGS_TO
              (list_prod (match_nodes CodeFile (path_of point) g)
                         (match_nodes ModuleLabel (module_of point) g))
              (rels g) i j) as (r & Hr & Hrel).
  { apply in_prod; assumption. }
  apply existsb_exists. exists r. split; assumption.
Qed.

Lemma belongs_turn_frame g c point :
  let r := code_graph_builder.for_belongs_to (g, c) point in
  nodes (fst r) = nodes g /\ (forall x, In x (rels g) -> In x (rels (fst r))).
Proof.
  cbn zeta. unfold code_graph_builder.for_belongs_to, merge_plain_rel_between.
  cbn [fst snd nodes rels]. split; [reflexivity |].
  intros x Hx. apply fold_plain_rel_incl, Hx.
Qed.

Lemma shape_nodes g g' : nodes g' = nodes g -> shape g' = shape g.
Proof. unfold shape. intros ->. reflexivity. Qed.

(** After the loop every point is linked through every pair of its
    nodes. *)
Lemma belongs_loop_links points g c :
  let r := fold_left code_graph_builder.for_belongs_to points (g, c) in
  nodes (fst r) = nodes g
  /\ (forall x, In x (rels g) -> In x (rels (fst r)))
  /\ (forall point, In point points -> all_linked (fst r) point).
Proof.
  revert g c. induction points as [| p points IH]; intros g c; cbn zeta.
  - cbn. split; [reflexivity |]. split; [auto | intros ? []].
  - cbn [fold_left].
    pose proof (belongs_turn_links g c p) as Hl1.
    destruct (belongs_turn_frame g c p) as (Hn1 & Hr1).
    destruct (code_graph_builder.for_belongs_to (g, c) p) as [g1 c1].
    cbn [fst] in *.
    destruct (IH g1 c1) as (Hn2 & Hr2 & Hl2).
    split; [congruence |]. split; [auto |].
    intros point [<- | Hin]; [| apply Hl2, Hin].
    eapply all_linked_more; [apply shape_nodes, Hn2 | exact Hr2 | exact Hl1].
Qed.

(** The loop on a graph in which every point is linked already. *)
Lemma belongs_again points g c :
  (forall point, In point points -> all_linked g point) ->
  fst (fold_left code_graph_builder.for_belongs_to points (g, c)) = g.
Proof.
  revert c. induction points as [| p points IH]; intros c Hall; [reflexivity |].
  cbn [fold_left].
  assert (E : fst (code_graph_builder.for_belongs_to (g, c) p) = g).
  { unfold code_graph_builder.for_belongs_to, merge_plain_rel_between.
    fold (path_of p). fold (module_of p). cbn [fst snd].
    rewrite fold_plain_rel_same; [destruct g; reflexivity |].
    intros i j Hin. apply in_prod_iff in Hin as [Hi Hj].
    apply (Hall p (or_introl eq_refl)); assumption. }
  destruct (code_graph_builder.for_belongs_to (g, c) p) as [g1 c1].
  cbn [fst] in E. subst g1. apply IH.
  intros point Hin. apply Hall. right. exact Hin.
Qed.

(** X25.  Running the first three steps of the code graph builder again
    on the graph they have left, with the same points, adds nothing: the
    graph has the same nodes, by label and key and in the same order,
    and the same relationships.  The builder never clears the graph; it
    relies on every statement being a MERGE. *)
Theorem X25_code_graph_rerun
        (g : Graph) (points : list (PointStruct CodePayload)) :
  shape (code_graph_of (code_graph_of g points) points)
  = shape (code_graph_of g points)
  /\ rels (code_graph_of (code_graph_of g points) points)
     = rels (code_graph_of g points).
Proof.
  set (g1 := code_graph_of g points).
  assert (H1 : forall point, In point points ->
                             count_nodes CodeFile (path_of point) g1 <> 0%nat
                             /\ count_nodes ModuleLabel (module_of point) g1
                                <> 0%nat
                             /\ all_linked g1 point).
  { subst g1. unfold code_graph_of, code_graph_builder.create_code_nodes,
                code_graph_builder.create_module_nodes,
                code_graph_builder.create_belongs_to_relationships.
    destruct (code_nodes_loop points g (code_graph_builder.mkCodeNodeStats 0 0 ∅))
      as (_ & _ & Hm1 & _ & Hk1 & _).
    set (r1 := fold_left code_graph_builder.for_code_node points _) in *.
    destruct (module_nodes_loop (elements (code_graph_builder.modules (snd r1)))
                                (fst r1) 0)
      as (_ & _ & Hk2 & Hkeep2).
    set (r2 := fold_left _ (elements _) _) in *.
    destruct (belongs_loop_links points (fst r2) 0) as (Hn3 & _ & Hl3).
    intros point Hin.
    rewrite !(count_nodes_same _ _ (fst r2) _ Hn3).
    split; [apply Hkeep2, Hk1, Hin |].
    split; [| apply Hl3, Hin].
    apply Hk2. apply list_elem_of_In, elem_of_elements. rewrite Hm1.
    apply elem_of_union_l, elem_of_list_to_set, list_elem_of_In.
    apply (in_map module_of), Hin. }
  clearbody g1.
  unfold code_graph_of, code_graph_builder.create_code_nodes,
    code_graph_builder.create_module_nodes,
    code_graph_builder.create_belongs_to_relationships.
  destruct (code_nodes_loop points g1 (code_graph_builder.mkCodeNodeStats 0 0 ∅))
    as (_ & _ & Hm & _ & _ & _).
  destruct (code_nodes_again points g1 (code_graph_builder.mkCodeNodeStats 0 0 ∅))
    as (Hs & Hr).
  { intros point Hin. apply (H1 point Hin). }
  set (r1 := fold_left code_graph_builder.for_code_node points _) in *.
  rewrite module_nodes_again.
  - rewrite belongs_again; [split; assumption |].
    intros point Hin. eapply all_linked_more; [exact Hs | | apply (H1 point Hin)].
    intros x Hx. rewrite Hr. exact Hx.
  - intros m Hin. apply list_elem_of_In, elem_of_elements in Hin.
    rewrite Hm in Hin. apply elem_of_union in Hin as [Hin | Hin].
    + apply elem_of_list_to_set, list_elem_of_In, in_map_iff in Hin
        as (point & <- & Hpoint).
      rewrite (count_nodes_shape _ _ (fst r1) g1 Hs). apply (H1 point Hpoint).
    + apply elem_of_empty in Hin. destruct Hin.
Qed.

(** ** The size of the upserts *)

Lemma upsert_batches_app {P} (l1 l2 : list (WriterCall P)) :
  upsert_batches (l1 ++ l2) = upsert_batches l1 ++ upsert_batches l2.
Proof.
  induction l1 as [| c l1 IH]; [reflexivity |].
  destruct c; cbn; rewrite IH; reflexivity.
Qed.

Section UpsertSizes.

Variable enc : nat -> EncodeRequest -> option (list Vec).
Variable ok : nat -> bool.
Variable md5 : string -> string.

Local Abbreviation State := (Run code_embedder.Stats CodePayload).

Lemma code_append_length (st : State) zipped :
  length (run_points (code_embedder.append_points md5 st zipped))
  = (length (run_points st) + length zipped)%nat.
Proof.
  unfold code_embedder.append_points. revert st.
  induction zipped as [| [item v] zipped IH]; intros st; [cbn; lia |].
  cbn [fold_left]. rewrite IH. cbn. rewrite length_app. cbn. lia.
Qed.

(** Between two turns the buffer holds fewer than [UPSERT_BATCH_SIZE]
    points, and every upsert made so far was of a full buffer. *)
Lemma code_turn_sizes valid (st : State) i :
  (length (run_points st) < code_embedder.UPSERT_BATCH_SIZE)%nat ->
  Forall (fun pts => (code_embedder.UPSERT_BATCH_SIZE <= length pts
                      < code_embedder.UPSERT_BATCH_SIZE
                        + code_embedder.BATCH_SIZE)%nat)
         (upsert_batches (run_log st)) ->
  let st' := code_embedder.for_batch enc ok md5 valid st i in
  (length (run_points st') < code_embedder.UPSERT_BATCH_SIZE)%nat
  /\ Forall (fun pts => (code_embedder.UPSERT_BATCH_SIZE <= length pts
                         < code_embedder.UPSERT_BATCH_SIZE
                           + code_embedder.BATCH_SIZE)%nat)
            (upsert_batches (run_log st')).
Proof.
  intros Hbuf Hlog. cbn zeta.
  unfold code_embedder.for_batch, code_embedder.try_embed,
    code_embedder.embed_batch.
  set (b := take code_embedder.BATCH_SIZE (drop i valid)).
  assert (Hb : (length b <= code_embedder.BATCH_SIZE)%nat).
  { subst b. rewrite length_take. lia. }
  destruct (enc (run_encodes st) _) as [vectors |].
  - set (st1 := mkRun _ _ _ _ _ _).
    pose proof (code_append_length st1 (combine b vectors)) as Hlen.
    pose proof (code_writer.code_append_points_frame
                  md5 st1 (combine b vectors)) as (_ & Hl & _).
    cbn zeta in Hl.
    assert (Hc : (length (combine b vectors) <= code_embedder.BATCH_SIZE)%nat)
      by (rewrite length_combine; lia).
    set (st2 := code_embedder.append_points md5 st1 (combine b vectors)) in *.
    assert (Hlog2 : upsert_batches (run_log st2) = upsert_batches (run_log st)).
    { rewrite Hl. cbn [st1 run_log]. rewrite upsert_batches_app. cbn.
      apply app_nil_r. }
    cbn [st1 run_points] in Hlen.
    destruct (_ <=? _)%nat eqn:E.
    + apply Nat.leb_le in E. unfold code_embedder.flush.
      destruct (upsert_facts.client_upsert_shape
                  ok code_embedder.COLLECTION_NAME st2) as (db1 & b1 & E1 & _).
      rewrite E1.
      assert (G : Forall (fun pts => (code_embedder.UPSERT_BATCH_SIZE <= length pts
                                      < code_embedder.UPSERT_BATCH_SIZE
                                        + code_embedder.BATCH_SIZE)%nat)
                         (upsert_batches
                            (run_log st2
                             ++ [Upsert code_embedder.COLLECTION_NAME
                                        (run_points st2)]))).
      { rewrite upsert_batches_app, Hlog2. cbn [upsert_batches].
        apply Forall_app. split; [exact Hlog |].
        constructor; [| constructor].
        unfold code_embedder.UPSERT_BATCH_SIZE, code_embedder.BATCH_SIZE in *.
        lia. }
      destruct b1; cbn; (split; [unfold code_embedder.UPSERT_BATCH_SIZE; lia |]);
        exact G.
    + apply Nat.leb_gt in E. split; [exact E |]. rewrite Hlog2. exact Hlog.
  - cbn. split; [exact Hbuf |]. rewrite upsert_batches_app. cbn.
    rewrite app_nil_r. exact Hlog.
Qed.

Lemma code_turns_sizes valid starts (st : State) :
  (length (run_points st) < code_embedder.UPSERT_BATCH_SIZE)%nat ->
  Forall (fun pts => (code_embedder.UPSERT_BATCH_SIZE <= length pts
                      < code_embedder.UPSERT_BATCH_SIZE
                        + code_embedder.BATCH_SIZE)%nat)
         (upsert_batches (run_log st)) ->
  let st' := fold_left (code_embedder.for_batch enc ok md5 valid) starts st in
  (length (run_points st') < code_embedder.UPSERT_BATCH_SIZE)%nat
  /\ Forall (fun pts => (code_embedder.UPSERT_BATCH_SIZE <= length pts
                         < code_embedder.UPSERT_BATCH_SIZE
                           + code_embedder.BATCH_SIZE)%nat)
            (upsert_batches (run_log st')).
Proof.
  revert st. induction starts as [| i starts IH]; intros st Hbuf Hlog;
    cbn zeta; [split; assumption |].
  cbn [fold_left].
  destruct (code_turn_sizes valid st i Hbuf Hlog) as [Hbuf1 Hlog1].
  apply IH; assumption.
Qed.

End UpsertSizes.

(** X26.  The size of the upserts of the code pipeline, whatever the
    model and the index do: every upsert made inside the loop hands over
    at least [UPSERT_BATCH_SIZE] points and fewer than
    [UPSERT_BATCH_SIZE + BATCH_SIZE]; the upsert after the loop, if
    there is one, hands over what is left, at least one point and fewer
    than [UPSERT_BATCH_SIZE].  No upsert is empty. *)
Theorem X26_code_upsert_sizes
        (enc : nat -> EncodeRequest -> option (list Vec)) (ok : nat -> bool)
        (md5 : string -> string) (info : string -> code_embedder.SwiftInfo)
        (files : list code_embedder.SwiftFile)
        (db : gmap string (Collection CodePayload)) :
  let st := fst (code_embedder.process_files enc ok md5 info files db) in
  exists front rest,
    upsert_batches (run_log st) = front ++ rest
    /\ Forall (fun pts => (code_embedder.UPSERT_BATCH_SIZE <= length pts
                           < code_embedder.UPSERT_BATCH_SIZE
                             + code_embedder.BATCH_SIZE)%nat) front
    /\ (rest = []
        \/ exists pts, rest = [pts]
                       /\ (1 <= length pts < code_embedder.UPSERT_BATCH_SIZE)%nat).
Proof.
  cbn zeta. unfold code_embedder.process_files.
  destruct (fold_left (code_embedder.for_file info) files _) as [valid stats].
  set (st0 := mkRun stats [] db 0%nat 0%nat []).
  destruct (code_turns_sizes enc ok md5 valid
                             (py_range (length valid) code_embedder.BATCH_SIZE) st0)
    as [Hbuf Hlog].
  { cbn. unfold code_embedder.UPSERT_BATCH_SIZE. lia. }
  { constructor. }
  set (st1 := fold_left _ _ st0) in *.
  unfold code_embedder.flush_rest.
  destruct (run_points st1) as [| p pts] eqn:E.
  - exists (upsert_batches (run_log st1)), []. cbn [fst].
    rewrite app_nil_r. auto.
  - destruct (upsert_facts.client_upsert_shape
                ok code_embedder.COLLECTION_NAME st1) as (db1 & b1 & E1 & _).
    rewrite E1.
    exists (upsert_batches (run_log st1)), [p :: pts].
    rewrite E in *.
    assert (G : upsert_batches (run_log st1
                                ++ [Upsert code_embedder.COLLECTION_NAME (p :: pts)])
                = upsert_batches (run_log st1) ++ [p :: pts])
      by (rewrite upsert_batches_app; reflexivity).
    destruct b1; cbn [fst run_log]; (split; [exact G |]);
      (split; [exact Hlog |]); right; exists (p :: pts);
        (split; [reflexivity |]);
        unfold code_embedder.UPSERT_BATCH_SIZE in *; cbn [length] in *; lia.
Qed.

(** ** The exporter *)

Lemma str_app_assoc (a b c : string) :
  ((a ++ b) ++ c)%string = (a ++ (b ++ c))%string.
Proof.
  induction a as [| x a IH]; [reflexivity |].
  change (String x a ++ b)%string with (String x (a ++ b)%string).
  change (String x (a ++ b) ++ c)%string with (String x ((a ++ b) ++ c)%string).
  change (String x a ++ (b ++ c))%string with (String x (a ++ (b ++ c))%string).
  rewrite IH. reflexivity.
Qed.

Lemma str_app_truthy (a b : string) :
  str_truthy (a ++ b)%string = str_truthy a || str_truthy b.
Proof. destruct a; [destruct b |]; reflexivity. Qed.

(** A join of strings none of which is empty is empty for the empty
    list only. *)
Lemma concat_truthy sep (parts : list string) :
  Forall (fun s => str_truthy s = true) parts ->
  str_truthy (String.concat sep parts) = negb (bool_decide (parts = [])).
Proof.
  intros H. destruct H as [| s parts Hs H]; [reflexivity |].
  rewrite bool_decide_eq_false_2 by discriminate. cbn [negb String.concat].
  destruct parts; [exact Hs |].
  rewrite str_app_truthy, Hs. reflexivity.
Qed.

Lemma concat_app sep (l1 l2 : list string) :
  String.concat sep (l1 ++ l2)
  = match l1, l2 with
    | [], _ => String.concat sep l2
    | _, [] => String.concat sep l1
    | _, _ => (String.concat sep l1 ++ sep ++ String.concat sep l2)%string
    end.
Proof.
  induction l1 as [| x l1 IH]; [reflexivity |].
  destruct l2 as [| y l2]; [rewrite app_nil_r; reflexivity |].
  destruct l1 as [| x' l1]; [reflexivity |].
  change ((x :: x' :: l1) ++ y :: l2) with (x :: (x' :: l1) ++ y :: l2).
  change (String.concat sep (x :: (x' :: l1) ++ y :: l2))
    with (x ++ sep ++ String.concat sep ((x' :: l1) ++ y :: l2))%string.
  rewrite IH.
  change (String.concat sep (x :: x' :: l1))
    with (x ++ sep ++ String.concat sep (x' :: l1))%string.
  rewrite !str_app_assoc. reflexivity.
Qed.

Lemma text_parts_truthy blocks :
  Forall (fun s => str_truthy s = true)
         (flat_map notion_exporter.text_parts_of blocks).
Proof.
  induction blocks as [| blk blocks IH]; [constructor |].
  cbn [flat_map]. apply Forall_app. split; [| exact IH].
  unfold notion_exporter.text_parts_of.
  destruct (existsb _ _).
  - destruct (str_truthy _) eqn:E; repeat constructor. exact E.
  - destruct (String.eqb _ _); [| constructor].
    destruct (str_truthy _); repeat constructor.
Qed.

(** X27.  [blocks_to_text] joins what the blocks contribute by line
    breaks.  The text is empty exactly when no block contributes: a
    block contributes only when its type is one of the ten text types or
    [code] and its text is not empty.  Blocks that contribute nothing
    leave no trace, not even a line break: the text of two lists of
    blocks one after the other is the text of the one when the other
    gives none, and the two texts joined by one line break otherwise. *)
Theorem X27_blocks_text_joined (a b : list notion_exporter.Block) :
  (notion_exporter.blocks_to_text a = ""%string
   <-> Forall (fun blk => notion_exporter.text_parts_of blk = []) a)
  /\ notion_exporter.blocks_to_text (a ++ b)
     = (if str_truthy (notion_exporter.blocks_to_text a)
        then if str_truthy (notion_exporter.blocks_to_text b)
             then (notion_exporter.blocks_to_text a ++ newline
                   ++ notion_exporter.blocks_to_text b)%string
             else notion_exporter.blocks_to_text a
        else notion_exporter.blocks_to_text b).
Proof.
  unfold notion_exporter.blocks_to_text.
  pose proof (concat_truthy newline _ (text_parts_truthy a)) as Ha.
  pose proof (concat_truthy newline _ (text_parts_truthy b)) as Hb.
  split.
  - split.
    + intros E. rewrite E in Ha. cbn in Ha.
      symmetry in Ha. apply negb_false_iff, bool_decide_eq_true in Ha.
      clear E Hb. induction a as [| blk a IH]; [constructor |].
      cbn [flat_map] in Ha. apply app_eq_nil in Ha as [H1 H2].
      constructor; [exact H1 | apply IH, H2].
    + intros H. assert (E : flat_map notion_exporter.text_parts_of a = []).
      { clear Ha Hb. induction H as [| blk a Hblk _ IH]; [reflexivity |].
        cbn [flat_map]. rewrite Hblk, IH. reflexivity. }
      rewrite E. reflexivity.
  - rewrite flat_map_app, concat_app, Ha, Hb.
    destruct (flat_map notion_exporter.text_parts_of a) as [| x xs];
      [reflexivity |].
    destruct (flat_map notion_exporter.text_parts_of b) as [| y ys];
      reflexivity.
Qed.

Lemma in_mention_of item x :
  In x (notion_exporter.mention_of item)
  <-> exists page_id,
      x = Some page_id
      /\ notion_exporter.rt_type item = Some "mention"%string
      /\ notion_exporter.rt_mention_type item = Some "page"%string
      /\ notion_exporter.rt_mention_page_id item = Some page_id
      /\ page_id <> ""%string.
Proof.
  unfold notion_exporter.mention_of.
  case_bool_decide as E1.
  - case_bool_decide as E2.
    + destruct (notion_exporter.rt_mention_page_id item) as [page_id |].
      * destruct page_id as [| c s]; cbn.
        -- split; [intros [] |]. intros (p & _ & _ & _ & Hp & Hne). congruence.
        -- split.
           ++ intros [<- | []]. exists (String c s). auto 10.
           ++ intros (p & -> & _ & _ & Hp & _). left. congruence.
      * split; [intros [] |]. intros (p & _ & _ & _ & Hp & _). discriminate.
    + split; [intros [] |]. intros (p & _ & _ & H & _). contradiction.
  - split; [intros [] |]. intros (p & _ & H & _). contradiction.
Qed.

(** X28.  [extract_links] gives every link once, however often the
    blocks name it.  A page id is among the links exactly when some
    block mentions that page in its rich text (a mention of type [page]
    with a non-empty id) or is a [link_to_page] block of type [page_id]
    with that id; such a block with no [page_id] at all puts [None]
    among the links. *)
Theorem X28_links_once (blocks : list notion_exporter.Block)
        (x : option string) :
  NoDup (notion_exporter.extract_links blocks)
  /\ (x ∈ notion_exporter.extract_links blocks
      <-> exists blk,
          In blk blocks
          /\ ((exists item page_id,
                  In item (get (notion_exporter.rich_text
                                  (notion_exporter.content_of blk)) [])
                  /\ x = Some page_id
                  /\ notion_exporter.rt_type item = Some "mention"%string
                  /\ notion_exporter.rt_mention_type item = Some "page"%string
                  /\ notion_exporter.rt_mention_page_id item = Some page_id
                  /\ page_id <> ""%string)
              \/ (notion_exporter.block_type blk = Some "link_to_page"%string
                  /\ notion_exporter.link_type (notion_exporter.content_of blk)
                     = Some "page_id"%string
                  /\ x = notion_exporter.link_page_id
                           (notion_exporter.content_of blk)))).
Proof.
  unfold notion_exporter.extract_links. split; [apply NoDup_elements |].
  rewrite elem_of_elements, elem_of_list_to_set, list_elem_of_In, in_flat_map.
  split.
  - intros (blk & Hblk & Hx). exists blk. split; [exact Hblk |].
    unfold notion_exporter.links_of in Hx. apply in_app_or in Hx as [Hx | Hx].
    + left. apply in_flat_map in Hx as (item & Hitem & Hx).
      apply in_mention_of in Hx as (page_id & H).
      exists item, page_id. split; [exact Hitem | exact H].
    + right. destruct (String.eqb _ _) eqn:Et; [| destruct Hx].
      case_bool_decide as El; [| destruct Hx].
      destruct Hx as [<- | []]. apply String.eqb_eq in Et.
      split; [| split; [exact El | reflexivity]].
      destruct (notion_exporter.block_type blk); cbn in Et;
        [congruence | discriminate].
  - intros (blk & Hblk & [(item & page_id & Hitem & H) | (Ht & Hl & ->)]);
      exists blk; (split; [exact Hblk |]); unfold notion_exporter.links_of;
      apply in_or_app.
    + left. apply in_flat_map. exists item. split; [exact Hitem |].
      apply in_mention_of. exists page_id. exact H.
    + right. rewrite Ht. cbn [get]. rewrite String.eqb_refl.
      rewrite bool_decide_eq_true_2 by exact Hl. left. reflexivity.
Qed.

Lemma first_title_none props key value :
  notion_exporter.first_title props = None ->
  notion_exporter.lookup_prop key props = Some value ->
  notion_exporter.title_of value = None.
Proof.
  induction props as [| [k v] props IH]; [discriminate |].
  cbn [notion_exporter.first_title notion_exporter.lookup_prop].
  destruct (notion_exporter.title_of v) eqn:E; [discriminate |].
  intros Hnone. destruct (String.eqb k key).
  - intros H. injection H as <-. exact E.
  - apply IH, Hnone.
Qed.

(** X29.  The title of a page is the title of its first property of
    type [title] whose title array is not empty, and "Untitled" when it
    has none.  The second look at the property [Name] never finds a
    title: whenever [Name] has one, the loop has already returned. *)
Theorem X29_title_from_first_property
        (props : list (string * notion_exporter.Property)) :
  notion_exporter.extract_title props
  = get (notion_exporter.first_title props) "Untitled"%string.
Proof.
  unfold notion_exporter.extract_title.
  destruct (notion_exporter.first_title props) as [t |] eqn:E; [reflexivity |].
  destruct (notion_exporter.lookup_prop "Name" props) as [value |] eqn:El;
    [| reflexivity].
  rewrite (first_title_none props "Name" value E El). reflexivity.
Qed.

End extras.
